(** * osuniverse: action canonicalisation and the step-loop controller

    A shallow embedding of
    - [agents/claude_computer_use/claude_computer_use/agent.py]
      (context trimmer, parameter mapping, [take_action], [solve_task]),
    - [agents/cua/cua/actor/action_parser.py] and [agents/cua/cua/agent.py],
    - [agents/qwen/qwen/actor/action_parser.py],
    - [agents/cua/cua/actor/oai.py] and the selection of the action in
      [agents/qwen/qwen/actor/oai.py],
    followed by the properties of the specification that concern them and
    by further properties of the same code.

    Python values are modelled as follows: [int] as [Z], [str] as [string]
    (bytes of the UTF-8 encoding), [dict] as an association list in insertion
    order, exceptions as values of [exn] returned on the left of a sum.
    Collaborators the code only calls (the model client, the device, the
    task session, [json_repair], [tenacity]) are inputs of the model. *)

From Stdlib Require Import ZArith List String Ascii Bool Lia DecimalString.
Import ListNotations.
Set Warnings "-register-all".
Local Open Scope string_scope.
Local Open Scope Z_scope.

(* ===================================================================== *)
(** ** Python values and exceptions *)
(* ===================================================================== *)

Module Py.

(** Exceptions the embedded code raises or lets through.  [External] stands
    for anything a collaborator raises (network, device, task server);
    [RetryError] is tenacity's wrapper around the last attempt's exception;
    [KeyErrorOf] is a [KeyError] whose key is not a string, with the repr of
    the key.  The messages are those of CPython 3.11. *)
Inductive exn : Type :=
| KeyError (key : string)
| IndexError (msg : string)
| TypeError (msg : string)
| AttributeError (msg : string)
| ValueError (msg : string)
| SystemError (msg : string)
| UnboundLocalError (var : string)
| ZeroDivisionError (msg : string)
| External (cls msg : string)
| RetryError (last : exn)
| KeyErrorOf (repr : string).

(** [type(e).__name__] *)
Definition class_name (e : exn) : string :=
  match e with
  | KeyError _ => "KeyError"
  | IndexError _ => "IndexError"
  | TypeError _ => "TypeError"
  | AttributeError _ => "AttributeError"
  | ValueError _ => "ValueError"
  | SystemError _ => "SystemError"
  | UnboundLocalError _ => "UnboundLocalError"
  | ZeroDivisionError _ => "ZeroDivisionError"
  | External cls _ => cls
  | RetryError _ => "RetryError"
  | KeyErrorOf _ => "KeyError"
  end.

(** [str(e)].  A [KeyError] prints the repr of its key; tenacity's
    [RetryError.__str__] is [f"{cls}[{last_attempt}]"], and the repr of a
    finished future that raised is
    [<Future at 0x.. state=finished raised Cls>]; [addr] is the hexadecimal
    identity of that future. *)
Definition str_exn (addr : string) (e : exn) : string :=
  match e with
  | KeyError k => "'" ++ k ++ "'"
  | IndexError m | TypeError m | AttributeError m | ValueError m
  | SystemError m | ZeroDivisionError m | External _ m | KeyErrorOf m => m
  | UnboundLocalError v =>
      "cannot access local variable '" ++ v
        ++ "' where it is not associated with a value"
  | RetryError last =>
      "RetryError[<Future at 0x" ++ addr ++ " state=finished raised "
        ++ class_name last ++ ">]"
  end.

(** Result of a pure, fallible computation. *)
Definition res (A : Type) : Type := (exn + A)%type.
Definition ok {A} (a : A) : res A := inr a.
Definition throw {A} (e : exn) : res A := inl e.
Definition rbind {A B} (m : res A) (f : A -> res B) : res B :=
  match m with inl e => inl e | inr a => f a end.

(** Decoded JSON, without floats. *)
Inductive json : Type :=
| JNull
| JBool (b : bool)
| JInt (z : Z)
| JStr (s : string)
| JList (l : list json)
| JDict (d : list (string * json)).

Definition dict : Type := list (string * json).

(** [type(v).__name__] *)
Definition type_name (v : json) : string :=
  match v with
  | JNull => "NoneType"
  | JBool _ => "bool"
  | JInt _ => "int"
  | JStr _ => "str"
  | JList _ => "list"
  | JDict _ => "dict"
  end.

(** [repr(z)] of an integer: its decimal digits. *)
Definition repr_int (z : Z) : string := NilZero.string_of_int (Z.to_int z).

(** [f"'{type(v).__name__}' object has no attribute '{meth}'"] *)
Definition no_attribute (v : json) (meth : string) : string :=
  "'" ++ type_name v ++ "' object has no attribute '" ++ meth ++ "'".

(** The text of the [TypeError] of an operation [v] does not support, as
    CPython 3.11 prints it: [f"'{type(v).__name__}' object {what}"]. *)
Definition object_is (v : json) (what : string) : string :=
  "'" ++ type_name v ++ "' object " ++ what.

(** The double quote. *)
Definition dq : string := String (ascii_of_nat 34) EmptyString.

(** [k in d] and [d[k]] *)
Fixpoint dict_find (d : dict) (k : string) : option json :=
  match d with
  | [] => None
  | (k', v) :: d' => if String.eqb k' k then Some v else dict_find d' k
  end.

Definition dict_has (d : dict) (k : string) : bool :=
  match dict_find d k with Some _ => true | None => false end.

Definition dict_get (d : dict) (k : string) : res json :=
  match dict_find d k with Some v => ok v | None => throw (KeyError k) end.

(** [del d[k]] on a dict that has [k]; [d[k] = v] keeps the position of an
    existing key and appends a new one. *)
Fixpoint dict_del (d : dict) (k : string) : dict :=
  match d with
  | [] => []
  | (k', v) :: d' =>
      if String.eqb k' k then dict_del d' k else (k', v) :: dict_del d' k
  end.

Fixpoint dict_set (d : dict) (k : string) (v : json) : dict :=
  match d with
  | [] => [(k, v)]
  | (k', v') :: d' =>
      if String.eqb k' k then (k, v) :: d' else (k', v') :: dict_set d' k v
  end.

(** Subscripting a decoded value: [v[k]] and [v[i]] for [i >= 0].  The keys
    of a decoded object are strings, so an integer subscript of an object
    is a [KeyError]. *)
Definition subscript_key (v : json) (k : string) : res json :=
  match v with
  | JDict d => dict_get d k
  | JList _ => throw (TypeError "list indices must be integers or slices, not str")
  | JStr _ => throw (TypeError "string indices must be integers, not 'str'")
  | _ => throw (TypeError (object_is v "is not subscriptable"))
  end.

Definition subscript_idx (v : json) (i : nat) : res json :=
  match v with
  | JList l =>
      match nth_error l i with
      | Some x => ok x
      | None => throw (IndexError "list index out of range")
      end
  | JStr s =>
      match String.get i s with
      | Some c => ok (JStr (String c EmptyString))
      | None => throw (IndexError "string index out of range")
      end
  | JDict _ => throw (KeyErrorOf (repr_int (Z.of_nat i)))
  | _ => throw (TypeError (object_is v "is not subscriptable"))
  end.

(** [v // n] for an integer [v] ([bool] is an [int] in Python) and a
    positive literal [n]: floor division, which is [Z.div]. *)
Definition floordiv (v : json) (n : Z) : res Z :=
  match v with
  | JInt z => ok (z / n)
  | JBool b => ok ((if b then 1 else 0) / n)
  | _ => throw (TypeError ("unsupported operand type(s) for //: '"
                           ++ type_name v ++ "' and 'int'"))
  end.

(** *** [str] methods, on ASCII *)

(** [str.lower]: letters A-Z; other bytes are left as they are. *)
Definition lower_ascii (c : ascii) : ascii :=
  let n := nat_of_ascii c in
  if (Nat.leb 65 n && Nat.leb n 90)%bool then ascii_of_nat (n + 32) else c.

Fixpoint lower (s : string) : string :=
  match s with
  | EmptyString => EmptyString
  | String c s' => String (lower_ascii c) (lower s')
  end.

(** [str.isspace] on one ASCII character. *)
Definition is_space (c : ascii) : bool :=
  let n := nat_of_ascii c in
  ((Nat.leb 9 n && Nat.leb n 13) || (Nat.leb 28 n && Nat.leb n 32))%bool.

Fixpoint lstrip (s : string) : string :=
  match s with
  | EmptyString => EmptyString
  | String c s' => if is_space c then lstrip s' else s
  end.

(** [rstrip]: a character is kept when it is not a space or when something
    remains to its right. *)
Fixpoint rstrip (s : string) : string :=
  match s with
  | EmptyString => EmptyString
  | String c s' =>
      match rstrip s' with
      | EmptyString => if is_space c then EmptyString else String c EmptyString
      | r => String c r
      end
  end.

Definition strip (s : string) : string := rstrip (lstrip s).

(** [s.replace(c, "")] for a one-character [c] *)
Fixpoint remove_char (c : ascii) (s : string) : string :=
  match s with
  | EmptyString => EmptyString
  | String a s' =>
      if Ascii.eqb a c then remove_char c s' else String a (remove_char c s')
  end.

(** [s.split(c)] for a one-character separator: never empty. *)
Fixpoint split_char (c : ascii) (s : string) : list string :=
  match s with
  | EmptyString => [EmptyString]
  | String a s' =>
      if Ascii.eqb a c then EmptyString :: split_char c s'
      else match split_char c s' with
           | [] => [String a EmptyString]
           | w :: ws => String a w :: ws
           end
  end.

(** [s.startswith(p)] and the suffix after the prefix *)
Fixpoint strip_prefix (p s : string) : option string :=
  match p, s with
  | EmptyString, _ => Some s
  | String a p', String b s' =>
      if Ascii.eqb a b then strip_prefix p' s' else None
  | String _ _, EmptyString => None
  end.

(** [s.find(p)]: the text before the first occurrence of [p] and the text
    after it. *)
Fixpoint find_first (p s : string) : option (string * string) :=
  match strip_prefix p s with
  | Some rest => Some (EmptyString, rest)
  | None =>
      match s with
      | EmptyString => None
      | String c s' =>
          match find_first p s' with
          | Some (before, rest) => Some (String c before, rest)
          | None => None
          end
      end
  end.

End Py.

(* ===================================================================== *)
(** ** The canonical action *)
(* ===================================================================== *)

(** [skillpacks.V1Action]: a name and a parameter mapping; the class checks
    neither the name nor the keys. *)
Record V1Action : Type := mkAction {
  name : string;
  parameters : Py.dict
}.

(** The vocabulary the specification fixes for [name]. *)
Definition vocabulary : list string :=
  ["click"; "double_click"; "drag_mouse"; "move_mouse"; "type_text";
   "hot_key"; "scroll"; "wait"; "take_screenshots"; "result"].

Definition in_vocabulary (n : string) : bool :=
  existsb (String.eqb n) vocabulary.

(* ===================================================================== *)
(** ** Claude computer-use agent: pure helpers *)
(* ===================================================================== *)

Module Claude.
Import Py.

(** *** Message history

    A message's content is a string or a list of blocks; a [tool_result]
    block's own content is absent, a string, or a list of image and text
    parts.  [BImage] is an image block that is not inside a tool result. *)
Inductive part : Type :=
| PImage (data : string)
| PText (text : string).

Inductive tool_result_content : Type :=
| TRAbsent
| TRStr (s : string)
| TRList (parts : list part).

Inductive block : Type :=
| BText (text : string)
| BToolUse (id : string) (input : dict)
| BToolResult (tool_use_id : string) (content : tool_result_content)
| BImage (data : string).

Inductive message_content : Type :=
| MStr (s : string)
| MList (blocks : list block).

Record message : Type := mkMessage {
  role : string;
  content : message_content
}.

Definition is_image (p : part) : bool :=
  match p with PImage _ => true | PText _ => false end.

(** The images the trimmer sees: those of the list contents of the
    [tool_result] blocks, oldest first. *)
Definition images_of_block (b : block) : list part :=
  match b with
  | BToolResult _ (TRList ps) => filter is_image ps
  | _ => []
  end.

Definition images_of_message (m : message) : list part :=
  match content m with
  | MStr _ => []
  | MList bs => flat_map images_of_block bs
  end.

Definition images_of (ms : list message) : list part :=
  flat_map images_of_message ms.

(** [total_images = sum(1 for ...)] *)
Definition total_images (ms : list message) : Z :=
  Z.of_nat (List.length (images_of ms)).

(** [images_to_remove = total_images - images_to_keep;
     images_to_remove -= images_to_remove % min_removal_threshold].
    Python's [%] takes the sign of the divisor, as [Z.modulo] does. *)
Definition images_to_remove (total images_to_keep min_removal_threshold : Z) : Z :=
  let r := total - images_to_keep in
  r - r mod min_removal_threshold.

(** The inner loop over one content list: an image is skipped while the
    counter is positive, everything else is appended to [new_content]. *)
Fixpoint trim_parts (n : Z) (ps : list part) : list part * Z :=
  match ps with
  | [] => ([], n)
  | p :: ps' =>
      if (is_image p && (0 <? n))%bool then trim_parts (n - 1) ps'
      else let '(ps'', n') := trim_parts n ps' in (p :: ps'', n')
  end.

Definition trim_block (n : Z) (b : block) : block * Z :=
  match b with
  | BToolResult id (TRList ps) =>
      let '(ps', n') := trim_parts n ps in (BToolResult id (TRList ps'), n')
  | _ => (b, n)
  end.

Fixpoint trim_blocks (n : Z) (bs : list block) : list block * Z :=
  match bs with
  | [] => ([], n)
  | b :: bs' =>
      let '(b', n1) := trim_block n b in
      let '(bs'', n2) := trim_blocks n1 bs' in
      (b' :: bs'', n2)
  end.

Definition trim_message (n : Z) (m : message) : message * Z :=
  match content m with
  | MStr _ => (m, n)
  | MList bs =>
      let '(bs', n') := trim_blocks n bs in (mkMessage (role m) (MList bs'), n')
  end.

Fixpoint trim_messages (n : Z) (ms : list message) : list message * Z :=
  match ms with
  | [] => ([], n)
  | m :: ms' =>
      let '(m', n1) := trim_message n m in
      let '(ms'', n2) := trim_messages n1 ms' in
      (m' :: ms'', n2)
  end.

(** [_maybe_filter_to_n_most_recent_images(messages, images_to_keep,
    min_removal_threshold)].  The blocks are mutated in place, so the result
    is the history itself after the update. *)
Definition _maybe_filter_to_n_most_recent_images
    (messages : list message) (images_to_keep min_removal_threshold : Z)
    : res (list message) :=
  if images_to_keep =? 0 then ok messages
  else if min_removal_threshold =? 0
  then throw (ZeroDivisionError "integer modulo by zero")
  else
    ok (fst (trim_messages
               (images_to_remove (total_images messages) images_to_keep
                  min_removal_threshold)
               messages)).

(** What the trimmer never touches: the history with every tool-result
    image taken out. *)
Definition without_images_block (b : block) : block :=
  match b with
  | BToolResult id (TRList ps) =>
      BToolResult id (TRList (filter (fun p => negb (is_image p)) ps))
  | _ => b
  end.

Definition without_images_message (m : message) : message :=
  match content m with
  | MStr _ => m
  | MList bs => mkMessage (role m) (MList (map without_images_block bs))
  end.

Definition without_images (ms : list message) : list message :=
  map without_images_message ms.

(** *** Action names and parameters *)

(** [self.action_mapping] *)
Definition action_mapping : list (string * string) :=
  [("key", "hot_key");
   ("type", "type_text");
   ("mouse_move", "move_mouse");
   ("left_click", "click");
   ("left_click_drag", "drag_mouse");
   ("right_click", "click");
   ("middle_click", "click");
   ("double_click", "double_click");
   ("screenshot", "take_screenshots");
   ("cursor_position", "mouse_coordinates")].

Fixpoint assoc (l : list (string * string)) (k : string) : option string :=
  match l with
  | [] => None
  | (k', v) :: l' => if String.eqb k' k then Some v else assoc l' k
  end.

(** [self.action_mapping[a]] *)
Definition map_action_name (a : string) : res string :=
  match assoc action_mapping a with
  | Some n => ok n
  | None => throw (KeyError a)
  end.

(** The key list of a [hot_key]: split at [+], strip and lower-case each
    piece, then delete the underscores. *)
Definition hot_key_keys (text : string) : list string :=
  map (remove_char "_"%char)
      (map (fun key => lower (strip key)) (split_char "+"%char text)).

Definition str_method (v : json) (f : string -> json) (meth : string) : res json :=
  match v with
  | JStr s => ok (f s)
  | _ => throw (AttributeError (no_attribute v meth))
  end.

(** [_get_mapped_action_params(action_name, action_params)] *)
Definition _get_mapped_action_params (action_name : string) (action_params : dict)
    : res dict :=
  if negb (String.eqb action_name "screenshot") then
    rbind
      (if ((String.eqb action_name "move_mouse"
            || String.eqb action_name "drag_mouse")
           && dict_has action_params "coordinate")%bool
       then
         rbind (dict_get action_params "coordinate") (fun c =>
         rbind (subscript_idx c 0) (fun x =>
         let p1 := dict_set action_params "x" x in
         rbind (subscript_idx c 1) (fun y =>
         let p2 := dict_set p1 "y" y in
         ok (dict_del p2 "coordinate"))))
       else ok action_params)
      (fun p =>
    rbind
      (if (String.eqb action_name "hot_key" && dict_has p "text")%bool
       then
         rbind (dict_get p "text") (fun t =>
         rbind (str_method t (fun s => JList (map JStr (hot_key_keys s))) "split")
           (fun keys =>
         ok (dict_del (dict_set p "keys" keys) "text")))
       else ok p)
      (fun p' =>
    if String.eqb action_name "press_key" then
      rbind (dict_get p' "key") (fun k =>
      rbind (str_method k
               (fun s => JStr (lower (remove_char "_"%char s))) "replace")
        (fun k' => ok (dict_set p' "key" k')))
    else ok p'))
  else ok action_params.

End Claude.

(* ===================================================================== *)
(** ** CUA dialect parser *)
(* ===================================================================== *)

Module Cua.
Import Py.

(** [CUA_KEY_TO_AGENTDESK_KEY] *)
Definition CUA_KEY_TO_AGENTDESK_KEY : list (string * string) :=
  [("/", "/");
   ("\", "\\");
   ("alt", "alt");
   ("arrowdown", "down");
   ("arrowleft", "left");
   ("arrowright", "right");
   ("arrowup", "up");
   ("backspace", "backspace");
   ("capslock", "capslock");
   ("cmd", "command");
   ("ctrl", "ctrl");
   ("delete", "delete");
   ("end", "end");
   ("enter", "enter");
   ("esc", "escape");
   ("home", "home");
   ("insert", "insert");
   ("option", "alt");
   ("pagedown", "pagedown");
   ("pageup", "pageup");
   ("shift", "shift");
   ("space", "space");
   ("super", "command");
   ("tab", "tab");
   ("win", "win")].

(** One turn of the [keypress] loop on a key that is a string. *)
Definition map_key (key : string) : string :=
  let low_key := lower key in
  match Claude.assoc CUA_KEY_TO_AGENTDESK_KEY low_key with
  | Some k => k
  | None => low_key
  end.

(** [for key in v]: a list yields its items, a string its characters, an
    object its keys. *)
Definition iterate (v : json) : res (list json) :=
  match v with
  | JList l => ok l
  | JStr s => ok (map (fun c => JStr (String c EmptyString)) (list_ascii_of_string s))
  | JDict d => ok (map (fun kv => JStr (fst kv)) d)
  | _ => throw (TypeError (object_is v "is not iterable"))
  end.

Fixpoint map_keys (l : list json) : res (list json) :=
  match l with
  | [] => ok []
  | JStr key :: l' => rbind (map_keys l') (fun ks => ok (JStr (map_key key) :: ks))
  | v :: _ => throw (AttributeError (no_attribute v "lower"))
  end.

(** [len(v) > 1] for a value that was already subscripted with [0]. *)
Definition longer_than_one (v : json) : bool :=
  match v with
  | JList l => Nat.ltb 1 (List.length l)
  | JStr s => Nat.ltb 1 (String.length s)
  | _ => false
  end.

(** [parse_action(action_type, action_args)]; [None] is Python's [None]. *)
Definition parse_action (action_type : string) (action_args : dict)
    : res (option V1Action) :=
  if String.eqb action_type "click" then
    rbind (dict_get action_args "x") (fun x =>
    rbind (dict_get action_args "y") (fun y =>
    rbind (if dict_has action_args "button" then dict_get action_args "button"
           else ok (JStr "left")) (fun b =>
    ok (Some (mkAction "click" [("x", x); ("y", y); ("button", b)])))))
  else if String.eqb action_type "double_click" then
    rbind (dict_get action_args "x") (fun x =>
    rbind (dict_get action_args "y") (fun y =>
    ok (Some (mkAction "double_click" [("x", x); ("y", y)]))))
  else if String.eqb action_type "scroll" then
    rbind (dict_get action_args "scroll_y") (fun sy =>
    rbind (floordiv sy 10) (fun q =>
    ok (Some (mkAction "scroll" [("clicks", JInt (q * (-1)))]))))
  else if String.eqb action_type "type" then
    rbind (dict_get action_args "text") (fun t =>
    ok (Some (mkAction "type_text" [("text", t)])))
  else if String.eqb action_type "move" then
    rbind (dict_get action_args "x") (fun x =>
    rbind (dict_get action_args "y") (fun y =>
    ok (Some (mkAction "move_mouse" [("x", x); ("y", y)]))))
  else if String.eqb action_type "keypress" then
    rbind (dict_get action_args "keys") (fun ks =>
    rbind (iterate ks) (fun l =>
    rbind (map_keys l) (fun keys =>
    ok (Some (mkAction "hot_key" [("keys", JList keys)])))))
  else if String.eqb action_type "drag" then
    rbind (dict_get action_args "path") (fun path =>
    rbind (subscript_idx path 0) (fun first =>
    rbind (if longer_than_one path then subscript_idx path 1 else ok first)
      (fun coords =>
    rbind (subscript_key coords "x") (fun x =>
    rbind (subscript_key coords "y") (fun y =>
    ok (Some (mkAction "drag_mouse" [("x", x); ("y", y)])))))))
  else if String.eqb action_type "wait" then
    rbind (if dict_has action_args "ms"
           then rbind (dict_get action_args "ms") (fun ms =>
                rbind (floordiv ms 1000) (fun q => ok (JInt q)))
           else ok (JInt 1)) (fun s =>
    ok (Some (mkAction "wait" [("seconds", s)])))
  else ok None.

(** The action types [parse_action] has a branch for. *)
Definition recognized : list string :=
  ["click"; "double_click"; "scroll"; "type"; "move"; "keypress"; "drag"; "wait"].

End Cua.

(* ===================================================================== *)
(** ** Qwen dialect parser *)
(* ===================================================================== *)

Module Qwen.
Import Py.

Definition nl : string := String (ascii_of_nat 10) EmptyString.

(** The three alternatives that close a tool call in [tool_call_pattern]:
    the closing tag, U+1F4D0 and U+2697. *)
Definition closers : list string := ["</tool_call>"; "📐"; "⚗"].

Fixpoint first_closer (cs : list string) (s : string) : option nat :=
  match cs with
  | [] => None
  | c :: cs' =>
      match strip_prefix c s with
      | Some _ => Some (String.length c)
      | None => first_closer cs' s
      end
  end.

(** [\n(?:</tool_call>|..)] at the head of [s]: the length of what it takes. *)
Definition closing (s : string) : option nat :=
  match strip_prefix nl s with
  | Some r => option_map S (first_closer closers r)
  | None => None
  end.

(** [(.*?)] followed by the closing, with DOTALL: the shortest text after
    which the closing matches, and the length of the closing. *)
Fixpoint lazy_group (s : string) : option (string * nat) :=
  match closing s with
  | Some n => Some (EmptyString, n)
  | None =>
      match s with
      | EmptyString => None
      | String c s' =>
          match lazy_group s' with
          | Some (g, n) => Some (String c g, n)
          | None => None
          end
      end
  end.

(** The whole [tool_call_pattern] at the head of [s]: the group and the
    length of the match. *)
Definition match_at (s : string) : option (string * nat) :=
  match strip_prefix ("<tool_call>" ++ nl) s with
  | Some r =>
      match lazy_group r with
      | Some (g, n) => Some (g, (12 + String.length g + n)%nat)
      | None => None
      end
  | None => None
  end.

(** [re.findall(tool_call_pattern, content, re.DOTALL)]: the groups of the
    non-overlapping matches, left to right.  [skip] counts the characters
    of the last match that are still to be passed over. *)
Fixpoint findall_from (skip : nat) (s : string) : list string :=
  match s with
  | EmptyString => []
  | String _ s' =>
      match skip with
      | S k => findall_from k s'
      | O =>
          match match_at s with
          | Some (g, len) => g :: findall_from (len - 1) s'
          | None => findall_from 0 s'
          end
      end
  end.

Definition findall (content : string) : list string := findall_from 0 content.

(** [re.search(r"^(.*?)(?=<tool_call>)", content, re.DOTALL)]: group 1 is
    the text before the first [<tool_call>], if there is one. *)
Definition pre_tool_match (content : string) : option string :=
  option_map fst (find_first "<tool_call>" content).

(** [a + b] on a string literal and a decoded value *)
Definition concat_str (a : string) (v : json) : res string :=
  match v with
  | JStr s => ok (a ++ s)
  | _ => throw (TypeError ("can only concatenate str (not " ++ dq ++ type_name v
                           ++ dq ++ ") to str"))
  end.

(** [parameters["x"], parameters["y"] = coordinate[0], coordinate[1]] *)
Definition xy_of (args : dict) (parameters : dict) : res dict :=
  rbind (dict_get args "coordinate") (fun c =>
  rbind (subscript_idx c 0) (fun x =>
  rbind (dict_get args "coordinate") (fun c' =>
  rbind (subscript_idx c' 1) (fun y =>
  ok (dict_set (dict_set parameters "x" x) "y" y))))).

Definition xy_if_present (args : dict) (parameters : dict) : res dict :=
  if dict_has args "coordinate" then xy_of args parameters else ok parameters.

(** The action names the [if]/[elif] chain has a branch for. *)
Definition recognized : list string :=
  ["key"; "type"; "mouse_move"; "left_click"; "left_click_drag";
   "right_click"; "middle_click"; "double_click"; "scroll"; "wait";
   "terminate"].

(** The [if]/[elif] chain on a string action name: the canonical name and
    the parameters.  [thought] is [None] while the variable is unbound. *)
Definition map_action (thought : option string) (action_name : string)
    (args : dict) : res (string * dict) :=
  if String.eqb action_name "key" then
    rbind (dict_get args "keys") (fun v => ok ("hot_key", [("keys", v)]))
  else if String.eqb action_name "type" then
    rbind (dict_get args "text") (fun v => ok ("type_text", [("text", v)]))
  else if String.eqb action_name "mouse_move" then
    rbind (xy_of args []) (fun p => ok ("move_mouse", p))
  else if String.eqb action_name "left_click" then
    rbind (xy_if_present args [("button", JStr "left")]) (fun p => ok ("click", p))
  else if String.eqb action_name "left_click_drag" then
    rbind (xy_if_present args []) (fun p => ok ("drag_mouse", p))
  else if String.eqb action_name "right_click" then
    rbind (xy_if_present args [("button", JStr "right")]) (fun p => ok ("click", p))
  else if String.eqb action_name "middle_click" then
    rbind (xy_if_present args [("button", JStr "middle")]) (fun p => ok ("click", p))
  else if String.eqb action_name "double_click" then
    rbind (xy_if_present args [("button", JStr "left")])
      (fun p => ok ("double_click", p))
  else if String.eqb action_name "scroll" then
    rbind (dict_get args "pixels") (fun v =>
    rbind (floordiv v 10) (fun q => ok ("scroll", [("clicks", JInt q)])))
  else if String.eqb action_name "wait" then
    rbind (dict_get args "time") (fun v => ok ("wait", [("seconds", v)]))
  else if String.eqb action_name "terminate" then
    rbind (dict_get args "status") (fun st =>
    rbind (concat_str "Status: " st) (fun s =>
    match thought with
    | Some t => ok ("result", [("value", JStr (s ++ " " ++ t))])
    | None => throw (UnboundLocalError "thought")
    end))
  else ok (action_name, []).

(** The body of the loop over [tools_used] for one decoded tool call.  A
    name that is not a string matches no branch, and [V1Action] (a pydantic
    model with [name: str]) refuses it. *)
Definition parse_tool_call (thought : option string) (tool_used_json : json)
    : res V1Action :=
  rbind (subscript_key tool_used_json "arguments") (fun a =>
  rbind (subscript_key a "action") (fun action_name =>
  match a, action_name with
  | JDict args, JStr n =>
      rbind (map_action thought n args) (fun np => ok (mkAction (fst np) (snd np)))
  | _, _ => throw (External "ValidationError" "name: Input should be a valid string")
  end)).

Fixpoint parse_tool_calls (thought : option string) (js : list json)
    : res (list V1Action) :=
  match js with
  | [] => ok []
  | j :: js' =>
      rbind (parse_tool_call thought j) (fun a =>
      rbind (parse_tool_calls thought js') (fun l => ok (a :: l)))
  end.

Section WithJsonRepair.

(** [json_repair.loads], which returns a value for every input. *)
Variable loads : string -> json.

(** [parse_action(content)] *)
Definition parse_action (content : string) : res (string * list V1Action) :=
  let tools_used := map strip (findall content) in
  let thought := option_map strip (pre_tool_match content) in
  rbind (parse_tool_calls thought (map loads tools_used)) (fun output =>
  match thought with
  | Some t => ok (t, output)
  | None => throw (UnboundLocalError "thought")
  end).

End WithJsonRepair.

End Qwen.

(* ===================================================================== *)
(** ** Task session, effects and the retry wrapper *)
(* ===================================================================== *)

Module Session.
Import Py.

(** The members of taskara's [TaskStatus] the agents test or assign;
    [IN_PROGRESS] stands for every other member. *)
Inductive TaskStatus : Type :=
| IN_PROGRESS | CANCELING | CANCELED | FINISHED | FAILED.

Definition status_eqb (a b : TaskStatus) : bool :=
  match a, b with
  | IN_PROGRESS, IN_PROGRESS | CANCELING, CANCELING | CANCELED, CANCELED
  | FINISHED, FINISHED | FAILED, FAILED => true
  | _, _ => false
  end.

Record Task : Type := mkTask {
  remote : bool;
  status : TaskStatus;
  error : option string
}.

(** What a run does to its collaborators, in order.  The texts of
    [post_message] are kept without their leading pictograph;
    [EvPostValue text v] is the post of an f-string that ends with a decoded
    value, [f"{text}{v}"]: the text before the value, and the value. *)
Inductive event : Type :=
| EvRefresh
| EvSave (st : TaskStatus)
| EvPost (text : string)
| EvPostValue (text : string) (value : json)
| EvModelCall
| EvScreenshot
| EvDispatch (action_name : string) (params : dict)
| EvRecord (action : V1Action).

Definition is_model_call (e : event) : bool :=
  match e with EvModelCall => true | _ => false end.
Definition is_dispatch (e : event) : bool :=
  match e with EvDispatch _ _ => true | _ => false end.
Definition is_record (e : event) : bool :=
  match e with EvRecord _ => true | _ => false end.

(** The state a run threads: the task, the trace of effects (oldest first)
    and the agent's own mutable data [X]. *)
Record State (X : Type) : Type := mkState {
  task : Task;
  log : list event;
  extra : X
}.
Arguments mkState {X}.
Arguments task {X}.
Arguments log {X}.
Arguments extra {X}.

(** State and exceptions: an exception keeps the effects made before it. *)
Definition M (X A : Type) : Type := State X -> res A * State X.

Definition ret {X A} (a : A) : M X A := fun s => (inr a, s).
Definition bind {X A B} (m : M X A) (f : A -> M X B) : M X B :=
  fun s => match m s with
           | (inr a, s') => f a s'
           | (inl e, s') => (inl e, s')
           end.
Definition raise {X A} (e : exn) : M X A := fun s => (inl e, s).
Definition lift {X A} (r : res A) : M X A := fun s => (r, s).

(** [try: m  except Exception as e: h e] *)
Definition try_except {X A} (m : M X A) (h : exn -> M X A) : M X A :=
  fun s => match m s with
           | (inr a, s') => (inr a, s')
           | (inl e, s') => h e s'
           end.

Definition emit {X} (e : event) : M X unit :=
  fun s => (inr tt, mkState (task s) (log s ++ [e]) (extra s)).
Definition get_task {X} : M X Task := fun s => (inr (task s), s).
Definition set_status {X} (st : TaskStatus) : M X unit :=
  fun s => (inr tt,
            mkState (mkTask (remote (task s)) st (error (task s))) (log s) (extra s)).
Definition set_error {X} (msg : string) : M X unit :=
  fun s => (inr tt,
            mkState (mkTask (remote (task s)) (status (task s)) (Some msg))
              (log s) (extra s)).
Definition get_extra {X} : M X X := fun s => (inr (extra s), s).
Definition put_extra {X} (x : X) : M X unit :=
  fun s => (inr tt, mkState (task s) (log s) x).

Definition when {X} (b : bool) (m : M X unit) : M X unit :=
  if b then m else ret tt.

(** [task.post_message("assistant", text)] and [task.save()]; the model
    takes both as calls that return. *)
Definition post_message {X} (text : string) : M X unit := emit (EvPost text).
Definition post_value {X} (text : string) (v : json) : M X unit :=
  emit (EvPostValue text v).
Definition save {X} : M X unit :=
  bind get_task (fun t => emit (EvSave (status t))).

(** [if task.remote: task.refresh()], which reloads the status or raises. *)
Definition refresh {X} (answer : res TaskStatus) : M X unit :=
  bind get_task (fun t =>
  when (remote t)
    (bind (emit EvRefresh) (fun _ =>
     bind (lift answer) (fun st => set_status st)))).

(** The status the cancellation test of a step reads. *)
Definition polled (answer : res TaskStatus) (t : Task) : res TaskStatus :=
  if remote t then answer else ok (status t).

(** [tenacity.retry(stop=stop_after_attempt(n))] with the library's other
    settings left at their defaults: every exception is retried, there is no
    wait, and when the stop condition holds after a failed attempt a
    [RetryError] around that attempt's exception is raised.  [fn k] is the
    wrapped function as it runs on attempt number [k]. *)
Fixpoint retry_attempts {X A} (remaining attempt_number : nat)
    (fn : nat -> M X A) : M X A :=
  fun s =>
    match fn attempt_number s with
    | (inr a, s') => (inr a, s')
    | (inl e, s') =>
        match remaining with
        | O => (inl (RetryError e), s')
        | S r => retry_attempts r (S attempt_number) fn s'
        end
    end.

Definition retry {X A} (stop_after_attempt : nat) (fn : nat -> M X A) : M X A :=
  retry_attempts (stop_after_attempt - 1) 1 fn.

End Session.

Declare Scope session_scope.
Notation "x <- m ;; k" := (Session.bind m (fun x => k))
  (at level 61, m at next level, right associativity) : session_scope.
Notation "m ;;; k" := (Session.bind m (fun _ => k))
  (at level 61, right associativity) : session_scope.

(* ===================================================================== *)
(** ** CUA agent: [take_action] and [solve_task] *)
(* ===================================================================== *)

Module CuaAgent.
Import Py Session.
Local Open Scope session_scope.

(** [actor.base.Step], with the fields the agent reads. *)
Record Step : Type := mkStep {
  action : option V1Action;
  thought : string;
  raw_response : string
}.

(** The answers of the collaborators during one attempt of one step. *)
Record Env : Type := mkEnv {
  refresh_answer : res TaskStatus;
  act : res (option Step);
  find_action : string -> bool;
  use : V1Action -> res string;
  record_action : V1Action -> option exn
}.

Section WithFuture.

(** The identity of the future a [RetryError] prints. *)
Variable addr : string.

Definition history : Type := list Step.

Definition do_record (w : Env) (a : V1Action) : M history unit :=
  match record_action w a with
  | Some e => raise e
  | None => emit (EvRecord a)
  end.

(** The body of [take_action], inside its own [try]/[except].
    [EvModelCall] marks the call of [actor.act], which takes a screenshot
    and queries the model; [EvDispatch] marks the call of [device.use].
    The actor hands back the task it was given, so [task = step.task]
    changes nothing. *)
Definition take_action_body (w : Env) : M history (option Step * bool) :=
  try_except
    (refresh (refresh_answer w) ;;;
     t <- get_task ;;
     if (status_eqb (status t) CANCELING || status_eqb (status t) CANCELED)%bool
     then
       when (status_eqb (status t) CANCELING) (set_status CANCELED ;;; save) ;;;
       ret (None, true)
     else
       emit EvModelCall ;;;
       step <- lift (act w) ;;
       match step with
       | None => ret (None, false)
       | Some st =>
           match action st with
           | None => ret (None, false)
           | Some a =>
               if String.eqb (name a) "result" then
                 v <- lift (dict_get (parameters a) "value") ;;
                 post_value "I think the task is done, please review the result: " v ;;;
                 set_status FINISHED ;;;
                 save ;;;
                 do_record w a ;;;
                 ret (Some st, true)
               else if find_action w (name a) then
                 action_response <-
                   try_except
                     (emit (EvDispatch (name a) (parameters a)) ;;; lift (use w a))
                     (fun e =>
                        raise (ValueError ("Trouble using action: " ++ str_exn addr e))) ;;
                 when (negb (String.eqb action_response ""))
                   (post_message ("Result from taking action: " ++ action_response)) ;;;
                 do_record w a ;;;
                 ret (Some st, false)
               else raise (SystemError "action not found")
           end
       end)
    (fun e =>
       post_message ("Error taking action: " ++ str_exn addr e ++ " -- retrying...") ;;;
       raise e).

(** [take_action] under [@retry(stop=stop_after_attempt(5))]; [w k] holds
    the collaborators' answers during attempt [k]. *)
Definition take_action (w : nat -> Env) : M history (option Step * bool) :=
  retry 5 (fun k => take_action_body (w k)).

(** The [for i in range(max_steps)] loop of [solve_task], from step [i]
    with [n] steps left; [world i k] are the answers during attempt [k] of
    step [i]. *)
Fixpoint step_loop (world : nat -> nat -> Env) (n i : nat) : M history unit :=
  match n with
  | O =>
      set_status FAILED ;;;
      save ;;;
      post_message "Max steps reached without solving task"
  | S n' =>
      r <- try_except
             (r <- take_action (world i) ;; ret (Some r))
             (fun e =>
                set_status FAILED ;;;
                set_error (str_exn addr e) ;;;
                save ;;;
                post_message ("Error taking action: " ++ str_exn addr e) ;;;
                ret None) ;;
      match r with
      | None => ret tt
      | Some (step, done) =>
          match step with
          | Some st => h <- get_extra ;; put_extra (h ++ [st])%list
          | None => ret tt
          end ;;;
          if done then ret tt else step_loop world n' (S i)
      end
  end.

(** [solve_task(task, device, max_steps)] on a desktop device. *)
Definition solve_task (description : string) (world : nat -> nat -> Env)
    (max_steps : nat) : M history unit :=
  post_message ("Starting task '" ++ description ++ "'") ;;;
  post_message "I'll post debug messages here" ;;;
  put_extra [] ;;;
  step_loop world max_steps 0.

End WithFuture.

End CuaAgent.

(* ===================================================================== *)
(** ** Claude computer-use agent: [take_action] and [solve_task] *)
(* ===================================================================== *)

Module ClaudeAgent.
Import Py Session Claude.
Local Open Scope session_scope.

(** The parsed model response: its stop reason and [response_params]. *)
Record Response : Type := mkResponse {
  stop_reason : string;
  response_params : list block
}.

(** The answers of the collaborators during one attempt of one step.
    [create] stands for the API call followed by [raw_response.parse()] and
    [response_to_params]. *)
Record Env : Type := mkEnv {
  refresh_answer : res TaskStatus;
  create : list message -> res Response;
  find_action : string -> bool;
  use : string -> dict -> res string;
  take_screenshots : res string;
  record_action : V1Action -> option exn
}.

(** [response_params[0]["text"]] *)
Definition first_text (bs : list block) : res string :=
  match bs with
  | [] => throw (IndexError "list index out of range")
  | BText t :: _ => ok t
  | _ :: _ => throw (KeyError "text")
  end.

(** [self.action_mapping[input_args["action"]]]: a name that is not a
    string is not a key of the table, and a list or an object cannot be
    looked up at all. *)
Definition lookup_action (input_args : dict) : res (string * string) :=
  rbind (dict_get input_args "action") (fun a =>
  match a with
  | JStr s => rbind (map_action_name s) (fun n => ok (s, n))
  | JList _ => throw (TypeError "unhashable type: 'list'")
  | JDict _ => throw (TypeError "unhashable type: 'dict'")
  | JNull => throw (KeyErrorOf "None")
  | JBool b => throw (KeyErrorOf (if b then "True" else "False"))
  | JInt z => throw (KeyErrorOf (repr_int z))
  end).

(** [action_params]: the copy of [input_args], with [button] set for the
    right and middle click, and with [action] deleted. *)
Definition copied_params (dialect_name : string) (input_args : dict) : dict :=
  let p1 := if String.eqb dialect_name "right_click"
            then dict_set input_args "button" (JStr "right") else input_args in
  let p2 := if String.eqb dialect_name "middle_click"
            then dict_set p1 "button" (JStr "middle") else p1 in
  dict_del p2 "action".

(** Modelled from the spec: [make_api_tool_result] belongs to the package's
    [anthropic] module, which is not among the sources.  The specification
    has the tool result with the new screenshot appended to the history;
    called with an image and neither output nor error, the block therefore
    holds that one image. *)
Definition make_api_tool_result (base64_image tool_use_id : string) : block :=
  BToolResult tool_use_id (TRList [PImage base64_image]).

Section WithFuture.

Variable addr : string.

Definition do_record (w : Env) (a : V1Action) : M (list message) unit :=
  match record_action w a with
  | Some e => raise e
  | None => emit (EvRecord a)
  end.

Definition screenshot (w : Env) : M (list message) string :=
  emit EvScreenshot ;;; lift (take_screenshots w).

Definition append_message (m : message) : M (list message) unit :=
  ms <- get_extra ;; put_extra (ms ++ [m])%list.

(** One [tool_use] block: map the name, dispatch, take the screenshot,
    record.  Returns the tool result to append. *)
Definition handle_tool_use (w : Env) (thought id : string) (input_args : dict)
    : M (list message) block :=
  an <- lift (lookup_action input_args) ;;
  let dialect_name := fst an in
  let action_name := snd an in
  post_value ("Taking action '" ++ action_name ++ "' with parameters: ")
    (JDict input_args) ;;;
  let p3 := copied_params dialect_name input_args in
  if find_action w action_name then
    action_params <-
      try_except
        (if negb (String.eqb action_name "take_screenshots") then
           p <- lift (_get_mapped_action_params action_name p3) ;;
           emit (EvDispatch action_name p) ;;;
           action_response <- lift (use w action_name p) ;;
           when (negb (String.eqb action_response ""))
             (post_message ("Result from taking action: " ++ action_response)) ;;;
           ret p
         else ret p3)
        (fun e => raise (ValueError ("Trouble using action: " ++ str_exn addr e))) ;;
    img <- screenshot w ;;
    post_message "Current Image" ;;;
    do_record w (mkAction action_name action_params) ;;;
    ret (make_api_tool_result img id)
  else raise (SystemError "action not found").

(** The loop over the content blocks; [thought] and [tool_result_content]
    are the two accumulators. *)
Fixpoint handle_blocks (w : Env) (thought : string) (results : list block)
    (bs : list block) : M (list message) (list block) :=
  match bs with
  | [] => ret results
  | BText text :: bs' =>
      post_message text ;;;
      handle_blocks w (thought ++ text ++ Qwen.nl) results bs'
  | BToolUse id input :: bs' =>
      r <- handle_tool_use w thought id input ;;
      handle_blocks w thought (results ++ [r])%list bs'
  | _ :: bs' => handle_blocks w thought results bs'
  end.

(** The body of [take_action], inside its own [try]/[except].  The history
    is the state's [extra]: it is one list, updated in place, so what an
    attempt appended stays when the attempt raises. *)
Definition take_action_body (w : Env) : M (list message) bool :=
  try_except
    (refresh (refresh_answer w) ;;;
     t <- get_task ;;
     if (status_eqb (status t) CANCELING || status_eqb (status t) CANCELED)%bool
     then
       when (status_eqb (status t) CANCELING) (set_status CANCELED ;;; save) ;;;
       ret true
     else
       ms <- get_extra ;;
       ms' <- lift (_maybe_filter_to_n_most_recent_images ms 3 2) ;;
       put_extra ms' ;;;
       emit EvModelCall ;;;
       response <- lift (create w ms') ;;
       append_message (mkMessage "assistant" (MList (response_params response))) ;;;
       if String.eqb (stop_reason response) "end_turn" then
         text <- lift (first_text (response_params response)) ;;
         post_message ("I think the task is done, please review the result: " ++ text) ;;;
         set_status FINISHED ;;;
         save ;;;
         _ <- screenshot w ;;
         do_record w (mkAction "result" [("value", JStr text)]) ;;;
         ret true
       else
         results <- handle_blocks w "" [] (response_params response) ;;
         match results with
         | [] => ret true
         | _ :: _ =>
             append_message (mkMessage "user" (MList results)) ;;;
             ret false
         end)
    (fun e =>
       post_message ("Error taking action: " ++ str_exn addr e ++ " -- retrying...") ;;;
       raise e).

(** [take_action] under [@retry(stop=stop_after_attempt(5))]. *)
Definition take_action (w : nat -> Env) : M (list message) bool :=
  retry 5 (fun k => take_action_body (w k)).

(** The [for i in range(max_steps)] loop of [solve_task]. *)
Fixpoint step_loop (world : nat -> nat -> Env) (n i : nat) : M (list message) unit :=
  match n with
  | O =>
      set_status FAILED ;;;
      save ;;;
      post_message "Max steps reached without solving task"
  | S n' =>
      r <- try_except
             (done <- take_action (world i) ;; ret (Some done))
             (fun e =>
                set_status FAILED ;;;
                set_error (str_exn addr e) ;;;
                save ;;;
                post_message ("Error taking action: " ++ str_exn addr e) ;;;
                ret None) ;;
      match r with
      | None => ret tt
      | Some done => if done then ret tt else step_loop world n' (S i)
      end
  end.

(** [solve_task(task, device, max_steps)] on a desktop device. *)
Definition solve_task (description : string) (world : nat -> nat -> Env)
    (max_steps : nat) : M (list message) unit :=
  post_message ("Starting task '" ++ description ++ "'") ;;;
  post_message "I'll post debug messages here" ;;;
  put_extra [mkMessage "user" (MList [BText description])] ;;;
  step_loop world max_steps 0.

End WithFuture.

End ClaudeAgent.

(* ===================================================================== *)
(** ** Qwen actor: parsing the reply and selecting the action *)
(* ===================================================================== *)

Module QwenActor.
Import Py.

(** [_select_action(actions)]: [actions[0]]. *)
Definition _select_action (actions : list V1Action) : res V1Action :=
  match actions with
  | [] => throw (IndexError "list index out of range")
  | a :: _ => ok a
  end.

Section WithJsonRepair.

Variable loads : string -> json.

(** [_parse_response(response)] on the content of the completion. *)
Definition _parse_response (content : string) : res (string * list V1Action) :=
  Qwen.parse_action loads content.

(** The [try] block of [act]: parse the reply, then select; whatever it
    raises leaves [act]. *)
Definition parse_and_select (content : string) : res (string * V1Action) :=
  rbind (_parse_response content) (fun r =>
  rbind (_select_action (snd r)) (fun selection => ok (fst r, selection))).

End WithJsonRepair.

End QwenActor.

(* ===================================================================== *)
(** ** CUA actor: the item list, [handle_item] and [act] *)
(* ===================================================================== *)

(** [agents/cua/cua/actor/oai.py].  The items the actor keeps, the reply of
    the model and every value read out of them are decoded JSON; an
    operation a value does not support raises as it does in Python. *)
Module CuaActor.
Import Py Session.
Local Open Scope session_scope.

(** [bool(v)] *)
Definition truthy (v : json) : bool :=
  match v with
  | JNull => false
  | JBool b => b
  | JInt z => negb (z =? 0)
  | JStr s => negb (String.eqb s "")
  | JList l => match l with [] => false | _ :: _ => true end
  | JDict d => match d with [] => false | _ :: _ => true end
  end.

(** [len(v)] *)
Definition len (v : json) : res nat :=
  match v with
  | JStr s => ok (String.length s)
  | JList l => ok (List.length l)
  | JDict d => ok (List.length d)
  | _ => throw (TypeError ("object of type '" ++ type_name v ++ "' has no len()"))
  end.

(** [v == s] for a string literal [s] *)
Definition is_str (v : json) (s : string) : bool :=
  match v with JStr t => String.eqb t s | _ => false end.

(** [k in v] for a string literal [k]: a key of an object, an item of a
    list, a substring of a string. *)
Definition contains (v : json) (k : string) : res bool :=
  match v with
  | JDict d => ok (dict_has d k)
  | JList l => ok (existsb (fun x => is_str x k) l)
  | JStr s => ok (match find_first k s with Some _ => true | None => false end)
  | _ => throw (TypeError ("argument of type '" ++ type_name v
                           ++ "' is not iterable"))
  end.

(** [parse_action(action_type, action_args)] of [action_parser.py] on
    arguments of any decoded type: [Cua.parse_action] with every subscript
    and membership test taken on the value as it is. *)
Definition parse_action_on (action_type : string) (action_args : json)
    : res (option V1Action) :=
  if String.eqb action_type "click" then
    rbind (subscript_key action_args "x") (fun x =>
    rbind (subscript_key action_args "y") (fun y =>
    rbind (contains action_args "button") (fun has =>
    rbind (if has then subscript_key action_args "button"
           else ok (JStr "left")) (fun b =>
    ok (Some (mkAction "click" [("x", x); ("y", y); ("button", b)]))))))
  else if String.eqb action_type "double_click" then
    rbind (subscript_key action_args "x") (fun x =>
    rbind (subscript_key action_args "y") (fun y =>
    ok (Some (mkAction "double_click" [("x", x); ("y", y)]))))
  else if String.eqb action_type "scroll" then
    rbind (subscript_key action_args "scroll_y") (fun sy =>
    rbind (floordiv sy 10) (fun q =>
    ok (Some (mkAction "scroll" [("clicks", JInt (q * (-1)))]))))
  else if String.eqb action_type "type" then
    rbind (subscript_key action_args "text") (fun t =>
    ok (Some (mkAction "type_text" [("text", t)])))
  else if String.eqb action_type "move" then
    rbind (subscript_key action_args "x") (fun x =>
    rbind (subscript_key action_args "y") (fun y =>
    ok (Some (mkAction "move_mouse" [("x", x); ("y", y)]))))
  else if String.eqb action_type "keypress" then
    rbind (subscript_key action_args "keys") (fun ks =>
    rbind (Cua.iterate ks) (fun l =>
    rbind (Cua.map_keys l) (fun keys =>
    ok (Some (mkAction "hot_key" [("keys", JList keys)])))))
  else if String.eqb action_type "drag" then
    rbind (subscript_key action_args "path") (fun path =>
    rbind (subscript_idx path 0) (fun first =>
    rbind (if Cua.longer_than_one path then subscript_idx path 1 else ok first)
      (fun coords =>
    rbind (subscript_key coords "x") (fun x =>
    rbind (subscript_key coords "y") (fun y =>
    ok (Some (mkAction "drag_mouse" [("x", x); ("y", y)])))))))
  else if String.eqb action_type "wait" then
    rbind (contains action_args "ms") (fun has =>
    rbind (if has
           then rbind (subscript_key action_args "ms") (fun ms =>
                rbind (floordiv ms 1000) (fun q => ok (JInt q)))
           else ok (JInt 1)) (fun s =>
    ok (Some (mkAction "wait" [("seconds", s)]))))
  else ok None.

(** The same call with an action type of any decoded type: a value that is
    not a string equals none of the literals. *)
Definition parse_action (action_type action_args : json) : res (option V1Action) :=
  match action_type with
  | JStr t => parse_action_on t action_args
  | _ => ok None
  end.

(** The fields of [OaiActor] that change; [None] is [JNull]. *)
Record Actor : Type := mkActor {
  items : list json;
  last_call_id : json;
  last_action_type : option string;
  last_reasoning : json
}.

(** [OaiActor()] *)
Definition new : Actor := mkActor [] JNull None JNull.

Definition keep_images : Z := 5.

(** [actor.base.Step] as [handle_item] fills it; [state] is the screenshot. *)
Record Step : Type := mkStep {
  state : string;
  action : option V1Action;
  thought : json;
  raw_response : json;
  in_tokens : json;
  out_tokens : json
}.

(** The answers of the collaborators during one call of [act]:
    the screenshot of the device, the decoded reply of [create_response]
    to the items sent (the function is in [actor/utils.py], which is not
    among the sources) and [json.loads]. *)
Record Env : Type := mkEnv {
  take_screenshots : res string;
  create_response : list json -> res json;
  loads : string -> res json
}.

Definition set_items (l : list json) : M Actor unit :=
  a <- get_extra ;;
  put_extra (mkActor l (last_call_id a) (last_action_type a) (last_reasoning a)).

(** [self.items.append(..)] and [self.items += ..] *)
Definition append_items (l : list json) : M Actor unit :=
  a <- get_extra ;; set_items (items a ++ l)%list.

Definition set_last_call_id (v : json) : M Actor unit :=
  a <- get_extra ;;
  put_extra (mkActor (items a) v (last_action_type a) (last_reasoning a)).

Definition set_last_action_type (t : option string) : M Actor unit :=
  a <- get_extra ;;
  put_extra (mkActor (items a) (last_call_id a) t (last_reasoning a)).

Definition set_last_reasoning (v : json) : M Actor unit :=
  a <- get_extra ;;
  put_extra (mkActor (items a) (last_call_id a) (last_action_type a) v).

(** [device.take_screenshots(count=1)] and the reading of its first image. *)
Definition screenshot (w : Env) : M Actor string :=
  emit EvScreenshot ;;; lift (take_screenshots w).

(** The system message [act] starts the items with. *)
Definition system_prompt : string :=
  "You are a helpful assistant capable of navigating complex GUIs. " ++ Qwen.nl
  ++ Qwen.nl
  ++ "REMEMBER: " ++ Qwen.nl
  ++ "1. You can use mouse and keyboard to complete tasks on the computer."
  ++ Qwen.nl
  ++ "2. If you don't see the screen, make a screenshot before taking any action."
  ++ Qwen.nl
  ++ "3. You have to act autonomously; never ask user any questions; use your best judgement to figure out what to do next."
  ++ Qwen.nl
  ++ "4. Never send any messages to the user unless it's a final result of the task."
  ++ Qwen.nl
  ++ "5. When you return the next action, you should also return your reasoning for choosing this action."
  ++ Qwen.nl.

Section WithPixel.

(** The one-pixel image that replaces an old screenshot. *)
Variable BASE64_ONE_PIXEL : string.

(** ["type" in item and item["type"] == "computer_call_output"] *)
Definition is_call_output (item : json) : res bool :=
  rbind (contains item "type") (fun has =>
  if has then
    rbind (subscript_key item "type") (fun t =>
    ok (is_str t "computer_call_output"))
  else ok false).

(** [item["output"]["image_url"] = BASE64_ONE_PIXEL]: the item as the
    assignment leaves it. *)
Definition blank (item : json) : res json :=
  rbind (subscript_key item "output") (fun output =>
  match output, item with
  | JDict o, JDict d =>
      ok (JDict (dict_set d "output"
                   (JDict (dict_set o "image_url" (JStr BASE64_ONE_PIXEL)))))
  | JList _, _ => throw (TypeError "list indices must be integers or slices, not str")
  | _, _ => throw (TypeError (object_is output "does not support item assignment"))
  end).

(** The loop of [clean_up_old_screenshots].  It runs from the last item to
    the first: the items after [item] are done first, with the counter [n]
    they leave.  The result is the items as the loop leaves them, the
    counter, and the exception that stopped the loop, if any. *)
Fixpoint clean_up (items : list json) (n : Z) : list json * Z * option exn :=
  match items with
  | [] => ([], n, None)
  | item :: later =>
      match clean_up later n with
      | (later', n', Some e) => (item :: later', n', Some e)
      | (later', n', None) =>
          match is_call_output item with
          | inl e => (item :: later', n', Some e)
          | inr false => (item :: later', n', None)
          | inr true =>
              if n' - 1 <? 0 then
                match blank item with
                | inl e => (item :: later', n' - 1, Some e)
                | inr item' => (item' :: later', n' - 1, None)
                end
              else (item :: later', n' - 1, None)
          end
      end
  end.

Definition clean_up_old_screenshots : M Actor unit :=
  a <- get_extra ;;
  match clean_up (items a) keep_images with
  | (items', _, stopped) =>
      set_items items' ;;;
      match stopped with
      | Some e => raise e
      | None => ret tt
      end
  end.

(** [f"{self.last_action_type}"] *)
Definition str_of_action_type (t : option string) : string :=
  match t with Some s => s | None => "None" end.

Definition action_type_is (t : option string) (s : string) : bool :=
  match t with Some x => String.eqb x s | None => false end.

Definition record_result_of_previous_action (w : Env) : M Actor unit :=
  shot <- screenshot w ;;
  a <- get_extra ;;
  (if action_type_is (last_action_type a) "computer_call" then
     append_items
       [JDict [("type", JStr "computer_call_output");
               ("call_id", last_call_id a);
               ("output", JDict [("type", JStr "input_image");
                                 ("image_url", JStr shot)])]]
   else if action_type_is (last_action_type a) "function_call" then
     append_items
       [JDict [("type", JStr "function_call_output");
               ("call_id", last_call_id a);
               ("output", JStr "success")]]
   else
     raise (ValueError ("Unknown action type: "
                        ++ str_of_action_type (last_action_type a)))) ;;;
  set_last_action_type None ;;;
  set_last_call_id JNull.

(** [json.loads(v)] *)
Definition json_loads (w : Env) (v : json) : res json :=
  match v with
  | JStr s => loads w s
  | _ => throw (TypeError ("the JSON object must be str, bytes or bytearray, not "
                           ++ type_name v))
  end.

(** [{k: v for k, v in action.items() if k != "type"}] *)
Definition without_type (action : json) : res json :=
  match action with
  | JDict d => ok (JDict (dict_del d "type"))
  | _ => throw (AttributeError (no_attribute action "items"))
  end.

(** The [thought] of a step: the text of the first entry of the last
    reasoning summary, or the empty string. *)
Definition thought_of (last_reasoning : json) : res json :=
  if truthy last_reasoning then
    rbind (len last_reasoning) (fun n =>
    if Nat.ltb 0 n then
      rbind (subscript_idx last_reasoning 0) (fun first =>
      rbind (contains first "text") (fun has =>
      if has then subscript_key first "text" else ok (JStr "")))
    else ok (JStr ""))
  else ok (JStr "").

Definition handle_item (w : Env) (item full_response : json)
    : M Actor (option Step) :=
  shot <- screenshot w ;;
  type <- lift (subscript_key item "type") ;;
  action0 <-
    (if is_str type "message" then
       text <- lift (rbind (subscript_key item "content") (fun c =>
                     rbind (subscript_idx c 0) (fun c0 =>
                     subscript_key c0 "text"))) ;;
       ret (Some (mkAction "result" [("value", text)]))
     else ret None) ;;
  if is_str type "reasoning" then
    summary <- lift (subscript_key item "summary") ;;
    set_last_reasoning summary ;;;
    ret None
  else
    action1 <-
      (if is_str type "function_call" then
         action_type <- lift (subscript_key item "name") ;;
         arguments <- lift (subscript_key item "arguments") ;;
         action_args <- lift (json_loads w arguments) ;;
         set_last_action_type (Some "function_call") ;;;
         call_id <- lift (subscript_key item "call_id") ;;
         set_last_call_id call_id ;;;
         lift (parse_action action_type action_args)
       else ret action0) ;;
    action2 <-
      (if is_str type "computer_call" then
         action <- lift (subscript_key item "action") ;;
         action_type <- lift (subscript_key action "type") ;;
         action_args <- lift (without_type action) ;;
         set_last_action_type (Some "computer_call") ;;;
         call_id <- lift (subscript_key item "call_id") ;;
         set_last_call_id call_id ;;;
         lift (parse_action action_type action_args)
       else ret action1) ;;
    a <- get_extra ;;
    thought <- lift (thought_of (last_reasoning a)) ;;
    usage <- lift (subscript_key full_response "usage") ;;
    in_tokens <- lift (subscript_key usage "input_tokens") ;;
    usage' <- lift (subscript_key full_response "usage") ;;
    out_tokens <- lift (subscript_key usage' "output_tokens") ;;
    set_last_reasoning JNull ;;;
    ret (Some (mkStep shot action2 thought item in_tokens out_tokens)).

(** [for item in response["output"]]: the first step that comes out ends
    the loop. *)
Fixpoint handle_items (w : Env) (output : list json) (response : json)
    : M Actor (option Step) :=
  match output with
  | [] => ret None
  | item :: output' =>
      step <- handle_item w item response ;;
      match step with
      | Some st => ret (Some st)
      | None => handle_items w output' response
      end
  end.

(** The part of [act] before the request: the first messages, the result
    of the previous action, the clean-up. *)
Definition prepare (w : Env) (description : json) : M Actor unit :=
  a <- get_extra ;;
  when (Nat.eqb (List.length (items a)) 0)
    (append_items [JDict [("role", JStr "system");
                          ("content", JStr system_prompt)]] ;;;
     append_items [JDict [("role", JStr "user"); ("content", description)]]) ;;;
  a <- get_extra ;;
  when (truthy (last_call_id a)) (record_result_of_previous_action w) ;;;
  clean_up_old_screenshots.

(** The request and the handling of its reply. *)
Definition request (w : Env) : M Actor (option Step) :=
  a <- get_extra ;;
  emit EvModelCall ;;;
  response <- lift (create_response w (items a)) ;;
  has <- lift (contains response "output") ;;
  if negb has then raise (ValueError "No output from model")
  else
    output <- lift (rbind (subscript_key response "output") Cua.iterate) ;;
    append_items output ;;;
    handle_items w output response.

(** [act(task, device, history)]; [description] is [task.description]. *)
Definition act (w : Env) (description : json) : M Actor (option Step) :=
  prepare w description ;;; request w.

End WithPixel.

End CuaActor.

(* ===================================================================== *)
(** ** Concrete histories, payloads and worlds used below *)
(* ===================================================================== *)

Module Fixtures.
Import Py Session.

(** The history of a task's first step: the description and no image. *)
Definition first_history : list Claude.message :=
  [Claude.mkMessage "user" (Claude.MList [Claude.BText "open the browser"])].

(** A tool result holding one screenshot, and a history of ten of them. *)
Definition shot (i : string) : Claude.message :=
  Claude.mkMessage "user"
    (Claude.MList [Claude.BToolResult i (Claude.TRList [Claude.PImage i])]).

Definition ten_shots : list Claude.message :=
  map shot ["0"; "1"; "2"; "3"; "4"; "5"; "6"; "7"; "8"; "9"].

(** Tool calls as [json_repair] decodes them. *)
Definition tool_call (arguments : dict) : json :=
  JDict [("name", JStr "computer_use"); ("arguments", JDict arguments)].

Definition teleport_call : json := tool_call [("action", JStr "teleport")].

Definition bare_left_click : json := tool_call [("action", JStr "left_click")].

Definition scroll_call (pixels : Z) : json :=
  tool_call [("action", JStr "scroll"); ("pixels", JInt pixels)].

(** A local task in progress at the start of a run, with an empty trace. *)
Definition start {X} (x : X) : State X :=
  mkState (mkTask false IN_PROGRESS None) [] x.

(** The same task after a cancellation was requested. *)
Definition cancel_requested {X} (x : X) : State X :=
  mkState (mkTask false CANCELING None) [] x.

Definition future_addr : string := "7f3a5c0d2e80".

Definition click : V1Action :=
  mkAction "click" [("x", JInt 24); ("y", JInt 150); ("button", JStr "left")].

Definition click_step : CuaAgent.Step :=
  CuaAgent.mkStep (Some click) "" "computer_call".

Definition api_down : exn := External "APIError" "boom".
Definition unreachable : exn := External "ConnectionError" "task server unreachable".

(** A desktop that has every action and runs it without output, with the
    given answers of the actor and of [record_action]. *)
Definition cua_env (act : res (option CuaAgent.Step)) (record : option exn)
    : CuaAgent.Env :=
  CuaAgent.mkEnv (ok IN_PROGRESS) act (fun _ => true) (fun _ => ok "")
    (fun _ => record).

(** The model asks for the same click on every attempt; the task server
    refuses [record_action] during the first four attempts. *)
Definition flaky_record (k : nat) : CuaAgent.Env :=
  cua_env (ok (Some click_step)) (if Nat.ltb k 5 then Some unreachable else None).

(** The model call fails during the first four attempts. *)
Definition flaky_model (k : nat) : CuaAgent.Env :=
  cua_env (if Nat.ltb k 5 then throw api_down else ok (Some click_step)) None.

(** The model call fails on every attempt of every step. *)
Definition model_down (i k : nat) : CuaAgent.Env := cua_env (throw api_down) None.

(** A Claude world that answers every call with the same response. *)
Definition claude_env (r : ClaudeAgent.Response) : ClaudeAgent.Env :=
  ClaudeAgent.mkEnv (ok IN_PROGRESS) (fun _ => ok r) (fun _ => true)
    (fun _ _ => ok "") (ok "iVBORw0KGgo=") (fun _ => None).

(** A response cut off by the token limit, with text only. *)
Definition text_only : ClaudeAgent.Response :=
  ClaudeAgent.mkResponse "max_tokens"
    [Claude.BText "I will look at the screen first."].

(** A response that asks for a double click at the cursor. *)
Definition double_click_response : ClaudeAgent.Response :=
  ClaudeAgent.mkResponse "tool_use"
    [Claude.BToolUse "toolu_02" [("action", JStr "double_click")];
     Claude.BText "Opening the folder."].

(** The API call fails during the first four attempts. *)
Definition flaky_api (k : nat) : ClaudeAgent.Env :=
  ClaudeAgent.mkEnv (ok IN_PROGRESS)
    (fun _ => if Nat.ltb k 5 then throw api_down else ok double_click_response)
    (fun _ => true) (fun _ _ => ok "") (ok "iVBORw0KGgo=") (fun _ => None).

(** A response that asks for an action the table does not have. *)
Definition teleport_response : ClaudeAgent.Response :=
  ClaudeAgent.mkResponse "tool_use"
    [Claude.BToolUse "toolu_01" [("action", JStr "teleport")]].

(** The same request after a sentence of text, as the model usually
    answers. *)
Definition teleport_after_text : ClaudeAgent.Response :=
  ClaudeAgent.mkResponse "tool_use"
    [Claude.BText "I will jump to the settings page.";
     Claude.BToolUse "toolu_01" [("action", JStr "teleport")]].

End Fixtures.

(** Predicates the statements below are phrased with. *)
Module Predicates.
Import Py.

(** An upper-case ASCII letter. *)
Definition is_upper (c : ascii) : bool :=
  let n := nat_of_ascii c in (Nat.leb 65 n && Nat.leb n 90)%bool.

(** A key name without upper-case letters and without underscores. *)
Definition lower_no_underscore (s : string) : bool :=
  forallb (fun c => (negb (is_upper c) && negb (Ascii.eqb c "_"%char))%bool)
          (list_ascii_of_string s).

(** [p in s] *)
Definition occurs (p s : string) : Prop :=
  exists before rest, s = before ++ p ++ rest.

(** [coordinate] is a list of at least two items. *)
Definition has_pair (args : dict) : bool :=
  match dict_find args "coordinate" with
  | Some (JList (_ :: _ :: _)) => true
  | _ => false
  end.

Definition optional_pair (args : dict) : bool :=
  (negb (dict_has args "coordinate") || has_pair args)%bool.

(** A qwen payload that carries what the branch of its action reads
    ([thought] is the text before the first tool call, if any). *)
Definition carries (thought : option string) (action_name : string)
    (args : dict) : bool :=
  if String.eqb action_name "key" then dict_has args "keys"
  else if String.eqb action_name "type" then dict_has args "text"
  else if String.eqb action_name "mouse_move" then has_pair args
  else if String.eqb action_name "left_click" then optional_pair args
  else if String.eqb action_name "left_click_drag" then optional_pair args
  else if String.eqb action_name "right_click" then optional_pair args
  else if String.eqb action_name "middle_click" then optional_pair args
  else if String.eqb action_name "double_click" then optional_pair args
  else if String.eqb action_name "scroll" then
    match dict_find args "pixels" with Some (JInt _) => true | _ => false end
  else if String.eqb action_name "wait" then dict_has args "time"
  else if String.eqb action_name "terminate" then
    match dict_find args "status", thought with
    | Some (JStr _), Some _ => true
    | _, _ => false
    end
  else false.

(** The calls of a trace to the model, to the device and to
    [record_action]. *)
Definition model_calls (l : list Session.event) : list Session.event :=
  filter Session.is_model_call l.
Definition dispatches (l : list Session.event) : list Session.event :=
  filter Session.is_dispatch l.
Definition records (l : list Session.event) : list Session.event :=
  filter Session.is_record l.

(** What polling the status adds to the trace. *)
Definition poll_events (t : Session.Task) : list Session.event :=
  if Session.remote t then [Session.EvRefresh] else [].

(** The state after the poll read the status [st]. *)
Definition after_poll {X} (s : Session.State X) (st : Session.TaskStatus)
    : Session.State X :=
  Session.mkState
    (Session.mkTask (Session.remote (Session.task s)) st
       (Session.error (Session.task s)))
    (Session.log s ++ poll_events (Session.task s))
    (Session.extra s).

(** The history after the trimming of a Claude step,
    [_maybe_filter_to_n_most_recent_images(messages, 3, 2)]. *)
Definition trimmed (ms : list Claude.message) : list Claude.message :=
  fst (Claude.trim_messages
         (Claude.images_to_remove (Claude.total_images ms) 3 2) ms).

(** The assistant turn a Claude step appends for a response. *)
Definition assistant_turn (bs : list Claude.block) : Claude.message :=
  Claude.mkMessage "assistant" (Claude.MList bs).

(** The state after a step that found the task [CANCELING]. *)
Definition canceled_now {X} (s : Session.State X) : Session.State X :=
  Session.mkState
    (Session.mkTask (Session.remote (Session.task s)) Session.CANCELED
       (Session.error (Session.task s)))
    (Session.log s ++ poll_events (Session.task s)
       ++ [Session.EvSave Session.CANCELED])
    (Session.extra s).

(** Between [s] and [s'] the model was not called, the device was not
    used and nothing was recorded. *)
Definition quiet {X} (s s' : Session.State X) : Prop :=
  model_calls (Session.log s') = model_calls (Session.log s)
  /\ dispatches (Session.log s') = dispatches (Session.log s)
  /\ records (Session.log s') = records (Session.log s).

(** The state after a step whose poll read [st] and whose model call
    returned. *)
Definition after_model_call {X} (s : Session.State X) (st : Session.TaskStatus)
    : Session.State X :=
  Session.mkState (Session.task (after_poll s st))
    (Session.log (after_poll s st) ++ [Session.EvModelCall])
    (Session.extra s).

(** The state after a [solve_task] that caught [e] from a step that left
    the state [s]. *)
Definition failed_with {X} (addr : string) (e : Py.exn) (s : Session.State X)
    : Session.State X :=
  Session.mkState
    (Session.mkTask (Session.remote (Session.task s)) Session.FAILED
       (Some (Py.str_exn addr e)))
    (Session.log s
       ++ [Session.EvSave Session.FAILED;
           Session.EvPost ("Error taking action: " ++ Py.str_exn addr e)])
    (Session.extra s).

Definition is_tool_use (b : Claude.block) : bool :=
  match b with Claude.BToolUse _ _ => true | _ => false end.

(** Every call of the world [w] to the model returns a response whose first
    [tool_use] block asks for the action [n]: the blocks [pre] before it
    are texts or other blocks that are not tool uses. *)
Definition asks_for (w : ClaudeAgent.Env) (n : string) : Prop :=
  ClaudeAgent.refresh_answer w = Py.ok Session.IN_PROGRESS
  /\ exists response pre id input rest,
       (forall ms, ClaudeAgent.create w ms = Py.ok response)
       /\ ClaudeAgent.stop_reason response <> "end_turn"
       /\ ClaudeAgent.response_params response
          = (pre ++ Claude.BToolUse id input :: rest)%list
       /\ forallb (fun b => negb (is_tool_use b)) pre = true
       /\ Py.dict_find input "action" = Some (Py.JStr n).

(** The messages a run posts for the text blocks of a response. *)
Definition text_posts (bs : list Claude.block) : list Session.event :=
  flat_map (fun b => match b with
                     | Claude.BText t => [Session.EvPost t]
                     | _ => []
                     end) bs.

End Predicates.

(** Counting and membership of a character, for the statements on key
    strings. *)
Module Chars.

Fixpoint count_char (c : ascii) (s : string) : nat :=
  match s with
  | EmptyString => O
  | String a s' => (if Ascii.eqb a c then 1 else 0) + count_char c s'
  end.

Definition has_char (c : ascii) (s : string) : bool :=
  existsb (Ascii.eqb c) (list_ascii_of_string s).

(** No upper-case ASCII letter. *)
Definition no_upper (s : string) : bool :=
  forallb (fun c => negb (Predicates.is_upper c)) (list_ascii_of_string s).

(** ASCII characters only.  On such strings [Py.lower] and [Py.strip] are
    Python's [str.lower] and [str.strip]; on other strings Python also
    lower-cases and strips characters the two functions leave alone. *)
Definition ascii_only (s : string) : bool :=
  forallb (fun c => Nat.ltb (nat_of_ascii c) 128) (list_ascii_of_string s).

(** White space only. *)
Definition blank (s : string) : bool :=
  forallb Py.is_space (list_ascii_of_string s).

(** No white space at the start, and none at the end. *)
Definition starts_tight (s : string) : bool :=
  match s with
  | EmptyString => true
  | String c _ => negb (Py.is_space c)
  end.

Fixpoint ends_tight (s : string) : bool :=
  match s with
  | EmptyString => true
  | String c s' =>
      match s' with
      | EmptyString => negb (Py.is_space c)
      | String _ _ => ends_tight s'
      end
  end.

(** [sep.join(l)] *)
Fixpoint join (sep : string) (l : list string) : string :=
  match l with
  | [] => EmptyString
  | x :: l' =>
      match l' with
      | [] => x
      | _ :: _ => x ++ sep ++ join sep l'
      end
  end.

(** One piece of a key string as a user writes it: a key name [core] with
    white space around it. *)
Record piece : Type := mkPiece {
  left_pad : string;
  core : string;
  right_pad : string
}.

Definition whole (p : piece) : string := left_pad p ++ core p ++ right_pad p.

(** The padding is white space, the name is ASCII, has no [+], and neither
    starts nor ends with white space. *)
Definition padded (p : piece) : bool :=
  (blank (left_pad p) && blank (right_pad p)
   && starts_tight (core p) && ends_tight (core p)
   && negb (has_char "+" (core p)) && ascii_only (core p))%bool.

End Chars.

(** The key each CUA action type reads first, and the key each qwen action
    reads without a test for its presence. *)
Module Required.

Definition cua_first_key : list (string * string) :=
  [("click", "x"); ("double_click", "x"); ("scroll", "scroll_y");
   ("type", "text"); ("move", "x"); ("keypress", "keys"); ("drag", "path")].

Definition qwen_key : list (string * string) :=
  [("key", "keys"); ("type", "text"); ("mouse_move", "coordinate");
   ("scroll", "pixels"); ("wait", "time"); ("terminate", "status")].

(** The parameters a canonical action made from the qwen payload [args]
    comes with, name by name: [keys], [text] and [seconds] are the fields
    of the payload; [move_mouse] has [x] and [y]; [click] and
    [double_click] have [button]; [click], [double_click] and
    [drag_mouse] have [x] and [y] exactly when the payload has a
    [coordinate]; [scroll] has an integer [clicks]; [result] has a string
    [value]. *)
Definition present (a : V1Action) (args : Py.dict) : Prop :=
  let p := parameters a in
  (name a = "hot_key" ->
   Py.dict_has p "keys" = true
   /\ Py.dict_find p "keys" = Py.dict_find args "keys")
  /\ (name a = "type_text" ->
      Py.dict_has p "text" = true
      /\ Py.dict_find p "text" = Py.dict_find args "text")
  /\ (name a = "move_mouse" ->
      Py.dict_has p "x" = true /\ Py.dict_has p "y" = true)
  /\ (name a = "click" \/ name a = "double_click" ->
      Py.dict_has p "button" = true)
  /\ (name a = "click" \/ name a = "double_click" \/ name a = "drag_mouse" ->
      Py.dict_has p "x" = Py.dict_has args "coordinate"
      /\ Py.dict_has p "y" = Py.dict_has args "coordinate")
  /\ (name a = "scroll" -> exists q, Py.dict_find p "clicks" = Some (Py.JInt q))
  /\ (name a = "wait" ->
      Py.dict_has p "seconds" = true
      /\ Py.dict_find p "seconds" = Py.dict_find args "time")
  /\ (name a = "result" ->
      exists v, Py.dict_find p "value" = Some (Py.JStr v)).

End Required.

(** Statements on which exceptions a computation can raise. *)
Module Raises.

Definition is_unbound (e : Py.exn) : bool :=
  match e with Py.UnboundLocalError _ => true | _ => false end.

(** [r] does not fail with [UnboundLocalError]. *)
Definition never_unbound {A} (r : Py.res A) : Prop :=
  forall e, r = inl e -> is_unbound e = false.

(** The line feed. *)
Definition lf : ascii := ascii_of_nat 10.

End Raises.

(** The saves and the screenshots of a trace. *)
Module Effects.

Definition is_save (e : Session.event) : bool :=
  match e with Session.EvSave _ => true | _ => false end.

Definition is_screenshot (e : Session.event) : bool :=
  match e with Session.EvScreenshot => true | _ => false end.

Definition saves (l : list Session.event) : list Session.event :=
  filter is_save l.

Definition screenshots (l : list Session.event) : list Session.event :=
  filter is_screenshot l.

End Effects.

(** Relations between the state before and the state after a computation. *)
Module Invariants.
Import Session.



(** A world in which the actor finds no action: the poll reads a task in
    progress and [actor.act] returns no step, or a step without action. *)
Definition finds_nothing (w : CuaAgent.Env) : Prop :=
  CuaAgent.refresh_answer w = Py.ok IN_PROGRESS
  /\ (CuaAgent.act w = Py.ok None
      \/ exists step, CuaAgent.act w = Py.ok (Some step)
                      /\ CuaAgent.action step = None).

End Invariants.

(** Shapes of the items the CUA actor keeps, and what its clean-up makes
    of an item. *)
Module ActorShapes.
Import Py CuaActor.

(** A JSON object. *)
Definition object (v : json) : bool :=
  match v with JDict _ => true | _ => false end.

(** An object whose [type] is [computer_call_output]. *)
Definition call_output (item : json) : bool :=
  match item with
  | JDict d =>
      match dict_find d "type" with
      | Some t => is_str t "computer_call_output"
      | None => false
      end
  | _ => false
  end.

(** An object whose [output] is an object, as the outputs the actor appends
    are. *)
Definition image_object (item : json) : bool :=
  match item with
  | JDict d =>
      match dict_find d "output" with Some (JDict _) => true | _ => false end
  | _ => false
  end.

Definition sound_output (item : json) : bool :=
  implb (call_output item) (image_object item).

(** The number of call outputs among the items. *)
Definition outputs (l : list json) : nat := List.length (filter call_output l).

(** A call output with its image replaced; any other item as it is. *)
Definition blanked (pixel : string) (item : json) : json :=
  match item with
  | JDict d =>
      match dict_find d "output" with
      | Some (JDict o) =>
          if call_output item
          then JDict (dict_set d "output"
                        (JDict (dict_set o "image_url" (JStr pixel))))
          else item
      | _ => item
      end
  | _ => item
  end.

(** The actor with other items. *)
Definition with_items (a : Actor) (l : list json) : Actor :=
  mkActor l (last_call_id a) (last_action_type a) (last_reasoning a).

(** A pending call has a known kind: when [last_call_id] is set,
    [last_action_type] is one of the two kinds
    [record_result_of_previous_action] answers. *)
Definition armed (a : Actor) : Prop :=
  truthy (last_call_id a) = true ->
  last_action_type a = Some "computer_call"
  \/ last_action_type a = Some "function_call".

(** Every run of [m] from an armed actor leaves an armed actor, whether it
    returns or raises. *)
Definition stays_armed {A} (m : Session.M Actor A) : Prop :=
  forall s r s',
    m s = (r, s') -> armed (Session.extra s) -> armed (Session.extra s').

(** A [reasoning] item with a summary. *)
Definition reasoning (item : json) : bool :=
  match item with
  | JDict d =>
      match dict_find d "type", dict_find d "summary" with
      | Some t, Some _ => is_str t "reasoning"
      | _, _ => false
      end
  | _ => false
  end.

Definition summary_of (item : json) : json :=
  match item with
  | JDict d => match dict_find d "summary" with Some v => v | None => JNull end
  | _ => JNull
  end.

(** The output the actor appends for a computer call. *)
Definition screenshot_output (call_id : json) (shot : string) : json :=
  JDict [("type", JStr "computer_call_output");
         ("call_id", call_id);
         ("output", JDict [("type", JStr "input_image");
                           ("image_url", JStr shot)])].

End ActorShapes.

(** Items, replies and a desktop for the CUA actor. *)
Module ActorFixtures.
Import Py Session CuaActor ActorShapes.

Definition pixel : string := "iVBORw0KGgoAAAANSUhEUg==".

Definition shot_output (i : string) : json := screenshot_output (JStr i) i.

Definition user_item : json :=
  JDict [("role", JStr "user"); ("content", JStr "open the browser")].

(** A task in progress and an actor that holds the given items and has no
    call pending. *)
Definition holding (l : list json) : State Actor :=
  Fixtures.start (mkActor l JNull None JNull).

Definition reasoning_item : json :=
  JDict [("type", JStr "reasoning");
         ("summary",
          JList [JDict [("type", JStr "summary_text");
                        ("text", JStr "The browser icon is in the dock.")]])].

Definition click_call : dict :=
  [("type", JStr "computer_call");
   ("call_id", JStr "call_1");
   ("action", JDict [("type", JStr "click"); ("x", JInt 24); ("y", JInt 150);
                     ("button", JStr "left")])].

(** A click without its [x]. *)
Definition broken_call : dict :=
  [("type", JStr "computer_call");
   ("call_id", JStr "call_2");
   ("action", JDict [("type", JStr "click"); ("y", JInt 150)])].

Definition message_item : dict :=
  [("type", JStr "message");
   ("content", JList [JDict [("type", JStr "output_text");
                             ("text", JStr "The file is saved.")]])].

Definition reply (output : list json) : json :=
  JDict [("output", JList output);
         ("usage", JDict [("input_tokens", JInt 1200);
                          ("output_tokens", JInt 40)])].

(** A desktop whose screenshot never fails, and a model that answers every
    request with a reasoning item and a click. *)
Definition desktop : Env :=
  mkEnv (ok "iVBORw0KGgo=")
    (fun _ => ok (reply [reasoning_item; JDict click_call]))
    (fun _ => throw (ValueError "Expecting value")).

End ActorFixtures.

(* ===================================================================== *)
(** ** Properties of the context trimmer *)
(* ===================================================================== *)

Module TrimmerFacts.
Import Py Claude.

Lemma skipn_to_nat_pred (A : Type) (n : Z) (x : A) (l : list A) :
  0 < n -> skipn (Z.to_nat n) (x :: l) = skipn (Z.to_nat (n - 1)) l.
Proof.
  intros Hn. replace (Z.to_nat n) with (S (Z.to_nat (n - 1))) by lia.
  reflexivity.
Qed.

(** One content list: the images that stay are the old ones without the
    first [n]; texts stay; the counter goes down by what was removed. *)
Lemma trim_parts_spec (ps : list part) : forall n : Z,
  filter is_image (fst (trim_parts n ps))
    = skipn (Z.to_nat n) (filter is_image ps)
  /\ filter (fun p => negb (is_image p)) (fst (trim_parts n ps))
    = filter (fun p => negb (is_image p)) ps
  /\ Z.to_nat (snd (trim_parts n ps))
    = (Z.to_nat n - List.length (filter is_image ps))%nat.
Proof.
  induction ps as [|p ps IH]; intros n; simpl.
  - rewrite skipn_nil. repeat split; lia.
  - destruct (is_image p) eqn:Hp; simpl.
    + destruct (Z.ltb_spec 0 n) as [Hn|Hn].
      * destruct (IH (n - 1)) as (H1 & H2 & H3).
        rewrite skipn_to_nat_pred by assumption.
        repeat split; try assumption. simpl. lia.
      * destruct (IH n) as (H1 & H2 & H3).
        destruct (trim_parts n ps) as [ps' n'] eqn:E; simpl in *.
        rewrite Hp; simpl.
        replace (Z.to_nat n) with O in * by lia. simpl in *.
        repeat split; [now rewrite H1 | assumption | lia].
    + destruct (IH n) as (H1 & H2 & H3).
      destruct (trim_parts n ps) as [ps' n'] eqn:E; simpl in *.
      rewrite Hp; simpl.
      repeat split; [assumption | now rewrite H2 | assumption].
Qed.

Lemma trim_block_spec (b : block) (n : Z) :
  images_of_block (fst (trim_block n b))
    = skipn (Z.to_nat n) (images_of_block b)
  /\ without_images_block (fst (trim_block n b)) = without_images_block b
  /\ Z.to_nat (snd (trim_block n b))
    = (Z.to_nat n - List.length (images_of_block b))%nat.
Proof.
  destruct b as [t|id input|id c|d]; simpl;
    try (rewrite skipn_nil; repeat split; lia).
  destruct c as [|s|ps]; simpl; try (rewrite skipn_nil; repeat split; lia).
  destruct (trim_parts_spec ps n) as (H1 & H2 & H3).
  destruct (trim_parts n ps) as [ps' n'] eqn:E; simpl in *.
  repeat split; [assumption | now rewrite H2 | assumption].
Qed.

Lemma trim_blocks_spec (bs : list block) : forall n : Z,
  flat_map images_of_block (fst (trim_blocks n bs))
    = skipn (Z.to_nat n) (flat_map images_of_block bs)
  /\ map without_images_block (fst (trim_blocks n bs))
    = map without_images_block bs
  /\ Z.to_nat (snd (trim_blocks n bs))
    = (Z.to_nat n - List.length (flat_map images_of_block bs))%nat.
Proof.
  induction bs as [|b bs IH]; intros n; simpl.
  - rewrite skipn_nil. repeat split; lia.
  - destruct (trim_block_spec b n) as (B1 & B2 & B3).
    destruct (trim_block n b) as [b' n1] eqn:Eb; simpl in *.
    destruct (IH n1) as (H1 & H2 & H3).
    destruct (trim_blocks n1 bs) as [bs' n2] eqn:Ebs; simpl in *.
    rewrite skipn_app, B1, H1, B3, B2, H2, H3, length_app.
    repeat split; lia.
Qed.

Lemma trim_message_spec (m : message) (n : Z) :
  images_of_message (fst (trim_message n m))
    = skipn (Z.to_nat n) (images_of_message m)
  /\ without_images_message (fst (trim_message n m)) = without_images_message m
  /\ Z.to_nat (snd (trim_message n m))
    = (Z.to_nat n - List.length (images_of_message m))%nat.
Proof.
  destruct m as [r c]. unfold trim_message, images_of_message,
    without_images_message; simpl.
  destruct c as [s|bs]; simpl.
  - rewrite skipn_nil. repeat split; lia.
  - destruct (trim_blocks_spec bs n) as (H1 & H2 & H3).
    destruct (trim_blocks n bs) as [bs' n'] eqn:E; simpl in *.
    repeat split; [assumption | now rewrite H2 | assumption].
Qed.

Lemma trim_messages_spec (ms : list message) : forall n : Z,
  images_of (fst (trim_messages n ms)) = skipn (Z.to_nat n) (images_of ms)
  /\ without_images (fst (trim_messages n ms)) = without_images ms
  /\ Z.to_nat (snd (trim_messages n ms))
    = (Z.to_nat n - List.length (images_of ms))%nat.
Proof.
  unfold images_of, without_images.
  induction ms as [|m ms IH]; intros n; simpl.
  - rewrite skipn_nil. repeat split; lia.
  - destruct (trim_message_spec m n) as (B1 & B2 & B3).
    destruct (trim_message n m) as [m' n1] eqn:Em; simpl in *.
    destruct (IH n1) as (H1 & H2 & H3).
    destruct (trim_messages n1 ms) as [ms' n2] eqn:Ems; simpl in *.
    rewrite skipn_app, B1, H1, B3, B2, H2, H3, length_app.
    repeat split; lia.
Qed.

(** Rounding: for a positive threshold the count is the largest multiple of
    the threshold that does not exceed [total - images_to_keep]. *)
Lemma images_to_remove_round_down (total keep thr : Z) :
  0 < thr ->
  images_to_remove total keep thr = thr * ((total - keep) / thr)
  /\ images_to_remove total keep thr <= total - keep
       < images_to_remove total keep thr + thr.
Proof.
  intros Hthr. unfold images_to_remove.
  pose proof (Z.div_mod (total - keep) thr ltac:(lia)) as Hdm.
  pose proof (Z.mod_pos_bound (total - keep) thr Hthr) as Hb.
  split; lia.
Qed.

(** A counter that is not positive removes nothing. *)
Lemma trim_parts_nonpositive (ps : list part) (n : Z) :
  n <= 0 -> trim_parts n ps = (ps, n).
Proof.
  intros Hn. induction ps as [|p ps IH]; simpl; [reflexivity|].
  replace (0 <? n) with false by (symmetry; apply Z.ltb_ge; lia).
  rewrite andb_false_r, IH. reflexivity.
Qed.

Lemma trim_blocks_nonpositive (bs : list block) (n : Z) :
  n <= 0 -> trim_blocks n bs = (bs, n).
Proof.
  intros Hn. induction bs as [|b bs IH]; simpl; [reflexivity|].
  assert (Hb : trim_block n b = (b, n)).
  { destruct b as [t|id input|id c|d]; simpl; try reflexivity.
    destruct c as [|s|ps]; simpl; try reflexivity.
    now rewrite trim_parts_nonpositive. }
  rewrite Hb, IH. reflexivity.
Qed.

Lemma trim_messages_nonpositive (ms : list message) (n : Z) :
  n <= 0 -> trim_messages n ms = (ms, n).
Proof.
  intros Hn. induction ms as [|m ms IH]; simpl; [reflexivity|].
  assert (Hm : trim_message n m = (m, n)).
  { destruct m as [r c]. unfold trim_message; simpl.
    destruct c as [s|bs]; [reflexivity|].
    now rewrite trim_blocks_nonpositive. }
  rewrite Hm, IH. reflexivity.
Qed.

Lemma filter_runs (ms : list message) (keep thr : Z) :
  keep <> 0 -> thr <> 0 ->
  _maybe_filter_to_n_most_recent_images ms keep thr
  = ok (fst (trim_messages (images_to_remove (total_images ms) keep thr) ms)).
Proof.
  intros Hk Ht. unfold _maybe_filter_to_n_most_recent_images.
  destruct (Z.eqb_spec keep 0); [contradiction|].
  destruct (Z.eqb_spec thr 0); [contradiction|]. reflexivity.
Qed.

(** C1.  With [images_to_keep = 0] the history is returned as it is.
    Otherwise, for a positive threshold, the trimmer computes
    [total_images - images_to_keep] and rounds it down to a multiple of
    [min_removal_threshold]; it removes that many of the oldest images (none
    when the rounded number is not positive, as on a history with fewer
    images than [images_to_keep]) and leaves the newest images, in their
    order, and everything that is not an image as they are.  With ten
    images, [images_to_keep = 3] and [min_removal_threshold = 2], the six
    oldest images go and four remain. *)
Theorem trimmer_removes_oldest_images (ms : list message) (keep thr : Z) :
  _maybe_filter_to_n_most_recent_images ms 0 thr = ok ms
  /\ (0 < keep -> 0 < thr ->
      let n := images_to_remove (total_images ms) keep thr in
      n = thr * ((total_images ms - keep) / thr)
      /\ exists ms',
           _maybe_filter_to_n_most_recent_images ms keep thr = ok ms'
           /\ total_images ms - total_images ms' = Z.max 0 n
           /\ images_of ms' = skipn (Z.to_nat n) (images_of ms)
           /\ without_images ms' = without_images ms
           /\ (n <= 0 -> ms' = ms))
  /\ (total_images ms = 10 ->
      images_to_remove (total_images ms) 3 2 = 6
      /\ exists ms',
           _maybe_filter_to_n_most_recent_images ms 3 2 = ok ms'
           /\ images_of ms' = skipn 6 (images_of ms)
           /\ total_images ms' = 4).
Proof.
  assert (General : forall k t, 0 < k -> 0 < t ->
    let n := images_to_remove (total_images ms) k t in
    exists ms',
      _maybe_filter_to_n_most_recent_images ms k t = ok ms'
      /\ total_images ms - total_images ms' = Z.max 0 n
      /\ images_of ms' = skipn (Z.to_nat n) (images_of ms)
      /\ without_images ms' = without_images ms
      /\ (n <= 0 -> ms' = ms)).
  { intros k t Hk Ht n.
    exists (fst (trim_messages n ms)).
    destruct (trim_messages_spec ms n) as (H1 & H2 & _).
    destruct (images_to_remove_round_down (total_images ms) k t Ht) as (_ & Hle & _).
    split; [apply filter_runs; lia|]. split.
    - fold n in Hle. unfold total_images in *. rewrite H1, length_skipn. lia.
    - split; [assumption|]. split; [assumption|].
      intros Hn. now rewrite trim_messages_nonpositive. }
  split; [reflexivity|]. split.
  - intros Hk Ht n. split.
    + apply images_to_remove_round_down; assumption.
    + apply General; assumption.
  - intros H10. rewrite H10. split; [reflexivity|].
    destruct (General 3 2 ltac:(lia) ltac:(lia)) as (ms' & E & C & I & _).
    rewrite H10 in I, C. change (images_to_remove 10 3 2) with 6 in I, C.
    exists ms'. split; [assumption|]. split; [exact I|]. lia.
Qed.

(** The theorem at a history of ten screenshots. *)
Lemma trimmer_removes_oldest_images_witness :
  (exists ms',
     _maybe_filter_to_n_most_recent_images Fixtures.ten_shots 3 2 = ok ms'
     /\ images_of ms' = skipn 6 (images_of Fixtures.ten_shots)
     /\ total_images ms' = 4)
  /\ images_to_remove (total_images Fixtures.ten_shots) 3 2
     = 2 * ((total_images Fixtures.ten_shots - 3) / 2).
Proof.
  destruct (trimmer_removes_oldest_images Fixtures.ten_shots 3 2)
    as (_ & G & T).
  split.
  - apply T. reflexivity.
  - apply G; lia.
Defined.

End TrimmerFacts.

(* ===================================================================== *)
(** ** Properties of the dialect parsers *)
(* ===================================================================== *)

Module ParserFacts.
Import Py Predicates.

(** *** Scroll *)

Lemma cua_scroll (args : dict) (z : Z) :
  dict_find args "scroll_y" = Some (JInt z) ->
  Cua.parse_action "scroll" args
  = ok (Some (mkAction "scroll" [("clicks", JInt (- (z / 10)))])).
Proof.
  intros H. unfold Cua.parse_action; simpl.
  unfold dict_get. rewrite H. simpl.
  replace (z / 10 * -1) with (- (z / 10)) by lia. reflexivity.
Qed.

Lemma qwen_scroll (thought : option string) (args : dict) (z : Z) :
  dict_find args "pixels" = Some (JInt z) ->
  Qwen.map_action thought "scroll" args
  = ok ("scroll", [("clicks", JInt (z / 10))]).
Proof.
  intros H. unfold Qwen.map_action; simpl.
  unfold dict_get. rewrite H. reflexivity.
Qed.

(** C4, as amended.  The CUA parser floor-divides the pixel delta
    [scroll_y] (positive = down) by 10 and then flips the sign: [-30] gives
    [clicks = 3] and [23] gives [clicks = -2]; a delta of at least 10 gives
    negative clicks and a negative delta positive clicks.  The qwen parser,
    whose [pixels] field is already positive = up, floor-divides by 10 and
    keeps the sign: [-30] gives [-3] and [23] gives [2]. *)
Theorem scroll_clicks (thought : option string) (args : dict) (z : Z) :
  (dict_find args "scroll_y" = Some (JInt z) ->
   Cua.parse_action "scroll" args
   = ok (Some (mkAction "scroll" [("clicks", JInt (- (z / 10)))]))
   /\ (10 <= z -> - (z / 10) < 0) /\ (z < 0 -> 0 < - (z / 10)))
  /\ (dict_find args "pixels" = Some (JInt z) ->
      Qwen.map_action thought "scroll" args
      = ok ("scroll", [("clicks", JInt (z / 10))])
      /\ (10 <= z -> 0 < z / 10) /\ (z < 0 -> z / 10 < 0))
  /\ Cua.parse_action "scroll" [("scroll_y", JInt (-30))]
     = ok (Some (mkAction "scroll" [("clicks", JInt 3)]))
  /\ Cua.parse_action "scroll" [("scroll_y", JInt 23)]
     = ok (Some (mkAction "scroll" [("clicks", JInt (-2))]))
  /\ Qwen.parse_tool_call thought (Fixtures.scroll_call (-30))
     = ok (mkAction "scroll" [("clicks", JInt (-3))])
  /\ Qwen.parse_tool_call thought (Fixtures.scroll_call 23)
     = ok (mkAction "scroll" [("clicks", JInt 2)]).
Proof.
  assert (Hpos : 10 <= z -> 0 < z / 10).
  { intros Hz. apply Z.div_str_pos. lia. }
  assert (Hneg : z < 0 -> z / 10 < 0).
  { intros Hz. apply Z.div_lt_upper_bound; lia. }
  split; [|split].
  - intros H. split; [now apply cua_scroll|]. split; intros Hz.
    + specialize (Hpos Hz). lia.
    + specialize (Hneg Hz). lia.
  - intros H. split; [now apply qwen_scroll|]. split; assumption.
  - repeat split; reflexivity.
Qed.

Lemma scroll_clicks_witness :
  Cua.parse_action "scroll" [("scroll_y", JInt (-30))]
  = ok (Some (mkAction "scroll" [("clicks", JInt (- (-30 / 10)))]))
  /\ Qwen.map_action None "scroll" [("pixels", JInt 23)]
     = ok ("scroll", [("clicks", JInt (23 / 10))]).
Proof.
  split.
  - destruct (scroll_clicks None [("scroll_y", JInt (-30))] (-30)) as (H & _).
    apply H. reflexivity.
  - destruct (scroll_clicks None [("pixels", JInt 23)] 23) as (_ & H & _).
    apply H. reflexivity.
Defined.

(** C4 as worded fails on the qwen dialect: its pixel delta [-30] is not
    sign-flipped, the canonical action has [clicks = -3], not [3]. *)
Lemma qwen_scroll_counterexample :
  Qwen.parse_tool_call (Some "Scrolling down") (Fixtures.scroll_call (-30))
    = ok (mkAction "scroll" [("clicks", JInt (-3))])
  /\ Qwen.parse_tool_call (Some "Scrolling down") (Fixtures.scroll_call (-30))
    <> ok (mkAction "scroll" [("clicks", JInt 3)]).
Proof.
  split; [reflexivity|]. vm_compute. discriminate.
Qed.

(** *** Key names *)

Lemma lower_ascii_not_upper (c : ascii) : is_upper (lower_ascii c) = false.
Proof. destruct c as [[] [] [] [] [] [] [] []]; reflexivity. Qed.

Lemma chars_lower (s : string) :
  list_ascii_of_string (lower s) = map lower_ascii (list_ascii_of_string s).
Proof. induction s as [|c s IH]; simpl; [reflexivity | now rewrite IH]. Qed.

Lemma chars_remove_char (c : ascii) (s : string) :
  list_ascii_of_string (remove_char c s)
  = filter (fun a => negb (Ascii.eqb a c)) (list_ascii_of_string s).
Proof.
  induction s as [|a s IH]; simpl; [reflexivity|].
  destruct (Ascii.eqb a c); simpl; now rewrite IH.
Qed.

Lemma canonical_key_clean (s : string) :
  lower_no_underscore (remove_char "_" (lower s)) = true.
Proof.
  unfold lower_no_underscore. rewrite chars_remove_char, chars_lower.
  apply forallb_forall. intros c Hc.
  apply filter_In in Hc. destruct Hc as [Hin Hne].
  apply in_map_iff in Hin. destruct Hin as (c0 & <- & _).
  rewrite lower_ascii_not_upper, Hne. reflexivity.
Qed.

Lemma hot_key_keys_clean (text : string) :
  Forall (fun k => lower_no_underscore k = true) (Claude.hot_key_keys text).
Proof.
  unfold Claude.hot_key_keys. rewrite map_map.
  apply Forall_forall. intros k Hk.
  apply in_map_iff in Hk. destruct Hk as (piece & <- & _).
  apply canonical_key_clean.
Qed.

Lemma has_char_cons (c a : ascii) (s : string) :
  Chars.has_char c (String a s) = (Ascii.eqb c a || Chars.has_char c s)%bool.
Proof. reflexivity. Qed.

Lemma has_char_app (c : ascii) (a b : string) :
  Chars.has_char c (a ++ b) = (Chars.has_char c a || Chars.has_char c b)%bool.
Proof.
  induction a as [|x a IH]; [reflexivity|].
  cbn [append]. rewrite !has_char_cons, IH. now rewrite orb_assoc.
Qed.

Lemma split_char_whole (c : ascii) (x : string) :
  Chars.has_char c x = false -> split_char c x = [x].
Proof.
  induction x as [|a x IH]; [reflexivity|].
  rewrite has_char_cons. intros H. apply orb_false_iff in H as [Ha Hx].
  cbn [split_char]. rewrite Ascii.eqb_sym, Ha, (IH Hx). reflexivity.
Qed.

Lemma split_char_next (c : ascii) (x rest : string) :
  Chars.has_char c x = false ->
  split_char c (x ++ String c rest) = x :: split_char c rest.
Proof.
  induction x as [|a x IH].
  - intros _. cbn [append split_char]. now rewrite Ascii.eqb_refl.
  - rewrite has_char_cons. intros H. apply orb_false_iff in H as [Ha Hx].
    cbn [append split_char]. rewrite Ascii.eqb_sym, Ha, (IH Hx). reflexivity.
Qed.

Lemma split_join (c : ascii) (l : list string) :
  l <> [] -> Forall (fun x => Chars.has_char c x = false) l ->
  split_char c (Chars.join (String c EmptyString) l) = l.
Proof.
  induction l as [|x l IH]; [congruence|]. intros _ H.
  inversion H as [|? ? Hx Hl]; subst.
  destruct l as [|y l].
  - cbn [Chars.join]. now apply split_char_whole.
  - change (Chars.join (String c "") (x :: y :: l))
      with (x ++ String c (Chars.join (String c "") (y :: l))).
    rewrite (split_char_next c x _ Hx). f_equal. apply IH; [discriminate | exact Hl].
Qed.

Lemma lstrip_blank (a x : string) :
  Chars.blank a = true -> lstrip (a ++ x) = lstrip x.
Proof.
  induction a as [|c a IH]; [reflexivity|].
  unfold Chars.blank. cbn [list_ascii_of_string forallb]. intros H.
  apply andb_true_iff in H as [Hc Ha]. cbn [append lstrip]. rewrite Hc.
  now apply IH.
Qed.

Lemma lstrip_all_blank (b : string) : Chars.blank b = true -> lstrip b = "".
Proof.
  induction b as [|x b IH]; [reflexivity|].
  unfold Chars.blank. cbn [list_ascii_of_string forallb]. intros H.
  apply andb_true_iff in H as [Hx Hb]. cbn [lstrip]. rewrite Hx.
  now apply IH.
Qed.

Lemma lstrip_tight (c : string) : Chars.starts_tight c = true -> lstrip c = c.
Proof.
  destruct c as [|x c]; [reflexivity|]. cbn [Chars.starts_tight lstrip].
  intros H. apply negb_true_iff in H. now rewrite H.
Qed.

Lemma rstrip_all_blank (b : string) : Chars.blank b = true -> rstrip b = "".
Proof.
  induction b as [|x b IH]; [reflexivity|].
  unfold Chars.blank. cbn [list_ascii_of_string forallb]. intros H.
  apply andb_true_iff in H as [Hx Hb]. cbn [rstrip].
  rewrite (IH Hb), Hx. reflexivity.
Qed.

Lemma rstrip_padded (c b : string) :
  Chars.ends_tight c = true -> Chars.blank b = true -> rstrip (c ++ b) = c.
Proof.
  intros Hc Hb. induction c as [|x c IH].
  - now apply rstrip_all_blank.
  - cbn [append rstrip]. destruct c as [|y c].
    + cbn [append]. rewrite (rstrip_all_blank b Hb).
      cbn [Chars.ends_tight] in Hc. apply negb_true_iff in Hc. now rewrite Hc.
    + rewrite IH by exact Hc. reflexivity.
Qed.

Lemma strip_padded (p : Chars.piece) :
  Chars.padded p = true -> strip (Chars.whole p) = Chars.core p.
Proof.
  unfold Chars.padded, Chars.whole, strip. intros H.
  repeat (apply andb_true_iff in H as [H ?]).
  rewrite (lstrip_blank _ _ H).
  destruct (Chars.core p) as [|x c] eqn:E.
  - cbn [append]. rewrite lstrip_all_blank by assumption. reflexivity.
  - rewrite lstrip_tight.
    + now apply rstrip_padded.
    + cbn [append Chars.starts_tight] in *. assumption.
Qed.

Lemma blank_no_plus (a : string) :
  Chars.blank a = true -> Chars.has_char "+" a = false.
Proof.
  induction a as [|x a IH]; [reflexivity|].
  unfold Chars.blank. cbn [list_ascii_of_string forallb]. intros H.
  apply andb_true_iff in H as [Hx Ha]. rewrite has_char_cons, (IH Ha).
  rewrite orb_false_r.
  destruct x as [[] [] [] [] [] [] [] []]; try reflexivity; discriminate Hx.
Qed.

Lemma whole_no_plus (p : Chars.piece) :
  Chars.padded p = true -> Chars.has_char "+" (Chars.whole p) = false.
Proof.
  unfold Chars.padded, Chars.whole. intros H.
  repeat (apply andb_true_iff in H as [H ?]).
  rewrite !has_char_app.
  rewrite (blank_no_plus (Chars.left_pad p)), (blank_no_plus (Chars.right_pad p))
    by assumption.
  match goal with
  | H : negb (Chars.has_char _ _) = true |- _ =>
      apply negb_true_iff in H; rewrite H
  end.
  reflexivity.
Qed.

Lemma hot_key_keys_padded (pieces : list Chars.piece) :
  pieces <> [] -> forallb Chars.padded pieces = true ->
  Claude.hot_key_keys (Chars.join "+" (map Chars.whole pieces))
  = map (fun p => remove_char "_" (lower (Chars.core p))) pieces.
Proof.
  intros Hne Hp. unfold Claude.hot_key_keys.
  rewrite (split_join "+"%char).
  - rewrite !map_map. apply map_ext_in. intros p Hin.
    rewrite forallb_forall in Hp. now rewrite (strip_padded p (Hp p Hin)).
  - destruct pieces; [congruence | discriminate].
  - apply Forall_map. apply Forall_forall. intros p Hin.
    rewrite forallb_forall in Hp. apply whole_no_plus. auto.
Qed.

Lemma lower_ascii_underscore (c : ascii) :
  Ascii.eqb (lower_ascii c) "_" = Ascii.eqb c "_".
Proof. destruct c as [[] [] [] [] [] [] [] []]; reflexivity. Qed.

Lemma count_underscore_lower (s : string) :
  Chars.count_char "_" (lower s) = Chars.count_char "_" s.
Proof.
  induction s as [|c s IH]; [reflexivity|].
  cbn [lower Chars.count_char]. now rewrite lower_ascii_underscore, IH.
Qed.

Lemma assoc_pair_in (l : list (string * string)) (k v : string) :
  Claude.assoc l k = Some v -> In (k, v) l.
Proof.
  induction l as [|[k' v'] l IH]; simpl; [discriminate|].
  destruct (String.eqb_spec k' k) as [->|_].
  - intros [= ->]. now left.
  - intros H. right. auto.
Qed.

Lemma map_key_keeps_underscores (key : string) :
  Chars.count_char "_" (Cua.map_key key) = Chars.count_char "_" key.
Proof.
  assert (Table : forallb (fun kv => (Nat.eqb (Chars.count_char "_" (fst kv)) 0
                                      && Nat.eqb (Chars.count_char "_" (snd kv)) 0)%bool)
                    Cua.CUA_KEY_TO_AGENTDESK_KEY = true) by reflexivity.
  rewrite forallb_forall in Table.
  unfold Cua.map_key.
  destruct (Claude.assoc Cua.CUA_KEY_TO_AGENTDESK_KEY (lower key)) as [v|] eqn:E.
  - apply assoc_pair_in, Table in E. cbn [fst snd] in E.
    apply andb_true_iff in E as [Ek Ev].
    apply Nat.eqb_eq in Ek, Ev. rewrite count_underscore_lower in Ek. congruence.
  - apply count_underscore_lower.
Qed.

Lemma lower_ascii_range (c : ascii) :
  Nat.ltb (nat_of_ascii (lower_ascii c)) 128 = Nat.ltb (nat_of_ascii c) 128.
Proof. destruct c as [[] [] [] [] [] [] [] []]; reflexivity. Qed.

Lemma ascii_only_lower (s : string) :
  Chars.ascii_only (lower s) = Chars.ascii_only s.
Proof.
  unfold Chars.ascii_only. induction s as [|c s IH]; [reflexivity|].
  cbn [lower list_ascii_of_string forallb]. now rewrite lower_ascii_range, IH.
Qed.

Lemma map_keys_strings (ks : list string) :
  Cua.map_keys (map JStr ks) = ok (map JStr (map Cua.map_key ks)).
Proof.
  induction ks as [|k ks IH]; [reflexivity|].
  cbn [map Cua.map_keys]. rewrite IH. reflexivity.
Qed.

(** C8, as amended.  The Claude agent turns the [text] of a [hot_key] into
    [keys] with no alias table: ["ctrl+c"] gives [["ctrl"; "c"]] and
    ["Cmd+Shift_Key"] gives [["cmd"; "shiftkey"]].  In general, for a text
    made of ASCII key names joined by [+], each with white space around it,
    the keys are the names in their order, each without its padding,
    lower-cased and with its underscores deleted; none holds an upper-case
    letter or an underscore.  The alias table belongs to the CUA
    [keypress] parser, which is given a list of keys: each is lower-cased,
    then looked up ([esc] to [escape], [cmd] and [super] to [command],
    [option] to [alt]); an ASCII name that is not in the table passes
    through lower-cased, and no key loses or gains an underscore. *)
Theorem hot_key_canonicalization (key : string) (keys : list string)
    (pieces : list Chars.piece) :
  Claude._get_mapped_action_params "hot_key" [("text", JStr "ctrl+c")]
  = ok [("keys", JList [JStr "ctrl"; JStr "c"])]
  /\ Claude._get_mapped_action_params "hot_key" [("text", JStr "Cmd+Shift_Key")]
     = ok [("keys", JList [JStr "cmd"; JStr "shiftkey"])]
  /\ (pieces <> [] -> forallb Chars.padded pieces = true ->
      Claude._get_mapped_action_params "hot_key"
        [("text", JStr (Chars.join "+" (map Chars.whole pieces)))]
      = ok [("keys",
             JList (map (fun p => JStr (remove_char "_" (lower (Chars.core p))))
                      pieces))]
      /\ Forall (fun p => lower_no_underscore
                            (remove_char "_" (lower (Chars.core p))) = true)
           pieces)
  /\ map Cua.map_key ["esc"; "cmd"; "super"; "option"; "ESC"; "Cmd"]
     = ["escape"; "command"; "command"; "alt"; "escape"; "command"]
  /\ (forallb Chars.ascii_only keys = true ->
      Cua.parse_action "keypress" [("keys", JList (map JStr keys))]
      = ok (Some (mkAction "hot_key"
                    [("keys", JList (map JStr (map Cua.map_key keys)))])))
  /\ (Chars.ascii_only key = true ->
      Chars.count_char "_" (Cua.map_key key) = Chars.count_char "_" key
      /\ (Claude.assoc Cua.CUA_KEY_TO_AGENTDESK_KEY (lower key) = None ->
          Cua.map_key key = lower key))
  /\ Cua.parse_action "keypress" [("keys", JList [JStr "Cmd"; JStr "Shift_Key"])]
     = ok (Some (mkAction "hot_key"
                   [("keys", JList [JStr "command"; JStr "shift_key"])])).
Proof.
  split; [reflexivity|]. split; [reflexivity|]. split; [|split; [reflexivity|]].
  - intros Hne Hp. split.
    + unfold Claude._get_mapped_action_params.
      cbn [String.eqb Ascii.eqb Bool.eqb negb andb orb dict_has dict_find
           dict_get rbind ok Claude.str_method].
      rewrite (hot_key_keys_padded pieces Hne Hp), map_map. reflexivity.
    + apply Forall_forall. intros p _. apply canonical_key_clean.
  - split; [|split; [|reflexivity]].
    + intros _. unfold Cua.parse_action.
      cbn [String.eqb Ascii.eqb Bool.eqb dict_get dict_find rbind ok Cua.iterate].
      rewrite map_keys_strings. reflexivity.
    + intros _. split; [apply map_key_keeps_underscores|].
      intros H. unfold Cua.map_key. now rewrite H.
Qed.

Lemma hot_key_canonicalization_witness :
  Claude._get_mapped_action_params "hot_key" [("text", JStr " Ctrl + Page_Up ")]
  = ok [("keys", JList [JStr "ctrl"; JStr "pageup"])]
  /\ Cua.map_key "Page_Up" = "page_up".
Proof.
  destruct (hot_key_canonicalization "Page_Up" ["Page_Up"]
              [Chars.mkPiece " " "Ctrl" " "; Chars.mkPiece " " "Page_Up" " "])
    as (_ & _ & P & _ & _ & K & _).
  split.
  - destruct (P ltac:(discriminate) eq_refl) as (E & _). exact E.
  - destruct (K eq_refl) as (_ & H). apply H. reflexivity.
Defined.

(** C8 as worded fails: the path that canonicalises ["Cmd+Shift_Key"]
    resolves no alias ([cmd] stays [cmd], where the alias table has
    [command]), and the path that resolves aliases keeps the underscore. *)
Lemma hot_key_alias_counterexample :
  Claude._get_mapped_action_params "hot_key" [("text", JStr "Cmd+Shift_Key")]
  = ok [("keys", JList [JStr "cmd"; JStr "shiftkey"])]
  /\ Cua.map_key "cmd" = "command"
  /\ Claude.hot_key_keys "Cmd+Shift_Key" <> ["command"; "shiftkey"]
  /\ map Cua.map_key ["Cmd"; "Shift_Key"] = ["command"; "shift_key"]
  /\ map Cua.map_key ["Cmd"; "Shift_Key"] <> ["command"; "shiftkey"].
Proof.
  repeat split; try reflexivity; vm_compute; discriminate.
Qed.

(** *** Recognised action names *)

Lemma has_pair_xy (args params : dict) :
  has_pair args = true ->
  exists x y, Qwen.xy_of args params
              = ok (dict_set (dict_set params "x" x) "y" y).
Proof.
  unfold has_pair, Qwen.xy_of, dict_get. intros H.
  destruct (dict_find args "coordinate") as [[| | | |[|x [|y l]]|]|];
    try discriminate H.
  exists x, y. reflexivity.
Qed.

Lemma optional_pair_button (args : dict) (b : string) :
  optional_pair args = true ->
  exists p, Qwen.xy_if_present args [("button", JStr b)] = ok p
            /\ dict_has p "button" = true
            /\ dict_has p "x" = dict_has args "coordinate"
            /\ dict_has p "y" = dict_has args "coordinate".
Proof.
  unfold optional_pair, Qwen.xy_if_present. intros H.
  destruct (dict_has args "coordinate") eqn:Hc; simpl in H.
  - destruct (has_pair_xy args [("button", JStr b)] H) as (x & y & E).
    rewrite E. eexists. split; [reflexivity|]. repeat split; reflexivity.
  - eexists. split; [reflexivity|]. repeat split; reflexivity.
Qed.

Lemma optional_pair_plain (args : dict) :
  optional_pair args = true ->
  exists p, Qwen.xy_if_present args [] = ok p
            /\ dict_has p "x" = dict_has args "coordinate"
            /\ dict_has p "y" = dict_has args "coordinate".
Proof.
  unfold optional_pair, Qwen.xy_if_present. intros H.
  destruct (dict_has args "coordinate") eqn:Hc; simpl in H.
  - destruct (has_pair_xy args [] H) as (x & y & E).
    rewrite E. eexists. split; [reflexivity|]. split; reflexivity.
  - eexists. split; [reflexivity|]. split; reflexivity.
Qed.

Lemma dict_has_get (d : dict) (k : string) :
  dict_has d k = true -> exists v, dict_get d k = ok v.
Proof.
  unfold dict_has, dict_get.
  destruct (dict_find d k); [eauto | discriminate].
Qed.

Ltac next_branch n s :=
  destruct (String.eqb n s) eqn:?.

(** Closes the parts of [Required.present] that are about other names. *)
Ltac other_names :=
  repeat match goal with
         | |- _ /\ _ => split
         | |- _ = _ -> _ => let E := fresh "E" in intros E; try discriminate E
         | |- _ \/ _ -> _ =>
             let E := fresh "E" in
             intros E; repeat (destruct E as [E|E]; try discriminate E)
         end.

Lemma qwen_map_action_carries (thought : option string) (n : string)
    (args : dict) :
  carries thought n args = true ->
  exists cn p,
    Qwen.map_action thought n args = ok (cn, p)
    /\ in_vocabulary cn = true
    /\ Required.present (mkAction cn p) args.
Proof.
  unfold carries, Qwen.map_action, Required.present. intros H.
  cbn [name parameters].
  next_branch n "key".
  { unfold dict_has in H. unfold dict_get.
    destruct (dict_find args "keys") as [v|] eqn:E; [|discriminate H].
    do 2 eexists. split; [reflexivity|]. split; [reflexivity|].
    other_names; reflexivity. }
  next_branch n "type".
  { unfold dict_has in H. unfold dict_get.
    destruct (dict_find args "text") as [v|] eqn:E; [|discriminate H].
    do 2 eexists. split; [reflexivity|]. split; [reflexivity|].
    other_names; reflexivity. }
  next_branch n "mouse_move".
  { destruct (has_pair_xy args [] H) as (x & y & ->). do 2 eexists.
    split; [reflexivity|]. split; [reflexivity|].
    other_names; reflexivity. }
  next_branch n "left_click".
  { destruct (optional_pair_button args "left" H) as (p & -> & Hb & Hx & Hy).
    do 2 eexists. split; [reflexivity|]. split; [reflexivity|].
    other_names; assumption. }
  next_branch n "left_click_drag".
  { destruct (optional_pair_plain args H) as (p & -> & Hx & Hy). do 2 eexists.
    split; [reflexivity|]. split; [reflexivity|].
    other_names; assumption. }
  next_branch n "right_click".
  { destruct (optional_pair_button args "right" H) as (p & -> & Hb & Hx & Hy).
    do 2 eexists. split; [reflexivity|]. split; [reflexivity|].
    other_names; assumption. }
  next_branch n "middle_click".
  { destruct (optional_pair_button args "middle" H) as (p & -> & Hb & Hx & Hy).
    do 2 eexists. split; [reflexivity|]. split; [reflexivity|].
    other_names; assumption. }
  next_branch n "double_click".
  { destruct (optional_pair_button args "left" H) as (p & -> & Hb & Hx & Hy).
    do 2 eexists. split; [reflexivity|]. split; [reflexivity|].
    other_names; assumption. }
  next_branch n "scroll".
  { unfold dict_get.
    destruct (dict_find args "pixels") as [[| |z| | |]|]; try discriminate H.
    do 2 eexists. split; [reflexivity|]. split; [reflexivity|].
    other_names. eexists. reflexivity. }
  next_branch n "wait".
  { unfold dict_has in H. unfold dict_get.
    destruct (dict_find args "time") as [v|] eqn:E; [|discriminate H].
    do 2 eexists. split; [reflexivity|]. split; [reflexivity|].
    other_names; reflexivity. }
  next_branch n "terminate".
  { unfold dict_get.
    destruct (dict_find args "status") as [[| | |st| |]|]; try discriminate H.
    destruct thought as [t|]; try discriminate H.
    do 2 eexists. split; [reflexivity|]. split; [reflexivity|].
    other_names. eexists. reflexivity. }
  discriminate H.
Qed.

Lemma carries_recognized (thought : option string) (n : string) (args : dict) :
  carries thought n args = true -> In n Qwen.recognized.
Proof.
  unfold carries, Qwen.recognized. intros H.
  repeat match type of H with
  | (if String.eqb n ?s then _ else _) = true =>
      destruct (String.eqb_spec n s) as [->|_]; [simpl; tauto|]
  end.
  discriminate H.
Qed.

Lemma qwen_tool_call_runs (thought : option string) (d args : dict)
    (n : string) (cn : string) (p : dict) :
  dict_find d "arguments" = Some (JDict args) ->
  dict_find args "action" = Some (JStr n) ->
  Qwen.map_action thought n args = ok (cn, p) ->
  Qwen.parse_tool_call thought (JDict d) = ok (mkAction cn p).
Proof.
  intros Hd Ha Hm. unfold Qwen.parse_tool_call; simpl.
  unfold dict_get. rewrite Hd; simpl. unfold dict_get. rewrite Ha; simpl.
  rewrite Hm. reflexivity.
Qed.

(** C9, as amended.  For every qwen tool call with a recognised action name
    that carries the fields the branch of that name reads, the parser
    produces exactly one canonical action; its name is in the fixed
    vocabulary, and it comes with the parameters of that name: [keys] for
    [hot_key], [text] for [type_text], [x] and [y] for [move_mouse],
    [clicks] for [scroll], [seconds] for [wait], [value] for [result] and
    [button] for [click] and [double_click]; only the [x] and [y] of
    [click], [double_click] and [drag_mouse] are optional, present exactly
    when the payload has a [coordinate].  The Claude table maps every
    dialect name into the vocabulary except [cursor_position], which it
    maps to [mouse_coordinates]. *)
Theorem recognized_action_canonical (thought : option string) (d args : dict)
    (n : string) :
  (dict_find d "arguments" = Some (JDict args) ->
   dict_find args "action" = Some (JStr n) ->
   carries thought n args = true ->
   In n Qwen.recognized
   /\ exists a,
        Qwen.parse_tool_calls thought [JDict d] = ok [a]
        /\ in_vocabulary (name a) = true
        /\ Required.present a args)
  /\ forallb (fun kv => (in_vocabulary (snd kv)
                         || String.eqb (fst kv) "cursor_position")%bool)
             Claude.action_mapping = true
  /\ Claude.map_action_name "cursor_position" = ok "mouse_coordinates"
  /\ in_vocabulary "mouse_coordinates" = false.
Proof.
  split; [|repeat split; reflexivity].
  intros Hd Ha Hc. split; [exact (carries_recognized _ _ _ Hc)|].
  destruct (qwen_map_action_carries thought n args Hc) as (cn & p & Hm & Hv & Hk).
  exists (mkAction cn p). split; [|split; assumption].
  simpl. rewrite (qwen_tool_call_runs thought d args n cn p Hd Ha Hm).
  reflexivity.
Qed.

Lemma recognized_action_canonical_witness :
  exists a,
    Qwen.parse_tool_calls (Some "Let's click something")
      [Fixtures.tool_call [("action", JStr "left_click");
                           ("coordinate", JList [JInt 1240; JInt 783])]]
    = ok [a]
    /\ in_vocabulary (name a) = true
    /\ Required.present a [("action", JStr "left_click");
                           ("coordinate", JList [JInt 1240; JInt 783])].
Proof.
  destruct (recognized_action_canonical (Some "Let's click something")
              [("name", JStr "computer_use");
               ("arguments",
                JDict [("action", JStr "left_click");
                       ("coordinate", JList [JInt 1240; JInt 783])])]
              [("action", JStr "left_click");
               ("coordinate", JList [JInt 1240; JInt 783])]
              "left_click") as (H & _).
  destruct (H eq_refl eq_refl eq_refl) as (_ & a & Ha & Hv & Hp).
  exists a. split; [exact Ha|]. split; assumption.
Defined.

(** C9 as worded fails: the recognised qwen action [left_click] without a
    [coordinate] (the parser's own fourth example) gives a [click] that has
    [button] but neither [x] nor [y]. *)
Lemma bare_click_counterexample :
  exists a,
    Qwen.parse_tool_calls (Some "Let's click something")
      [Fixtures.bare_left_click] = ok [a]
    /\ name a = "click"
    /\ dict_has (parameters a) "x" = false
    /\ dict_has (parameters a) "y" = false.
Proof.
  eexists. split; [reflexivity|]. repeat split; reflexivity.
Qed.

(** *** Unrecognised action names *)

Lemma qwen_unrecognized (thought : option string) (n : string) (args : dict) :
  ~ In n Qwen.recognized -> Qwen.map_action thought n args = ok (n, []).
Proof.
  unfold Qwen.recognized, Qwen.map_action. intros H.
  repeat match goal with
  | |- (if String.eqb n ?s then _ else _) = _ =>
      destruct (String.eqb_spec n s) as [->|_]; [exfalso; apply H; simpl; tauto|]
  end.
  reflexivity.
Qed.

Lemma cua_unrecognized (n : string) (args : dict) :
  ~ In n Cua.recognized -> Cua.parse_action n args = ok None.
Proof.
  unfold Cua.recognized, Cua.parse_action. intros H.
  repeat match goal with
  | |- (if String.eqb n ?s then _ else _) = _ =>
      destruct (String.eqb_spec n s) as [->|_]; [exfalso; apply H; simpl; tauto|]
  end.
  reflexivity.
Qed.

Lemma claude_unrecognized (input_args : dict) (n : string) :
  dict_find input_args "action" = Some (JStr n) ->
  Claude.assoc Claude.action_mapping n = None ->
  ClaudeAgent.lookup_action input_args = throw (KeyError n).
Proof.
  intros Ha Hn. unfold ClaudeAgent.lookup_action, dict_get.
  rewrite Ha; simpl. unfold Claude.map_action_name. rewrite Hn. reflexivity.
Qed.

(** *** Text without a tool call *)

Lemma strip_prefix_self (p rest : string) : strip_prefix p (p ++ rest) = Some rest.
Proof.
  induction p as [|a p IH]; simpl; [now destruct rest|].
  now rewrite Ascii.eqb_refl.
Qed.

Lemma strip_prefix_app (p q s : string) :
  strip_prefix p s = None -> strip_prefix (p ++ q) s = None.
Proof.
  revert s. induction p as [|a p IH]; intros s; simpl.
  - destruct s; discriminate.
  - destruct s as [|b s]; [reflexivity|].
    destruct (Ascii.eqb a b); [apply IH | reflexivity].
Qed.

Lemma find_first_cons_None (p : string) (c : ascii) (s : string) :
  find_first p (String c s) = None ->
  strip_prefix p (String c s) = None /\ find_first p s = None.
Proof.
  simpl. destruct (strip_prefix p (String c s)); [discriminate|].
  destruct (find_first p s) as [[b r]|]; [discriminate|]. tauto.
Qed.

Lemma find_first_eq (p s : string) :
  find_first p s
  = match strip_prefix p s with
    | Some rest => Some (EmptyString, rest)
    | None =>
        match s with
        | EmptyString => None
        | String c s' =>
            match find_first p s' with
            | Some (before, rest) => Some (String c before, rest)
            | None => None
            end
        end
    end.
Proof. destruct s; reflexivity. Qed.

Lemma strip_prefix_sound (p s rest : string) :
  strip_prefix p s = Some rest -> s = p ++ rest.
Proof.
  revert s. induction p as [|a p IH]; intros s; simpl.
  - intros [= ->]. reflexivity.
  - destruct s as [|b s]; [discriminate|].
    destruct (Ascii.eqb_spec a b) as [->|]; [|discriminate].
    intros H. now rewrite (IH s H).
Qed.

(** [find_first] finds an occurrence whenever there is one, and only then. *)
Lemma find_first_sound (p s before rest : string) :
  find_first p s = Some (before, rest) -> s = before ++ p ++ rest.
Proof.
  revert before. induction s as [|c s IH]; intros before;
    rewrite find_first_eq.
  - destruct (strip_prefix p "") eqn:E; [|discriminate].
    intros [= <- <-]. simpl. now apply strip_prefix_sound.
  - destruct (strip_prefix p (String c s)) eqn:E.
    + intros [= <- <-]. simpl. now apply strip_prefix_sound.
    + destruct (find_first p s) as [[b r]|]; [|discriminate].
      intros [= <- <-]. simpl. now rewrite (IH b eq_refl).
Qed.

Lemma find_first_complete (p before rest : string) :
  find_first p (before ++ p ++ rest) <> None.
Proof.
  induction before as [|c before IH]; rewrite find_first_eq.
  - simpl. now rewrite strip_prefix_self.
  - destruct (strip_prefix p (String c before ++ p ++ rest)); [discriminate|].
    simpl. destruct (find_first p (before ++ p ++ rest)) as [[b r]|];
      [discriminate | contradiction].
Qed.

Lemma not_occurs_iff (p s : string) : ~ occurs p s <-> find_first p s = None.
Proof.
  split.
  - intros H. destruct (find_first p s) as [[b r]|] eqn:E; [|reflexivity].
    exfalso. apply H. exists b, r. now apply find_first_sound.
  - intros H (before & rest & ->). now apply find_first_complete in H.
Qed.

Lemma match_at_needs_tag (s : string) :
  strip_prefix "<tool_call>" s = None -> Qwen.match_at s = None.
Proof.
  intros H. unfold Qwen.match_at.
  now rewrite (strip_prefix_app "<tool_call>" Qwen.nl s H).
Qed.

Lemma findall_without_tag (s : string) : forall skip : nat,
  find_first "<tool_call>" s = None -> Qwen.findall_from skip s = [].
Proof.
  induction s as [|c s IH]; intros skip H; [reflexivity|].
  apply find_first_cons_None in H. destruct H as [Hp Hs].
  cbn [Qwen.findall_from]. destruct skip as [|k].
  - rewrite (match_at_needs_tag _ Hp). now apply IH.
  - now apply IH.
Qed.

(** C10.  On every content that holds no [<tool_call>] tag, the qwen
    [parse_action] does not return a pair: the final [return thought, output]
    reads [thought], which was never assigned, and [UnboundLocalError] is
    raised. *)
Theorem qwen_parse_action_unbound_thought (loads : string -> json)
    (content : string) :
  ~ occurs "<tool_call>" content ->
  Qwen.parse_action loads content = throw (UnboundLocalError "thought").
Proof.
  intros H. apply not_occurs_iff in H.
  unfold Qwen.parse_action, Qwen.findall, Qwen.pre_tool_match.
  rewrite (findall_without_tag content 0%nat H), H. reflexivity.
Qed.

Lemma qwen_parse_action_unbound_thought_witness :
  Qwen.parse_action (fun _ => JStr "") "The task is complete."
  = throw (UnboundLocalError "thought").
Proof.
  apply qwen_parse_action_unbound_thought.
  apply not_occurs_iff. reflexivity.
Defined.

End ParserFacts.

(* ===================================================================== *)
(** ** Properties of the step loop *)
(* ===================================================================== *)

Module LoopFacts.
Import Py Session Predicates.

(** *** The retry wrapper *)

Lemma retry_first {X A} (n : nat) (fn : nat -> M X A) (s s1 : State X) (a : A) :
  fn 1%nat s = (inr a, s1) -> retry n fn s = (inr a, s1).
Proof. intros H. unfold retry. destruct (n - 1)%nat; simpl; now rewrite H. Qed.

Lemma retry_fifth {X A} (fn : nat -> M X A) (s0 s1 s2 s3 s4 s5 : State X)
    (e1 e2 e3 e4 : exn) (a : A) :
  fn 1%nat s0 = (inl e1, s1) -> fn 2%nat s1 = (inl e2, s2) ->
  fn 3%nat s2 = (inl e3, s3) -> fn 4%nat s3 = (inl e4, s4) ->
  fn 5%nat s4 = (inr a, s5) ->
  retry 5 fn s0 = (inr a, s5).
Proof.
  intros H1 H2 H3 H4 H5. unfold retry; simpl.
  now rewrite H1, H2, H3, H4, H5.
Qed.

Lemma retry_exhausted {X A} (fn : nat -> M X A) (s0 s1 s2 s3 s4 s5 : State X)
    (e1 e2 e3 e4 e5 : exn) :
  fn 1%nat s0 = (inl e1, s1) -> fn 2%nat s1 = (inl e2, s2) ->
  fn 3%nat s2 = (inl e3, s3) -> fn 4%nat s3 = (inl e4, s4) ->
  fn 5%nat s4 = (inl e5, s5) ->
  retry (A := A) 5 fn s0 = (inl (RetryError e5), s5).
Proof.
  intros H1 H2 H3 H4 H5. unfold retry; simpl.
  now rewrite H1, H2, H3, H4, H5.
Qed.

(** *** Polling *)

Lemma refresh_polled {X} (answer : res TaskStatus) (s : State X)
    (st : TaskStatus) :
  polled answer (task s) = ok st ->
  refresh answer s = (inr tt, after_poll s st).
Proof.
  destruct s as [[r st0 err] l x]. unfold polled, refresh, after_poll,
    poll_events, bind, get_task, when, emit, lift, set_status, ret; simpl.
  destruct r; simpl.
  - intros ->. reflexivity.
  - intros [= <-]. now rewrite app_nil_r.
Qed.

Lemma polled_in_progress {X} (answer : res TaskStatus) (s : State X) :
  answer = ok IN_PROGRESS -> status (task s) = IN_PROGRESS ->
  polled answer (task s) = ok IN_PROGRESS.
Proof. intros -> H. unfold polled. rewrite H. now destruct (remote (task s)). Qed.

Lemma running_test (st : TaskStatus) :
  st <> CANCELING -> st <> CANCELED ->
  (status_eqb st CANCELING || status_eqb st CANCELED)%bool = false.
Proof. intros H1 H2. destruct st; try reflexivity; contradiction. Qed.

(** *** One attempt of the CUA step *)

Section CuaAttempt.

Variable addr : string.
Variable w : CuaAgent.Env.
Variable s : State CuaAgent.history.

Lemma cua_canceling :
  polled (CuaAgent.refresh_answer w) (task s) = ok CANCELING ->
  CuaAgent.take_action_body addr w s
  = (inr (None, true),
     mkState (mkTask (remote (task s)) CANCELED (error (task s)))
       (log s ++ poll_events (task s) ++ [EvSave CANCELED]) (extra s)).
Proof.
  intros H. unfold CuaAgent.take_action_body, try_except, bind.
  rewrite (refresh_polled _ _ _ H). simpl. now rewrite <- app_assoc.
Qed.

Lemma cua_canceled :
  polled (CuaAgent.refresh_answer w) (task s) = ok CANCELED ->
  CuaAgent.take_action_body addr w s = (inr (None, true), after_poll s CANCELED).
Proof.
  intros H. unfold CuaAgent.take_action_body, try_except, bind.
  rewrite (refresh_polled _ _ _ H). reflexivity.
Qed.

Variable st : TaskStatus.
Hypothesis not_canceling : st <> CANCELING.
Hypothesis not_canceled : st <> CANCELED.
Hypothesis Hpoll : polled (CuaAgent.refresh_answer w) (task s) = ok st.

Ltac run_cua :=
  unfold CuaAgent.take_action_body, try_except, bind;
  rewrite (refresh_polled _ _ _ Hpoll);
  cbn [get_task after_poll task status];
  rewrite (running_test st not_canceling not_canceled).

Lemma cua_act_raises (e : exn) :
  CuaAgent.act w = throw e ->
  CuaAgent.take_action_body addr w s
  = (inl e,
     mkState (task (after_poll s st))
       (log (after_poll s st)
        ++ [EvModelCall;
            EvPost ("Error taking action: " ++ str_exn addr e ++ " -- retrying...")])
       (extra s)).
Proof.
  intros H. run_cua. simpl. rewrite H. simpl. now rewrite <- app_assoc.
Qed.

Lemma cua_no_action :
  CuaAgent.act w = ok None
  \/ (exists step, CuaAgent.act w = ok (Some step) /\ CuaAgent.action step = None) ->
  CuaAgent.take_action_body addr w s
  = (inr (None, false),
     mkState (task (after_poll s st))
       (log (after_poll s st) ++ [EvModelCall]) (extra s)).
Proof.
  intros [H|(step & H & Ha)]; run_cua; simpl; rewrite H; simpl;
    [|rewrite Ha]; reflexivity.
Qed.

Lemma cua_dispatch_ok (step : CuaAgent.Step) (a : V1Action) (response : string) :
  CuaAgent.act w = ok (Some step) -> CuaAgent.action step = Some a ->
  name a <> "result" -> CuaAgent.find_action w (name a) = true ->
  CuaAgent.use w a = ok response -> CuaAgent.record_action w a = None ->
  CuaAgent.take_action_body addr w s
  = (inr (Some step, false),
     mkState (task (after_poll s st))
       (log (after_poll s st)
        ++ [EvModelCall; EvDispatch (name a) (parameters a)]
        ++ (if String.eqb response "" then []
            else [EvPost ("Result from taking action: " ++ response)])
        ++ [EvRecord a])
       (extra s)).
Proof.
  intros H Ha Hn Hf Hu Hr. run_cua. simpl. rewrite H. simpl. rewrite Ha.
  apply String.eqb_neq in Hn. rewrite Hn, Hf. simpl. rewrite Hu. simpl.
  unfold CuaAgent.do_record. rewrite Hr.
  destruct (String.eqb response ""); simpl;
    repeat rewrite <- app_assoc; reflexivity.
Qed.

End CuaAttempt.

(** *** One turn of the CUA loop *)

Section CuaLoop.

Variable addr : string.
Variable world : nat -> nat -> CuaAgent.Env.

Lemma cua_step_done (n i : nat) (s s1 : State CuaAgent.history) :
  CuaAgent.take_action addr (world i) s = (inr (None, true), s1) ->
  CuaAgent.step_loop addr world (S n) i s = (inr tt, s1).
Proof.
  intros H. cbn [CuaAgent.step_loop]. unfold bind, try_except.
  rewrite H. reflexivity.
Qed.

Lemma cua_step_skipped (n i : nat) (s s1 : State CuaAgent.history) :
  CuaAgent.take_action addr (world i) s = (inr (None, false), s1) ->
  CuaAgent.step_loop addr world (S n) i s
  = CuaAgent.step_loop addr world n (S i) s1.
Proof.
  intros H. cbn [CuaAgent.step_loop]. unfold bind, try_except.
  rewrite H. reflexivity.
Qed.

Lemma cua_step_failed (n i : nat) (s s1 : State CuaAgent.history) (e : exn) :
  CuaAgent.take_action addr (world i) s = (inl e, s1) ->
  CuaAgent.step_loop addr world (S n) i s
  = (inr tt,
     mkState (mkTask (remote (task s1)) FAILED (Some (str_exn addr e)))
       (log s1 ++ [EvSave FAILED;
                   EvPost ("Error taking action: " ++ str_exn addr e)])
       (extra s1)).
Proof.
  intros H. cbn [CuaAgent.step_loop]. unfold bind, try_except.
  rewrite H. simpl. now rewrite <- app_assoc.
Qed.

End CuaLoop.

(** *** One attempt of the Claude step *)

Lemma handle_blocks_texts (addr : string) (w : ClaudeAgent.Env)
    (bs : list Claude.block) :
  forallb (fun b => negb (is_tool_use b)) bs = true ->
  forall (thought : string) (results : list Claude.block)
         (s : State (list Claude.message)),
    ClaudeAgent.handle_blocks addr w thought results bs s
    = (inr results, mkState (task s) (log s ++ text_posts bs) (extra s)).
Proof.
  induction bs as [|b bs IH]; intros Hb thought results s.
  - simpl. rewrite app_nil_r. now destruct s.
  - simpl in Hb. apply andb_true_iff in Hb. destruct Hb as [Hb Hbs].
    destruct b as [t|id input|id c|d]; try discriminate Hb;
      cbn [ClaudeAgent.handle_blocks].
    + unfold bind, post_message, emit. rewrite (IH Hbs). simpl.
      now rewrite <- app_assoc.
    + rewrite (IH Hbs). reflexivity.
    + rewrite (IH Hbs). reflexivity.
Qed.

(** The blocks before the first tool use are only posted. *)
Lemma handle_blocks_prefix (addr : string) (w : ClaudeAgent.Env)
    (pre bs : list Claude.block) :
  forallb (fun b => negb (is_tool_use b)) pre = true ->
  forall (thought : string) (results : list Claude.block)
         (s : State (list Claude.message)),
  exists thought',
    ClaudeAgent.handle_blocks addr w thought results (pre ++ bs) s
    = ClaudeAgent.handle_blocks addr w thought' results bs
        (mkState (task s) (log s ++ text_posts pre) (extra s)).
Proof.
  induction pre as [|b pre IH]; intros Hb thought results s.
  - exists thought. simpl. rewrite app_nil_r. now destruct s.
  - simpl in Hb. apply andb_true_iff in Hb. destruct Hb as [Hb Hpre].
    destruct b as [t|id input|id c|d]; try discriminate Hb;
      cbn [app ClaudeAgent.handle_blocks].
    + unfold bind at 1, post_message, emit.
      destruct (IH Hpre (thought ++ t ++ Qwen.nl) results
                  (mkState (task s) (log s ++ [EvPost t]) (extra s)))
        as (thought' & E).
      exists thought'. rewrite E. cbn [task log extra].
      unfold text_posts. cbn [flat_map]. now rewrite <- app_assoc.
    + destruct (IH Hpre thought results s) as (thought' & E).
      exists thought'. exact E.
    + destruct (IH Hpre thought results s) as (thought' & E).
      exists thought'. exact E.
Qed.

Section ClaudeAttempt.

Variable addr : string.
Variable w : ClaudeAgent.Env.
Variable s : State (list Claude.message).

Lemma claude_canceling :
  polled (ClaudeAgent.refresh_answer w) (task s) = ok CANCELING ->
  ClaudeAgent.take_action_body addr w s
  = (inr true,
     mkState (mkTask (remote (task s)) CANCELED (error (task s)))
       (log s ++ poll_events (task s) ++ [EvSave CANCELED]) (extra s)).
Proof.
  intros H. unfold ClaudeAgent.take_action_body, try_except, bind.
  rewrite (refresh_polled _ _ _ H). simpl. now rewrite <- app_assoc.
Qed.

Lemma claude_canceled :
  polled (ClaudeAgent.refresh_answer w) (task s) = ok CANCELED ->
  ClaudeAgent.take_action_body addr w s = (inr true, after_poll s CANCELED).
Proof.
  intros H. unfold ClaudeAgent.take_action_body, try_except, bind.
  rewrite (refresh_polled _ _ _ H). reflexivity.
Qed.

Variable st : TaskStatus.
Hypothesis not_canceling : st <> CANCELING.
Hypothesis not_canceled : st <> CANCELED.
Hypothesis Hpoll : polled (ClaudeAgent.refresh_answer w) (task s) = ok st.

Variable response : ClaudeAgent.Response.
Hypothesis Hcreate : ClaudeAgent.create w (trimmed (extra s)) = ok response.
Hypothesis not_end_turn : ClaudeAgent.stop_reason response <> "end_turn".

Ltac run_claude :=
  unfold ClaudeAgent.take_action_body, try_except, bind;
  rewrite (refresh_polled _ _ _ Hpoll);
  cbn [get_task after_poll task status];
  rewrite (running_test st not_canceling not_canceled);
  cbn [get_extra extra lift Claude._maybe_filter_to_n_most_recent_images
       Z.eqb Pos.eqb ok put_extra emit task log after_poll];
  fold (trimmed (extra s)); rewrite Hcreate; unfold ok;
  cbn [ClaudeAgent.append_message bind get_extra put_extra extra task log];
  unfold ClaudeAgent.append_message, bind, get_extra, put_extra;
  cbn [extra task log];
  rewrite (proj2 (String.eqb_neq _ _) not_end_turn).

Lemma claude_no_tool_use :
  forallb (fun b => negb (is_tool_use b)) (ClaudeAgent.response_params response)
    = true ->
  ClaudeAgent.take_action_body addr w s
  = (inr true,
     mkState (task (after_poll s st))
       (log (after_poll s st) ++ [EvModelCall]
        ++ text_posts (ClaudeAgent.response_params response))
       (trimmed (extra s)
        ++ [assistant_turn (ClaudeAgent.response_params response)])%list).
Proof.
  intros Hb. run_claude.
  rewrite (handle_blocks_texts addr w _ Hb). cbn [task log extra].
  now rewrite <- app_assoc.
Qed.

Lemma claude_unknown_action (id n : string) (input : dict)
    (pre rest : list Claude.block) :
  ClaudeAgent.response_params response
  = (pre ++ Claude.BToolUse id input :: rest)%list ->
  forallb (fun b => negb (is_tool_use b)) pre = true ->
  dict_find input "action" = Some (JStr n) ->
  Claude.assoc Claude.action_mapping n = None ->
  ClaudeAgent.take_action_body addr w s
  = (inl (KeyError n),
     mkState (task (after_poll s st))
       (log (after_poll s st)
        ++ [EvModelCall] ++ text_posts pre
        ++ [EvPost ("Error taking action: " ++ str_exn addr (KeyError n)
                    ++ " -- retrying...")])
       (trimmed (extra s)
        ++ [assistant_turn (ClaudeAgent.response_params response)])%list).
Proof.
  intros Hr Hpre Ha Hn. run_claude. rewrite Hr.
  match goal with
  | |- context [ClaudeAgent.handle_blocks addr w ?t ?r (pre ++ ?bs) ?s0] =>
      destruct (handle_blocks_prefix addr w pre bs Hpre t r s0) as (t' & E);
      rewrite E
  end.
  cbn [ClaudeAgent.handle_blocks task log extra].
  unfold ClaudeAgent.handle_tool_use, bind, lift.
  rewrite (ParserFacts.claude_unrecognized input n Ha Hn).
  unfold throw, post_message, emit, raise. cbn [task log extra].
  rewrite <- Hr. now rewrite <- !app_assoc.
Qed.

Lemma claude_one_tool_use (id dn an response_text img : string)
    (input p : dict) (rest : list Claude.block) :
  ClaudeAgent.response_params response = Claude.BToolUse id input :: rest ->
  forallb (fun b => negb (is_tool_use b)) rest = true ->
  ClaudeAgent.lookup_action input = ok (dn, an) ->
  an <> "take_screenshots" ->
  ClaudeAgent.find_action w an = true ->
  Claude._get_mapped_action_params an (ClaudeAgent.copied_params dn input)
    = ok p ->
  ClaudeAgent.use w an p = ok response_text ->
  ClaudeAgent.take_screenshots w = ok img ->
  ClaudeAgent.record_action w (mkAction an p) = None ->
  ClaudeAgent.take_action_body addr w s
  = (inr false,
     mkState (task (after_poll s st))
       (log (after_poll s st)
        ++ [EvModelCall;
            EvPostValue ("Taking action '" ++ an ++ "' with parameters: ")
              (JDict input);
            EvDispatch an p]
        ++ (if String.eqb response_text "" then []
            else [EvPost ("Result from taking action: " ++ response_text)])
        ++ [EvScreenshot; EvPost "Current Image"; EvRecord (mkAction an p)]
        ++ text_posts rest)
       (trimmed (extra s)
        ++ [assistant_turn (ClaudeAgent.response_params response);
            Claude.mkMessage "user"
              (Claude.MList [ClaudeAgent.make_api_tool_result img id])])%list).
Proof.
  intros Hr Hrest Hl Hn Hf Hm Hu Hshot Hrec. run_claude. rewrite Hr.
  cbn [ClaudeAgent.handle_blocks]. unfold ClaudeAgent.handle_tool_use, bind, lift.
  rewrite Hl. unfold ok, post_message, post_value, emit. cbn [fst snd task log extra].
  rewrite Hf. unfold try_except, bind.
  rewrite (proj2 (String.eqb_neq _ _) Hn). cbn [negb].
  unfold lift. rewrite Hm. unfold ok, emit. cbn [task log extra].
  rewrite Hu. unfold ok, when, post_message, emit, ret, ClaudeAgent.screenshot,
    bind, lift, ClaudeAgent.do_record.
  rewrite Hshot. unfold ok.
  destruct (String.eqb response_text ""); cbn [negb task log extra];
    rewrite Hrec; unfold emit; cbn [task log extra];
    rewrite (handle_blocks_texts addr w rest Hrest); cbn [task log extra app];
    repeat rewrite <- app_assoc; reflexivity.
Qed.

End ClaudeAttempt.

Lemma claude_create_raises (addr : string) (w : ClaudeAgent.Env)
    (s : State (list Claude.message)) (st : TaskStatus) (e : exn) :
  st <> CANCELING -> st <> CANCELED ->
  polled (ClaudeAgent.refresh_answer w) (task s) = ok st ->
  ClaudeAgent.create w (trimmed (extra s)) = throw e ->
  ClaudeAgent.take_action_body addr w s
  = (inl e,
     mkState (task (after_poll s st))
       (log (after_poll s st)
        ++ [EvModelCall;
            EvPost ("Error taking action: " ++ str_exn addr e ++ " -- retrying...")])
       (trimmed (extra s))).
Proof.
  intros H1 H2 Hpoll Hcreate.
  unfold ClaudeAgent.take_action_body, try_except, bind.
  rewrite (refresh_polled _ _ _ Hpoll).
  cbn [get_task after_poll task status]. rewrite (running_test st H1 H2).
  cbn [get_extra extra lift Claude._maybe_filter_to_n_most_recent_images
       Z.eqb Pos.eqb ok put_extra emit task log after_poll].
  fold (trimmed (extra s)). rewrite Hcreate. unfold throw.
  unfold post_message, emit, raise. cbn [task log extra].
  now rewrite <- app_assoc.
Qed.

(** *** One turn of the Claude loop *)

Section ClaudeLoop.

Variable addr : string.
Variable world : nat -> nat -> ClaudeAgent.Env.

Lemma claude_step_done (n i : nat) (s s1 : State (list Claude.message)) :
  ClaudeAgent.take_action addr (world i) s = (inr true, s1) ->
  ClaudeAgent.step_loop addr world (S n) i s = (inr tt, s1).
Proof.
  intros H. cbn [ClaudeAgent.step_loop]. unfold bind, try_except.
  rewrite H. reflexivity.
Qed.

Lemma claude_step_failed (n i : nat) (s s1 : State (list Claude.message))
    (e : exn) :
  ClaudeAgent.take_action addr (world i) s = (inl e, s1) ->
  ClaudeAgent.step_loop addr world (S n) i s
  = (inr tt,
     mkState (mkTask (remote (task s1)) FAILED (Some (str_exn addr e)))
       (log s1 ++ [EvSave FAILED;
                   EvPost ("Error taking action: " ++ str_exn addr e)])
       (extra s1)).
Proof.
  intros H. cbn [ClaudeAgent.step_loop]. unfold bind, try_except.
  rewrite H. simpl. now rewrite <- app_assoc.
Qed.

End ClaudeLoop.

(** *** Traces *)

Lemma filter_poll_events (f : event -> bool) (t : Task) :
  f EvRefresh = false -> filter f (poll_events t) = [].
Proof. intros H. unfold poll_events. destruct (remote t); simpl; now rewrite ?H. Qed.

Lemma quiet_after_poll {X} (s : State X) (st : TaskStatus) :
  quiet s (after_poll s st).
Proof.
  unfold quiet, model_calls, dispatches, records, after_poll; simpl.
  rewrite !filter_app, !filter_poll_events, !app_nil_r by reflexivity.
  repeat split.
Qed.

Lemma quiet_canceled_now {X} (s : State X) : quiet s (canceled_now s).
Proof.
  unfold quiet, model_calls, dispatches, records, canceled_now; simpl.
  rewrite !filter_app, !filter_poll_events by reflexivity. simpl.
  rewrite !app_nil_r. repeat split.
Qed.

(** *** Cancellation *)

(** C5.  When the status a step polls at its entry is [CANCELING], the step
    sets the task to [CANCELED], saves it and reports the loop done: the
    first attempt returns, [solve_task]'s loop runs no further step, and
    neither the model nor the device was used (the trace gained the poll
    and the save only).  When the status is already [CANCELED] the loop
    stops as well, the trace gaining the poll only.  Both agents. *)
Theorem cancellation_stops_the_loop (addr : string) (n i : nat) :
  (forall (world : nat -> nat -> CuaAgent.Env) (s : State CuaAgent.history),
     polled (CuaAgent.refresh_answer (world i 1%nat)) (task s) = ok CANCELING ->
     CuaAgent.take_action addr (world i) s = (inr (None, true), canceled_now s)
     /\ CuaAgent.step_loop addr world (S n) i s = (inr tt, canceled_now s)
     /\ status (task (canceled_now s)) = CANCELED
     /\ quiet s (canceled_now s))
  /\ (forall (world : nat -> nat -> CuaAgent.Env) (s : State CuaAgent.history),
      polled (CuaAgent.refresh_answer (world i 1%nat)) (task s) = ok CANCELED ->
      CuaAgent.step_loop addr world (S n) i s = (inr tt, after_poll s CANCELED)
      /\ quiet s (after_poll s CANCELED))
  /\ (forall (world : nat -> nat -> ClaudeAgent.Env)
             (s : State (list Claude.message)),
      polled (ClaudeAgent.refresh_answer (world i 1%nat)) (task s) = ok CANCELING ->
      ClaudeAgent.take_action addr (world i) s = (inr true, canceled_now s)
      /\ ClaudeAgent.step_loop addr world (S n) i s = (inr tt, canceled_now s)
      /\ status (task (canceled_now s)) = CANCELED
      /\ quiet s (canceled_now s))
  /\ (forall (world : nat -> nat -> ClaudeAgent.Env)
             (s : State (list Claude.message)),
      polled (ClaudeAgent.refresh_answer (world i 1%nat)) (task s) = ok CANCELED ->
      ClaudeAgent.step_loop addr world (S n) i s = (inr tt, after_poll s CANCELED)
      /\ quiet s (after_poll s CANCELED)).
Proof.
  repeat split; try apply quiet_canceled_now; try apply quiet_after_poll.
  - apply retry_first. now apply cua_canceling.
  - apply cua_step_done, retry_first. now apply cua_canceling.
  - apply cua_step_done, retry_first. now apply cua_canceled.
  - apply retry_first. now apply claude_canceling.
  - apply claude_step_done, retry_first. now apply claude_canceling.
  - apply claude_step_done, retry_first. now apply claude_canceled.
Qed.

Lemma cancellation_stops_the_loop_witness :
  CuaAgent.step_loop Fixtures.future_addr Fixtures.model_down 30 0
    (Fixtures.cancel_requested [])
  = (inr tt, canceled_now (Fixtures.cancel_requested []))
  /\ ClaudeAgent.step_loop Fixtures.future_addr
       (fun _ _ => Fixtures.claude_env Fixtures.text_only) 30 0
       (Fixtures.cancel_requested Fixtures.first_history)
     = (inr tt, canceled_now (Fixtures.cancel_requested Fixtures.first_history)).
Proof.
  destruct (cancellation_stops_the_loop Fixtures.future_addr 29 0)
    as (Hcua & _ & Hclaude & _).
  split.
  - apply (Hcua Fixtures.model_down (Fixtures.cancel_requested [])).
    reflexivity.
  - apply (Hclaude (fun _ _ => Fixtures.claude_env Fixtures.text_only)
             (Fixtures.cancel_requested Fixtures.first_history)).
    reflexivity.
Defined.

(** *** A response without an action *)

Lemma quiet_records_after_model_call {X} (s : State X) (st : TaskStatus)
    (posts : list event) :
  forallb (fun e => negb (is_record e)) posts = true ->
  records (log (after_model_call s st) ++ posts) = records (log s).
Proof.
  intros H. unfold records, after_model_call, after_poll; simpl.
  rewrite !filter_app, filter_poll_events by reflexivity. simpl.
  rewrite !app_nil_r.
  assert (E : filter is_record posts = []).
  { induction posts as [|e l IH]; [reflexivity|]. simpl in *.
    apply andb_true_iff in H. destruct H as [He Hl].
    apply negb_true_iff in He. rewrite He. now apply IH. }
  rewrite E. now rewrite app_nil_r.
Qed.

Lemma text_posts_no_record (bs : list Claude.block) :
  forallb (fun e => negb (is_record e)) (text_posts bs) = true.
Proof.
  induction bs as [|b bs IH]; [reflexivity|].
  unfold text_posts in *. simpl. rewrite forallb_app, IH, andb_true_r.
  now destruct b.
Qed.

(** C7, as amended.  In the CUA step loop a response in which no action is
    found (the actor returns no step, or a step without an action) is a
    no-op continuation: nothing is recorded, no error is raised and the loop
    goes on with the next step.  In the Claude step loop a response that is
    not [end_turn] and holds no [tool_use] block ends the loop instead:
    [take_action] reports done, nothing is recorded, no error is raised and
    the status of the task is left as it was. *)
Theorem no_action_found (addr : string) (n i : nat) (st : TaskStatus) :
  st <> CANCELING -> st <> CANCELED ->
  (forall (world : nat -> nat -> CuaAgent.Env) (s : State CuaAgent.history),
     polled (CuaAgent.refresh_answer (world i 1%nat)) (task s) = ok st ->
     CuaAgent.act (world i 1%nat) = ok None
     \/ (exists step, CuaAgent.act (world i 1%nat) = ok (Some step)
                      /\ CuaAgent.action step = None) ->
     CuaAgent.take_action addr (world i) s
     = (inr (None, false), after_model_call s st)
     /\ records (log (after_model_call s st)) = records (log s)
     /\ CuaAgent.step_loop addr world (S n) i s
        = CuaAgent.step_loop addr world n (S i) (after_model_call s st))
  /\ (forall (world : nat -> nat -> ClaudeAgent.Env)
             (s : State (list Claude.message)) (response : ClaudeAgent.Response),
      polled (ClaudeAgent.refresh_answer (world i 1%nat)) (task s) = ok st ->
      ClaudeAgent.create (world i 1%nat) (trimmed (extra s)) = ok response ->
      ClaudeAgent.stop_reason response <> "end_turn" ->
      forallb (fun b => negb (is_tool_use b))
              (ClaudeAgent.response_params response) = true ->
      exists s',
        ClaudeAgent.take_action addr (world i) s = (inr true, s')
        /\ ClaudeAgent.step_loop addr world (S n) i s = (inr tt, s')
        /\ records (log s') = records (log s)
        /\ status (task s') = st
        /\ error (task s') = error (task s)).
Proof.
  intros Hc1 Hc2. split.
  - intros world s Hp Hact.
    assert (E : CuaAgent.take_action addr (world i) s
                = (inr (None, false), after_model_call s st)).
    { apply retry_first. now apply cua_no_action. }
    split; [exact E|]. split.
    + rewrite <- (app_nil_r (log (after_model_call s st))).
      now apply quiet_records_after_model_call.
    + now apply cua_step_skipped.
  - intros world s response Hp Hcr Hne Hb.
    eexists. 
    assert (E := claude_no_tool_use addr (world i 1%nat) s st Hc1 Hc2 Hp
                   response Hcr Hne Hb).
    split; [apply retry_first; exact E|].
    split; [apply claude_step_done, retry_first; exact E|].
    split; [|split; reflexivity].
    cbn [log]. rewrite app_assoc.
    apply (quiet_records_after_model_call s st).
    apply text_posts_no_record.
Qed.

Lemma no_action_found_witness :
  CuaAgent.step_loop Fixtures.future_addr
    (fun _ _ => Fixtures.cua_env (ok None) None) 3 0 (Fixtures.start [])
  = CuaAgent.step_loop Fixtures.future_addr
      (fun _ _ => Fixtures.cua_env (ok None) None) 2 1
      (after_model_call (Fixtures.start []) IN_PROGRESS)
  /\ exists s',
       ClaudeAgent.step_loop Fixtures.future_addr
         (fun _ _ => Fixtures.claude_env Fixtures.text_only) 3 0
         (Fixtures.start Fixtures.first_history)
       = (inr tt, s')
       /\ status (task s') = IN_PROGRESS.
Proof.
  destruct (no_action_found Fixtures.future_addr 2 0 IN_PROGRESS
              ltac:(discriminate) ltac:(discriminate)) as (Hcua & Hclaude).
  split.
  - apply (Hcua (fun _ _ => Fixtures.cua_env (ok None) None) (Fixtures.start [])).
    + reflexivity.
    + left. reflexivity.
  - destruct (Hclaude (fun _ _ => Fixtures.claude_env Fixtures.text_only)
                (Fixtures.start Fixtures.first_history) Fixtures.text_only
                eq_refl eq_refl ltac:(discriminate) eq_refl)
      as (s' & _ & Hloop & _ & Hst & _).
    exists s'. split; assumption.
Defined.

(** C7 as worded fails on the Claude loop: with three steps allowed and a
    model that answers with text only, the run calls the model once and
    returns, the task still in progress; the CUA loop, on a model that
    yields no step, calls it three times and ends on the step budget. *)
Lemma claude_no_action_counterexample :
  let run := ClaudeAgent.solve_task Fixtures.future_addr "open the browser"
               (fun _ _ => Fixtures.claude_env Fixtures.text_only) 3
               (Fixtures.start []) in
  let cua := CuaAgent.solve_task Fixtures.future_addr "open the browser"
               (fun _ _ => Fixtures.cua_env (ok None) None) 3
               (Fixtures.start []) in
  fst run = inr tt
  /\ List.length (model_calls (log (snd run))) = 1%nat
  /\ task (snd run) = mkTask false IN_PROGRESS None
  /\ List.length (model_calls (log (snd cua))) = 3%nat
  /\ task (snd cua) = mkTask false FAILED None.
Proof. vm_compute. repeat split. Qed.

(** *** Retried attempts *)

(** An attempt of the CUA step whose model call raises: the exception
    leaves [take_action], nothing was dispatched or recorded, and the task
    is as it was. *)
Lemma cua_failed_attempt (addr : string) (w : CuaAgent.Env)
    (s : State CuaAgent.history) (e : exn) :
  CuaAgent.refresh_answer w = ok IN_PROGRESS ->
  status (task s) = IN_PROGRESS ->
  CuaAgent.act w = throw e ->
  exists s1,
    CuaAgent.take_action_body addr w s = (inl e, s1)
    /\ status (task s1) = IN_PROGRESS
    /\ error (task s1) = error (task s)
    /\ records (log s1) = records (log s)
    /\ dispatches (log s1) = dispatches (log s)
    /\ model_calls (log s1) = (model_calls (log s) ++ [EvModelCall])%list.
Proof.
  intros Hr Hs Ha. eexists. split.
  - apply (cua_act_raises addr w s IN_PROGRESS); try discriminate;
      [now apply polled_in_progress | exact Ha].
  - unfold records, dispatches, model_calls, after_poll; simpl.
    rewrite !filter_app, !filter_poll_events by reflexivity. simpl.
    rewrite !app_nil_r. repeat split.
Qed.

(** An attempt of the CUA step that runs to its end on one action. *)
Lemma cua_good_attempt (addr : string) (w : CuaAgent.Env)
    (s : State CuaAgent.history) (step : CuaAgent.Step) (a : V1Action)
    (response : string) :
  CuaAgent.refresh_answer w = ok IN_PROGRESS ->
  status (task s) = IN_PROGRESS ->
  CuaAgent.act w = ok (Some step) -> CuaAgent.action step = Some a ->
  name a <> "result" -> CuaAgent.find_action w (name a) = true ->
  CuaAgent.use w a = ok response -> CuaAgent.record_action w a = None ->
  exists s1,
    CuaAgent.take_action_body addr w s = (inr (Some step, false), s1)
    /\ status (task s1) = IN_PROGRESS
    /\ error (task s1) = error (task s)
    /\ records (log s1) = (records (log s) ++ [EvRecord a])%list
    /\ dispatches (log s1)
       = (dispatches (log s) ++ [EvDispatch (name a) (parameters a)])%list
    /\ model_calls (log s1) = (model_calls (log s) ++ [EvModelCall])%list.
Proof.
  intros Hr Hs Hact Ha Hn Hf Hu Hrec. eexists. split.
  - apply (cua_dispatch_ok addr w s IN_PROGRESS)
      with (a := a) (response := response);
      try discriminate; try assumption. now apply polled_in_progress.
  - unfold records, dispatches, model_calls, after_poll; simpl.
    rewrite !filter_app, !filter_poll_events by reflexivity.
    destruct (String.eqb response ""); simpl;
      rewrite !app_nil_r; repeat split.
Qed.

Lemma filter_text_posts (f : event -> bool) (bs : list Claude.block) :
  (forall t, f (EvPost t) = false) -> filter f (text_posts bs) = [].
Proof.
  intros H. induction bs as [|b bs IH]; [reflexivity|].
  unfold text_posts in *. simpl. rewrite filter_app, IH, app_nil_r.
  destruct b; simpl; now rewrite ?H.
Qed.

(** An attempt of the Claude step whose API call raises. *)
Lemma claude_failed_attempt (addr : string) (w : ClaudeAgent.Env)
    (s : State (list Claude.message)) (e : exn) :
  ClaudeAgent.refresh_answer w = ok IN_PROGRESS ->
  status (task s) = IN_PROGRESS ->
  (forall ms, ClaudeAgent.create w ms = throw e) ->
  exists s1,
    ClaudeAgent.take_action_body addr w s = (inl e, s1)
    /\ status (task s1) = IN_PROGRESS
    /\ error (task s1) = error (task s)
    /\ records (log s1) = records (log s)
    /\ dispatches (log s1) = dispatches (log s)
    /\ model_calls (log s1) = (model_calls (log s) ++ [EvModelCall])%list.
Proof.
  intros Hr Hs Hc. eexists. split.
  - apply (claude_create_raises addr w s IN_PROGRESS); try discriminate;
      [now apply polled_in_progress | apply Hc].
  - unfold records, dispatches, model_calls, after_poll; simpl.
    rewrite !filter_app, !filter_poll_events by reflexivity. simpl.
    rewrite !app_nil_r. repeat split.
Qed.

(** An attempt of the Claude step that runs to its end on a response with
    one [tool_use] block. *)
Lemma claude_good_attempt (addr : string) (w : ClaudeAgent.Env)
    (s : State (list Claude.message)) (response : ClaudeAgent.Response)
    (id dn an response_text img : string) (input p : dict)
    (rest : list Claude.block) :
  ClaudeAgent.refresh_answer w = ok IN_PROGRESS ->
  status (task s) = IN_PROGRESS ->
  (forall ms, ClaudeAgent.create w ms = ok response) ->
  ClaudeAgent.stop_reason response <> "end_turn" ->
  ClaudeAgent.response_params response = Claude.BToolUse id input :: rest ->
  forallb (fun b => negb (is_tool_use b)) rest = true ->
  ClaudeAgent.lookup_action input = ok (dn, an) ->
  an <> "take_screenshots" ->
  ClaudeAgent.find_action w an = true ->
  Claude._get_mapped_action_params an (ClaudeAgent.copied_params dn input)
    = ok p ->
  ClaudeAgent.use w an p = ok response_text ->
  ClaudeAgent.take_screenshots w = ok img ->
  ClaudeAgent.record_action w (mkAction an p) = None ->
  exists s1,
    ClaudeAgent.take_action_body addr w s = (inr false, s1)
    /\ status (task s1) = IN_PROGRESS
    /\ error (task s1) = error (task s)
    /\ records (log s1) = (records (log s) ++ [EvRecord (mkAction an p)])%list
    /\ dispatches (log s1) = (dispatches (log s) ++ [EvDispatch an p])%list
    /\ model_calls (log s1) = (model_calls (log s) ++ [EvModelCall])%list.
Proof.
  intros Hr Hs Hc Hne Hp Hrest Hl Hn Hf Hm Hu Hshot Hrec. eexists. split.
  - apply (claude_one_tool_use addr w s IN_PROGRESS) with (response := response)
      (id := id) (dn := dn) (an := an) (response_text := response_text)
      (img := img) (input := input) (p := p) (rest := rest);
      try discriminate; try assumption;
      [now apply polled_in_progress | apply Hc].
  - unfold records, dispatches, model_calls.
    cbn [log task status error after_poll].
    rewrite !filter_app, !filter_poll_events, !filter_text_posts by reflexivity.
    destruct (String.eqb response_text ""); simpl;
      rewrite !app_nil_r; repeat split.
Qed.

(** C3, as amended.  When a step raises on its first four attempts and
    returns on the fifth, [take_action] returns what the fifth attempt
    returns and nothing reaches [solve_task]; every attempt runs the whole
    step again on the state the attempt before left, so what the failed
    attempts dispatched and recorded stays.  In particular, when the four
    failed attempts raise at the model call, before any dispatch, and the
    fifth dispatches and records one action, the run holds exactly one more
    recorded Step and one more dispatch, after five model calls. *)
Theorem fifth_attempt_succeeds (addr : string) :
  (forall (w : nat -> CuaAgent.Env) (s0 s1 s2 s3 s4 s5 : State CuaAgent.history)
          (e1 e2 e3 e4 : exn) (r : option CuaAgent.Step * bool),
     CuaAgent.take_action_body addr (w 1%nat) s0 = (inl e1, s1) ->
     CuaAgent.take_action_body addr (w 2%nat) s1 = (inl e2, s2) ->
     CuaAgent.take_action_body addr (w 3%nat) s2 = (inl e3, s3) ->
     CuaAgent.take_action_body addr (w 4%nat) s3 = (inl e4, s4) ->
     CuaAgent.take_action_body addr (w 5%nat) s4 = (inr r, s5) ->
     CuaAgent.take_action addr w s0 = (inr r, s5))
  /\ (forall (w : nat -> ClaudeAgent.Env)
             (s0 s1 s2 s3 s4 s5 : State (list Claude.message))
             (e1 e2 e3 e4 : exn) (r : bool),
      ClaudeAgent.take_action_body addr (w 1%nat) s0 = (inl e1, s1) ->
      ClaudeAgent.take_action_body addr (w 2%nat) s1 = (inl e2, s2) ->
      ClaudeAgent.take_action_body addr (w 3%nat) s2 = (inl e3, s3) ->
      ClaudeAgent.take_action_body addr (w 4%nat) s3 = (inl e4, s4) ->
      ClaudeAgent.take_action_body addr (w 5%nat) s4 = (inr r, s5) ->
      ClaudeAgent.take_action addr w s0 = (inr r, s5))
  /\ (forall (w : nat -> CuaAgent.Env) (s : State CuaAgent.history)
             (step : CuaAgent.Step) (a : V1Action) (response : string)
             (e1 e2 e3 e4 : exn),
      status (task s) = IN_PROGRESS ->
      (forall k, CuaAgent.refresh_answer (w k) = ok IN_PROGRESS) ->
      CuaAgent.act (w 1%nat) = throw e1 -> CuaAgent.act (w 2%nat) = throw e2 ->
      CuaAgent.act (w 3%nat) = throw e3 -> CuaAgent.act (w 4%nat) = throw e4 ->
      CuaAgent.act (w 5%nat) = ok (Some step) ->
      CuaAgent.action step = Some a -> name a <> "result" ->
      CuaAgent.find_action (w 5%nat) (name a) = true ->
      CuaAgent.use (w 5%nat) a = ok response ->
      CuaAgent.record_action (w 5%nat) a = None ->
      exists s',
        CuaAgent.take_action addr w s = (inr (Some step, false), s')
        /\ records (log s') = (records (log s) ++ [EvRecord a])%list
        /\ dispatches (log s')
           = (dispatches (log s) ++ [EvDispatch (name a) (parameters a)])%list
        /\ model_calls (log s') = (model_calls (log s) ++ repeat EvModelCall 5)%list
        /\ status (task s') = IN_PROGRESS
        /\ error (task s') = error (task s))
  /\ (forall (w : nat -> ClaudeAgent.Env) (s : State (list Claude.message))
             (response : ClaudeAgent.Response)
             (id dn an response_text img : string) (input p : dict)
             (rest : list Claude.block) (e1 e2 e3 e4 : exn),
      status (task s) = IN_PROGRESS ->
      (forall k, ClaudeAgent.refresh_answer (w k) = ok IN_PROGRESS) ->
      (forall ms, ClaudeAgent.create (w 1%nat) ms = throw e1) ->
      (forall ms, ClaudeAgent.create (w 2%nat) ms = throw e2) ->
      (forall ms, ClaudeAgent.create (w 3%nat) ms = throw e3) ->
      (forall ms, ClaudeAgent.create (w 4%nat) ms = throw e4) ->
      (forall ms, ClaudeAgent.create (w 5%nat) ms = ok response) ->
      ClaudeAgent.stop_reason response <> "end_turn" ->
      ClaudeAgent.response_params response = Claude.BToolUse id input :: rest ->
      forallb (fun b => negb (is_tool_use b)) rest = true ->
      ClaudeAgent.lookup_action input = ok (dn, an) ->
      an <> "take_screenshots" ->
      ClaudeAgent.find_action (w 5%nat) an = true ->
      Claude._get_mapped_action_params an (ClaudeAgent.copied_params dn input)
        = ok p ->
      ClaudeAgent.use (w 5%nat) an p = ok response_text ->
      ClaudeAgent.take_screenshots (w 5%nat) = ok img ->
      ClaudeAgent.record_action (w 5%nat) (mkAction an p) = None ->
      exists s',
        ClaudeAgent.take_action addr w s = (inr false, s')
        /\ records (log s') = (records (log s) ++ [EvRecord (mkAction an p)])%list
        /\ dispatches (log s') = (dispatches (log s) ++ [EvDispatch an p])%list
        /\ model_calls (log s') = (model_calls (log s) ++ repeat EvModelCall 5)%list
        /\ status (task s') = IN_PROGRESS
        /\ error (task s') = error (task s)).
Proof.
  split; [|split; [|split]].
  - intros. eapply retry_fifth; eassumption.
  - intros. eapply retry_fifth; eassumption.
  - intros w s step a response e1 e2 e3 e4 Hs Hr A1 A2 A3 A4 A5 Ha Hn Hf Hu Hrec.
    destruct (cua_failed_attempt addr (w 1%nat) s e1 (Hr _) Hs A1)
      as (s1 & B1 & S1 & E1 & R1 & D1 & M1).
    destruct (cua_failed_attempt addr (w 2%nat) s1 e2 (Hr _) S1 A2)
      as (s2 & B2 & S2 & E2 & R2 & D2 & M2).
    destruct (cua_failed_attempt addr (w 3%nat) s2 e3 (Hr _) S2 A3)
      as (s3 & B3 & S3 & E3 & R3 & D3 & M3).
    destruct (cua_failed_attempt addr (w 4%nat) s3 e4 (Hr _) S3 A4)
      as (s4 & B4 & S4 & E4 & R4 & D4 & M4).
    destruct (cua_good_attempt addr (w 5%nat) s4 step a response
                (Hr _) S4 A5 Ha Hn Hf Hu Hrec)
      as (s5 & B5 & S5 & E5 & R5 & D5 & M5).
    exists s5. split.
    { unfold CuaAgent.take_action. eapply retry_fifth; eassumption. }
    rewrite R5, R4, R3, R2, R1, D5, D4, D3, D2, D1, M5, M4, M3, M2, M1,
      E5, E4, E3, E2, E1.
    repeat split; try assumption.
    simpl. now rewrite <- !app_assoc.
  - intros w s response id dn an response_text img input p rest e1 e2 e3 e4
      Hs Hr A1 A2 A3 A4 A5 Hne Hp Hrest Hl Hn Hf Hm Hu Hshot Hrec.
    destruct (claude_failed_attempt addr (w 1%nat) s e1 (Hr _) Hs A1)
      as (s1 & B1 & S1 & E1 & R1 & D1 & M1).
    destruct (claude_failed_attempt addr (w 2%nat) s1 e2 (Hr _) S1 A2)
      as (s2 & B2 & S2 & E2 & R2 & D2 & M2).
    destruct (claude_failed_attempt addr (w 3%nat) s2 e3 (Hr _) S2 A3)
      as (s3 & B3 & S3 & E3 & R3 & D3 & M3).
    destruct (claude_failed_attempt addr (w 4%nat) s3 e4 (Hr _) S3 A4)
      as (s4 & B4 & S4 & E4 & R4 & D4 & M4).
    destruct (claude_good_attempt addr (w 5%nat) s4 response id dn an
                response_text img input p rest
                (Hr _) S4 A5 Hne Hp Hrest Hl Hn Hf Hm Hu Hshot Hrec)
      as (s5 & B5 & S5 & E5 & R5 & D5 & M5).
    exists s5. split.
    { unfold ClaudeAgent.take_action. eapply retry_fifth; eassumption. }
    rewrite R5, R4, R3, R2, R1, D5, D4, D3, D2, D1, M5, M4, M3, M2, M1,
      E5, E4, E3, E2, E1.
    repeat split; try assumption.
    simpl. now rewrite <- !app_assoc.
Qed.

Lemma fifth_attempt_succeeds_witness :
  (exists s',
     CuaAgent.take_action Fixtures.future_addr Fixtures.flaky_model
       (Fixtures.start [])
     = (inr (Some Fixtures.click_step, false), s')
     /\ records (log s') = [EvRecord Fixtures.click]
     /\ List.length (dispatches (log s')) = 1%nat)
  /\ (exists s',
        ClaudeAgent.take_action Fixtures.future_addr Fixtures.flaky_api
          (Fixtures.start Fixtures.first_history)
        = (inr false, s')
        /\ records (log s') = [EvRecord (mkAction "double_click" [])]
        /\ List.length (dispatches (log s')) = 1%nat).
Proof.
  destruct (fifth_attempt_succeeds Fixtures.future_addr) as (_ & _ & H & H').
  split.
  - destruct (H Fixtures.flaky_model (Fixtures.start []) Fixtures.click_step
                Fixtures.click "" Fixtures.api_down Fixtures.api_down
                Fixtures.api_down Fixtures.api_down
                eq_refl (fun _ => eq_refl) eq_refl eq_refl eq_refl eq_refl
                eq_refl eq_refl ltac:(discriminate) eq_refl eq_refl eq_refl)
      as (s' & E & R & D & _).
    exists s'. split; [exact E|]. split; [exact R|].
    rewrite D. reflexivity.
  - destruct (H' Fixtures.flaky_api (Fixtures.start Fixtures.first_history)
                Fixtures.double_click_response "toolu_02" "double_click"
                "double_click" "" "iVBORw0KGgo="
                [("action", JStr "double_click")] []
                [Claude.BText "Opening the folder."]
                Fixtures.api_down Fixtures.api_down Fixtures.api_down
                Fixtures.api_down
                eq_refl (fun _ => eq_refl) (fun _ => eq_refl) (fun _ => eq_refl)
                (fun _ => eq_refl) (fun _ => eq_refl) (fun _ => eq_refl)
                ltac:(discriminate) eq_refl eq_refl eq_refl ltac:(discriminate)
                eq_refl eq_refl eq_refl eq_refl eq_refl)
      as (s' & E & R & D & _).
    exists s'. split; [exact E|]. split; [exact R|].
    rewrite D. reflexivity.
Defined.

(** C3 as worded fails: here every attempt gets the same click from the
    model and sends it to the device, the first four attempts then raise in
    [record_action], and the fifth returns.  One Step is recorded, but the
    click was dispatched five times. *)
Lemma retried_dispatch_counterexample :
  let run := CuaAgent.take_action Fixtures.future_addr Fixtures.flaky_record
               (Fixtures.start []) in
  let d := EvDispatch "click"
             [("x", JInt 24); ("y", JInt 150); ("button", JStr "left")] in
  fst (CuaAgent.take_action_body Fixtures.future_addr (Fixtures.flaky_record 1)
         (Fixtures.start []))
  = inl Fixtures.unreachable
  /\ fst run = inr (Some Fixtures.click_step, false)
  /\ records (log (snd run)) = [EvRecord Fixtures.click]
  /\ dispatches (log (snd run)) = [d; d; d; d; d].
Proof. vm_compute. repeat split. Qed.

(** *** An exhausted retry budget *)

(** C6, as amended.  When all five attempts of a step raise, [solve_task]
    marks the task [FAILED], saves it, posts the error and returns; the
    stored error is the text of the exception that reaches [solve_task],
    which is the retry wrapper's [RetryError] around the exception of the
    fifth attempt: it names the class of that exception and not its
    message.  Both agents. *)
Theorem retry_exhaustion_marks_failed (addr : string) (n i : nat) :
  (forall (world : nat -> nat -> CuaAgent.Env)
          (s0 s1 s2 s3 s4 s5 : State CuaAgent.history) (e1 e2 e3 e4 e5 : exn),
     CuaAgent.take_action_body addr (world i 1%nat) s0 = (inl e1, s1) ->
     CuaAgent.take_action_body addr (world i 2%nat) s1 = (inl e2, s2) ->
     CuaAgent.take_action_body addr (world i 3%nat) s2 = (inl e3, s3) ->
     CuaAgent.take_action_body addr (world i 4%nat) s3 = (inl e4, s4) ->
     CuaAgent.take_action_body addr (world i 5%nat) s4 = (inl e5, s5) ->
     CuaAgent.step_loop addr world (S n) i s0
     = (inr tt, failed_with addr (RetryError e5) s5))
  /\ (forall (world : nat -> nat -> ClaudeAgent.Env)
             (s0 s1 s2 s3 s4 s5 : State (list Claude.message))
             (e1 e2 e3 e4 e5 : exn),
      ClaudeAgent.take_action_body addr (world i 1%nat) s0 = (inl e1, s1) ->
      ClaudeAgent.take_action_body addr (world i 2%nat) s1 = (inl e2, s2) ->
      ClaudeAgent.take_action_body addr (world i 3%nat) s2 = (inl e3, s3) ->
      ClaudeAgent.take_action_body addr (world i 4%nat) s3 = (inl e4, s4) ->
      ClaudeAgent.take_action_body addr (world i 5%nat) s4 = (inl e5, s5) ->
      ClaudeAgent.step_loop addr world (S n) i s0
      = (inr tt, failed_with addr (RetryError e5) s5))
  /\ (forall (X : Type) (s : State X) (e : exn),
      status (task (failed_with addr (RetryError e) s)) = FAILED
      /\ error (task (failed_with addr (RetryError e) s))
         = Some ("RetryError[<Future at 0x" ++ addr ++ " state=finished raised "
                 ++ class_name e ++ ">]")).
Proof.
  split; [|split].
  - intros. apply cua_step_failed. unfold CuaAgent.take_action.
    eapply retry_exhausted; eassumption.
  - intros. apply claude_step_failed. unfold ClaudeAgent.take_action.
    eapply retry_exhausted; eassumption.
  - intros. split; reflexivity.
Qed.

Lemma retry_exhaustion_marks_failed_witness :
  exists s5,
    CuaAgent.step_loop Fixtures.future_addr Fixtures.model_down 30 0
      (Fixtures.start [])
    = (inr tt,
       failed_with Fixtures.future_addr (RetryError Fixtures.api_down) s5).
Proof.
  destruct (retry_exhaustion_marks_failed Fixtures.future_addr 29 0)
    as (H & _).
  eexists.
  eapply (H Fixtures.model_down (Fixtures.start [])); reflexivity.
Defined.

(** C6 as worded fails: with a model call that raises [APIError("boom")] on
    every attempt, the task ends [FAILED] and its error field holds the
    text of the [RetryError] wrapper, not the root cause's text. *)
Lemma wrapped_error_counterexample :
  let run := CuaAgent.solve_task Fixtures.future_addr "open the browser"
               Fixtures.model_down 30 (Fixtures.start []) in
  status (task (snd run)) = FAILED
  /\ error (task (snd run))
     = Some "RetryError[<Future at 0x7f3a5c0d2e80 state=finished raised APIError>]"
  /\ str_exn Fixtures.future_addr Fixtures.api_down = "boom"
  /\ error (task (snd run))
     <> Some (str_exn Fixtures.future_addr Fixtures.api_down).
Proof. vm_compute. repeat split. discriminate. Qed.

(** *** An action name the dialect does not have *)

Lemma claude_unknown_attempt (addr : string) (w : ClaudeAgent.Env)
    (s : State (list Claude.message)) (n : string) :
  asks_for w n -> Claude.assoc Claude.action_mapping n = None ->
  status (task s) = IN_PROGRESS ->
  exists s1,
    ClaudeAgent.take_action_body addr w s = (inl (KeyError n), s1)
    /\ status (task s1) = IN_PROGRESS
    /\ model_calls (log s1) = (model_calls (log s) ++ [EvModelCall])%list
    /\ dispatches (log s1) = dispatches (log s)
    /\ records (log s1) = records (log s).
Proof.
  intros (Hr & response & pre & id & input & rest & Hc & Hne & Hp & Hpre & Ha)
    Hn Hs.
  eexists. split.
  - apply (claude_unknown_action addr w s IN_PROGRESS) with (response := response)
      (id := id) (input := input) (pre := pre) (rest := rest);
      try discriminate; try assumption;
      [now apply polled_in_progress | apply Hc].
  - unfold dispatches, model_calls, records, after_poll.
    cbn [log task status error].
    rewrite !filter_app, !filter_poll_events, !filter_text_posts by reflexivity.
    cbn [filter is_model_call is_dispatch is_record app].
    rewrite !app_nil_r. repeat split.
Qed.

(** C2, as amended.  No dialect treats an unrecognised action name as an
    error that is not retried.  The qwen parser raises nothing: it returns
    the action under its unrecognised name with no parameters.  The CUA
    parser returns no action.  In the Claude step the look-up in
    [action_mapping] raises [KeyError]; like every error of a step it is
    retried.  When on every attempt the first [tool_use] block of the
    response asks for that name (texts may come before it, and are
    posted), the model is called on each of the five attempts, nothing is
    dispatched or recorded, and the task then goes to [FAILED] with the
    text of the [RetryError]. *)
Theorem unknown_action_name (addr : string) (thought : option string)
    (n : string) (args : dict) (m i : nat) :
  (~ In n Qwen.recognized ->
   dict_find args "action" = Some (JStr n) ->
   Qwen.parse_tool_calls thought [Fixtures.tool_call args]
   = ok [mkAction n []])
  /\ (~ In n Cua.recognized -> Cua.parse_action n args = ok None)
  /\ (forall (world : nat -> nat -> ClaudeAgent.Env)
             (s : State (list Claude.message)),
      Claude.assoc Claude.action_mapping n = None ->
      status (task s) = IN_PROGRESS ->
      (forall k, asks_for (world i k) n) ->
      exists s',
        ClaudeAgent.step_loop addr world (S m) i s = (inr tt, s')
        /\ status (task s') = FAILED
        /\ error (task s') = Some (str_exn addr (RetryError (KeyError n)))
        /\ model_calls (log s')
           = (model_calls (log s) ++ repeat EvModelCall 5)%list
        /\ dispatches (log s') = dispatches (log s)
        /\ records (log s') = records (log s)).
Proof.
  split; [|split].
  - intros Hn Ha. cbn [Qwen.parse_tool_calls]. unfold Fixtures.tool_call.
    rewrite (ParserFacts.qwen_tool_call_runs thought _ args n n []);
      try reflexivity; [exact Ha | now apply ParserFacts.qwen_unrecognized].
  - apply ParserFacts.cua_unrecognized.
  - intros world s Hn Hs Hw.
    destruct (claude_unknown_attempt addr (world i 1%nat) s n (Hw _) Hn Hs)
      as (s1 & B1 & S1 & M1 & D1 & R1).
    destruct (claude_unknown_attempt addr (world i 2%nat) s1 n (Hw _) Hn S1)
      as (s2 & B2 & S2 & M2 & D2 & R2).
    destruct (claude_unknown_attempt addr (world i 3%nat) s2 n (Hw _) Hn S2)
      as (s3 & B3 & S3 & M3 & D3 & R3).
    destruct (claude_unknown_attempt addr (world i 4%nat) s3 n (Hw _) Hn S3)
      as (s4 & B4 & S4 & M4 & D4 & R4).
    destruct (claude_unknown_attempt addr (world i 5%nat) s4 n (Hw _) Hn S4)
      as (s5 & B5 & S5 & M5 & D5 & R5).
    exists (failed_with addr (RetryError (KeyError n)) s5).
    split.
    { apply claude_step_failed. unfold ClaudeAgent.take_action.
      eapply retry_exhausted; eassumption. }
    split; [reflexivity|]. split; [reflexivity|].
    unfold model_calls, dispatches, records, failed_with in *. cbn [log].
    rewrite !filter_app. simpl. rewrite !app_nil_r.
    rewrite M5, M4, M3, M2, M1, D5, D4, D3, D2, D1, R5, R4, R3, R2, R1.
    split; [|split; reflexivity]. simpl. now rewrite <- !app_assoc.
Qed.

Lemma unknown_action_name_witness :
  Qwen.parse_tool_calls (Some "Let's go") [Fixtures.teleport_call]
  = ok [mkAction "teleport" []]
  /\ Cua.parse_action "teleport" [] = ok None
  /\ exists s',
       ClaudeAgent.step_loop Fixtures.future_addr
         (fun _ _ => Fixtures.claude_env Fixtures.teleport_after_text) 30 0
         (Fixtures.start Fixtures.first_history)
       = (inr tt, s')
       /\ status (task s') = FAILED
       /\ dispatches (log s') = [].
Proof.
  destruct (unknown_action_name Fixtures.future_addr (Some "Let's go")
              "teleport" [("action", JStr "teleport")] 29 0)
    as (Hq & Hc & Hcl).
  split; [|split].
  - apply Hq; [|reflexivity]. simpl. intuition discriminate.
  - destruct (unknown_action_name Fixtures.future_addr None "teleport" [] 0 0)
      as (_ & Hc' & _).
    apply Hc'. simpl. intuition discriminate.
  - destruct (Hcl (fun _ _ => Fixtures.claude_env Fixtures.teleport_after_text)
                (Fixtures.start Fixtures.first_history) eq_refl eq_refl)
      as (s' & E & St & _ & _ & D & _).
    + intros k. split; [reflexivity|].
      exists Fixtures.teleport_after_text,
        [Claude.BText "I will jump to the settings page."], "toolu_01",
        [("action", JStr "teleport")], [].
      repeat split; try reflexivity. discriminate.
    + exists s'. split; [exact E|]. split; [exact St | exact D].
Defined.

(** C2 as worded fails.  The qwen parser raises nothing on [teleport]: it
    returns the action as named.  The Claude step raises [KeyError], and
    the error is retried: with one step allowed the model is called five
    times before the task fails. *)
Lemma unknown_action_counterexample :
  let run := ClaudeAgent.solve_task Fixtures.future_addr "open the browser"
               (fun _ _ => Fixtures.claude_env Fixtures.teleport_response) 1
               (Fixtures.start []) in
  Qwen.parse_tool_call (Some "Let's go") Fixtures.teleport_call
  = ok (mkAction "teleport" [])
  /\ fst (ClaudeAgent.take_action_body Fixtures.future_addr
            (Fixtures.claude_env Fixtures.teleport_response)
            (Fixtures.start Fixtures.first_history))
     = inl (KeyError "teleport")
  /\ List.length (model_calls (log (snd run))) = 5%nat
  /\ status (task (snd run)) = FAILED.
Proof. vm_compute. repeat split. Qed.

End LoopFacts.

(* ===================================================================== *)
(** ** Further properties of the context trimmer *)
(* ===================================================================== *)

Module TrimmerBounds.
Import Py Claude TrimmerFacts.

(** A history without tool-result images passes through untouched, whatever
    the counter. *)
Lemma trim_parts_no_images (ps : list part) (n : Z) :
  filter is_image ps = [] -> trim_parts n ps = (ps, n).
Proof.
  induction ps as [|p ps IH]; simpl; [reflexivity|].
  destruct (is_image p); simpl; [discriminate|].
  intros H. now rewrite (IH H).
Qed.

Lemma trim_blocks_no_images (bs : list block) (n : Z) :
  flat_map images_of_block bs = [] -> trim_blocks n bs = (bs, n).
Proof.
  induction bs as [|b bs IH]; simpl; [reflexivity|].
  intros H. apply app_eq_nil in H. destruct H as [Hb Hbs].
  assert (E : trim_block n b = (b, n)).
  { destruct b as [t|id input|id c|d]; simpl; try reflexivity.
    destruct c as [|s|ps]; simpl; try reflexivity.
    simpl in Hb. now rewrite (trim_parts_no_images ps n Hb). }
  now rewrite E, (IH Hbs).
Qed.

Lemma trim_messages_no_images (ms : list message) (n : Z) :
  images_of ms = [] -> trim_messages n ms = (ms, n).
Proof.
  unfold images_of. induction ms as [|m ms IH]; simpl; [reflexivity|].
  intros H. apply app_eq_nil in H. destruct H as [Hm Hms].
  assert (E : trim_message n m = (m, n)).
  { destruct m as [r c]. unfold trim_message, images_of_message in *; simpl in *.
    destruct c as [s|bs]; [reflexivity|].
    now rewrite (trim_blocks_no_images bs n Hm). }
  now rewrite E, (IH Hms).
Qed.

(** After a trim the rounded count of the result is not positive, unless no
    image is left. *)
Lemma nothing_left_to_remove (total keep thr : Z) :
  0 < thr ->
  let n := images_to_remove total keep thr in
  images_to_remove (total - n) keep thr = 0.
Proof.
  intros Hthr n. subst n. unfold images_to_remove.
  pose proof (Z.div_mod (total - keep) thr ltac:(lia)) as Hdm.
  pose proof (Z.mod_pos_bound (total - keep) thr Hthr) as Hb.
  replace (total - (total - keep - (total - keep) mod thr) - keep)
    with ((total - keep) mod thr) by lia.
  rewrite Z.mod_mod by lia. lia.
Qed.

(** Trimming is idempotent: a history that went through the trimmer is
    returned unchanged when it goes through again with the same settings. *)
Theorem trimmer_idempotent (ms ms' : list message) (keep thr : Z) :
  0 < thr ->
  _maybe_filter_to_n_most_recent_images ms keep thr = ok ms' ->
  _maybe_filter_to_n_most_recent_images ms' keep thr = ok ms'.
Proof.
  intros Hthr H.
  destruct (Z.eq_dec keep 0) as [->|Hk].
  { reflexivity. }
  rewrite filter_runs in H by lia. injection H as <-.
  rewrite filter_runs by lia. f_equal.
  set (total := total_images ms). set (n := images_to_remove total keep thr).
  destruct (trim_messages_spec ms n) as (Him & _ & _).
  destruct (Z_le_gt_dec n 0) as [Hn|Hn].
  { rewrite (trim_messages_nonpositive ms n Hn). simpl. fold total. fold n.
    now rewrite (trim_messages_nonpositive ms n Hn). }
  destruct (Z_le_gt_dec total n) as [Hall|Hsome].
  - assert (E : images_of (fst (trim_messages n ms)) = []).
    { rewrite Him. apply skipn_all2. unfold total, total_images in Hall. lia. }
    now rewrite trim_messages_no_images.
  - assert (E : total_images (fst (trim_messages n ms)) = total - n).
    { unfold total_images at 1. rewrite Him, length_skipn.
      unfold total, total_images in *. lia. }
    pose proof (nothing_left_to_remove total keep thr Hthr) as Hz.
    cbv zeta in Hz. fold n in Hz.
    rewrite E, Hz.
    now rewrite trim_messages_nonpositive by lia.
Qed.

Lemma trimmer_idempotent_witness :
  exists ms',
    _maybe_filter_to_n_most_recent_images Fixtures.ten_shots 3 2 = ok ms'
    /\ _maybe_filter_to_n_most_recent_images ms' 3 2 = ok ms'.
Proof.
  eexists. split; [reflexivity|].
  apply (trimmer_idempotent Fixtures.ten_shots _ 3 2); [lia | reflexivity].
Defined.

(** The trimmer is an approximate cap: with a positive keep count and a
    positive threshold it never leaves fewer images than
    [min(total, images_to_keep)], never more than there were, and, once the
    history holds at least [images_to_keep] images, fewer than
    [images_to_keep + min_removal_threshold]. *)
Theorem trimmer_keeps_between (ms ms' : list message) (keep thr : Z) :
  0 < keep -> 0 < thr ->
  _maybe_filter_to_n_most_recent_images ms keep thr = ok ms' ->
  Z.min (total_images ms) keep <= total_images ms' <= total_images ms
  /\ (keep <= total_images ms -> keep <= total_images ms' < keep + thr).
Proof.
  intros Hk Hthr H.
  rewrite filter_runs in H by lia. injection H as <-.
  set (total := total_images ms). set (n := images_to_remove total keep thr).
  destruct (trim_messages_spec ms n) as (Him & _ & _).
  destruct (images_to_remove_round_down total keep thr Hthr) as (_ & Hlo & Hhi).
  fold n in Hlo, Hhi.
  assert (E : total_images (fst (trim_messages n ms)) = total - Z.max 0 n).
  { unfold total_images at 1. rewrite Him, length_skipn.
    unfold total, total_images in *. lia. }
  rewrite E. lia.
Qed.

Lemma trimmer_keeps_between_witness :
  exists ms',
    _maybe_filter_to_n_most_recent_images Fixtures.ten_shots 3 2 = ok ms'
    /\ 3 <= total_images ms' < 3 + 2.
Proof.
  eexists. split; [reflexivity|].
  apply (trimmer_keeps_between Fixtures.ten_shots _ 3 2);
    [lia | lia | reflexivity | vm_compute; discriminate].
Defined.

End TrimmerBounds.

(* ===================================================================== *)
(** ** Further properties of the Claude parameter mapping *)
(* ===================================================================== *)

Module ParamFacts.
Import Py Claude Chars.

(** *** The dictionary operations *)

Lemma dict_find_set_same (d : dict) (k : string) (v : json) :
  dict_find (dict_set d k v) k = Some v.
Proof.
  induction d as [|[k' v'] d IH]; simpl.
  - now rewrite String.eqb_refl.
  - destruct (String.eqb k' k) eqn:E; simpl.
    + now rewrite String.eqb_refl.
    + now rewrite E.
Qed.

Lemma dict_find_set_other (d : dict) (k k0 : string) (v : json) :
  k0 <> k -> dict_find (dict_set d k v) k0 = dict_find d k0.
Proof.
  intros Hne. induction d as [|[k' v'] d IH]; simpl.
  - destruct (String.eqb_spec k k0); [congruence | reflexivity].
  - destruct (String.eqb_spec k' k) as [->|Hk]; simpl.
    + destruct (String.eqb_spec k k0); [congruence | reflexivity].
    + destruct (String.eqb k' k0); [reflexivity | exact IH].
Qed.

Lemma dict_find_del_same (d : dict) (k : string) :
  dict_find (dict_del d k) k = None.
Proof.
  induction d as [|[k' v'] d IH]; simpl; [reflexivity|].
  destruct (String.eqb k' k) eqn:E; simpl; [exact IH | now rewrite E].
Qed.

Lemma dict_find_del_other (d : dict) (k k0 : string) :
  k0 <> k -> dict_find (dict_del d k) k0 = dict_find d k0.
Proof.
  intros Hne. induction d as [|[k' v'] d IH]; simpl; [reflexivity|].
  destruct (String.eqb_spec k' k) as [->|Hk]; simpl.
  - destruct (String.eqb_spec k k0); [congruence | exact IH].
  - destruct (String.eqb k' k0); [reflexivity | exact IH].
Qed.

(** *** Coordinates *)

(** For [move_mouse] and [drag_mouse], a [coordinate] of at least two items
    is replaced by [x] and [y], its first two items, and every other
    parameter stays; a [coordinate] with fewer than two items raises
    [IndexError]; and for an action that is none of [move_mouse],
    [drag_mouse], [hot_key], [press_key] the parameters come back as they
    are, a [coordinate] included. *)
Theorem coordinate_expansion (action_name : string) (params : dict) :
  (forall x y more,
     action_name = "move_mouse" \/ action_name = "drag_mouse" ->
     dict_find params "coordinate" = Some (JList (x :: y :: more)) ->
     exists p,
       _get_mapped_action_params action_name params = ok p
       /\ dict_find p "x" = Some x /\ dict_find p "y" = Some y
       /\ dict_find p "coordinate" = None
       /\ forall k, k <> "x" -> k <> "y" -> k <> "coordinate" ->
                    dict_find p k = dict_find params k)
  /\ (forall short,
      action_name = "move_mouse" \/ action_name = "drag_mouse" ->
      dict_find params "coordinate" = Some (JList short) ->
      (List.length short < 2)%nat ->
      _get_mapped_action_params action_name params
      = throw (IndexError "list index out of range"))
  /\ (action_name <> "move_mouse" -> action_name <> "drag_mouse" ->
      action_name <> "hot_key" -> action_name <> "press_key" ->
      _get_mapped_action_params action_name params = ok params).
Proof.
  split; [|split].
  - intros x y more Hn Hc.
    exists (dict_del (dict_set (dict_set params "x" x) "y" y) "coordinate").
    split.
    + unfold _get_mapped_action_params, dict_has, dict_get.
      destruct Hn as [-> | ->]; simpl; rewrite Hc; reflexivity.
    + repeat split.
      * rewrite dict_find_del_other, dict_find_set_other, dict_find_set_same;
          [reflexivity | discriminate | discriminate].
      * rewrite dict_find_del_other, dict_find_set_same;
          [reflexivity | discriminate].
      * apply dict_find_del_same.
      * intros k Hx Hy Hcoord.
        now rewrite dict_find_del_other, !dict_find_set_other.
  - intros short Hn Hc Hlen.
    unfold _get_mapped_action_params, dict_has, dict_get.
    destruct short as [|x [|y more]]; simpl in Hlen; try lia;
      destruct Hn as [-> | ->]; simpl; rewrite Hc; reflexivity.
  - intros H1 H2 H3 H4. unfold _get_mapped_action_params.
    apply String.eqb_neq in H1, H2, H3, H4. rewrite H1, H2, H3, H4.
    simpl. now destruct (String.eqb action_name "screenshot").
Qed.

Lemma coordinate_expansion_witness :
  (exists p,
     _get_mapped_action_params "move_mouse"
       [("coordinate", JList [JInt 100; JInt 200])] = ok p
     /\ dict_find p "x" = Some (JInt 100) /\ dict_find p "y" = Some (JInt 200))
  /\ _get_mapped_action_params "drag_mouse" [("coordinate", JList [JInt 7])]
     = throw (IndexError "list index out of range")
  /\ _get_mapped_action_params "click" [("coordinate", JList [JInt 1; JInt 2])]
     = ok [("coordinate", JList [JInt 1; JInt 2])].
Proof.
  split; [|split].
  - destruct (coordinate_expansion "move_mouse"
                [("coordinate", JList [JInt 100; JInt 200])]) as (H & _).
    destruct (H (JInt 100) (JInt 200) [] (or_introl eq_refl) eq_refl)
      as (p & E & Hx & Hy & _).
    exists p. repeat split; assumption.
  - destruct (coordinate_expansion "drag_mouse"
                [("coordinate", JList [JInt 7])]) as (_ & H & _).
    apply (H [JInt 7] (or_intror eq_refl) eq_refl). simpl. lia.
  - destruct (coordinate_expansion "click"
                [("coordinate", JList [JInt 1; JInt 2])]) as (_ & _ & H).
    apply H; discriminate.
Defined.

(** *** Hot keys *)

Lemma split_char_length (c : ascii) (s : string) :
  List.length (split_char c s) = S (count_char c s).
Proof.
  induction s as [|a s IH]; simpl; [reflexivity|].
  destruct (Ascii.eqb a c); simpl; [now rewrite IH|].
  destruct (split_char c s); simpl in *; [discriminate | exact IH].
Qed.

Lemma split_char_pieces (c : ascii) (s : string) :
  Forall (fun w => has_char c w = false) (split_char c s).
Proof.
  induction s as [|a s IH]; simpl.
  - constructor; [reflexivity | constructor].
  - destruct (Ascii.eqb_spec a c) as [->|Hne].
    + constructor; [reflexivity | exact IH].
    + destruct (split_char c s) as [|w ws].
      * constructor; [|constructor]. unfold has_char; simpl.
        destruct (Ascii.eqb_spec c a); [congruence | reflexivity].
      * inversion IH as [|? ? Hw Hws]; subst. constructor; [|assumption].
        unfold has_char in *; simpl.
        destruct (Ascii.eqb_spec c a); [congruence | exact Hw].
Qed.

Lemma has_char_lstrip (c : ascii) (s : string) :
  has_char c s = false -> has_char c (lstrip s) = false.
Proof.
  induction s as [|a s IH]; simpl; [trivial|].
  destruct (is_space a); [|trivial].
  unfold has_char in *; simpl. intros H.
  apply orb_false_iff in H. now apply IH.
Qed.

Lemma has_char_rstrip (c : ascii) (s : string) :
  has_char c s = false -> has_char c (rstrip s) = false.
Proof.
  induction s as [|a s IH]; simpl; [trivial|].
  unfold has_char in *; simpl. intros H.
  apply orb_false_iff in H. destruct H as [Ha Hs]. specialize (IH Hs).
  destruct (rstrip s) as [|b r].
  - destruct (is_space a); simpl; [reflexivity | now rewrite Ha].
  - simpl in *. now rewrite Ha.
Qed.

Lemma lower_ascii_plus (a : ascii) :
  Ascii.eqb "+" (lower_ascii a) = Ascii.eqb "+" a.
Proof. destruct a as [[] [] [] [] [] [] [] []]; reflexivity. Qed.

Lemma has_char_lower (s : string) :
  has_char "+" (lower s) = has_char "+" s.
Proof.
  unfold has_char. induction s as [|a s IH]; [reflexivity|].
  cbn [lower list_ascii_of_string existsb].
  now rewrite lower_ascii_plus, IH.
Qed.

Lemma has_char_remove (c d : ascii) (s : string) :
  has_char c s = false -> has_char c (remove_char d s) = false.
Proof.
  unfold has_char. induction s as [|a s IH]; simpl; [trivial|].
  intros H. apply orb_false_iff in H. destruct H as [Ha Hs].
  destruct (Ascii.eqb a d); simpl; [now apply IH|].
  rewrite Ha. now apply IH.
Qed.

(** A [hot_key] text gives one key more than it holds [+] signs, and no key
    holds a [+]: the plus key itself cannot be asked for, and an empty text
    still gives one (empty) key. *)
Theorem hot_key_pieces (text : string) :
  List.length (hot_key_keys text) = S (count_char "+" text)
  /\ Forall (fun k => has_char "+" k = false) (hot_key_keys text).
Proof.
  unfold hot_key_keys. split.
  - now rewrite !length_map, split_char_length.
  - rewrite map_map. apply Forall_map.
    eapply Forall_impl; [|apply (split_char_pieces "+" text)].
    intros w Hw. cbv beta. apply has_char_remove.
    rewrite has_char_lower. unfold strip.
    now apply has_char_rstrip, has_char_lstrip.
Qed.

End ParamFacts.

(* ===================================================================== *)
(** ** Further properties of the CUA parser *)
(* ===================================================================== *)

Module CuaParserFacts.
Import Py Chars.

(** [drag] goes to the second point of its path when there is one, whatever
    follows it, and to the only point otherwise; an empty path raises
    [IndexError]. *)
Theorem drag_target (args : dict) :
  (forall first second more x y,
     dict_find args "path" = Some (JList (first :: second :: more)) ->
     subscript_key second "x" = ok x -> subscript_key second "y" = ok y ->
     Cua.parse_action "drag" args
     = ok (Some (mkAction "drag_mouse" [("x", x); ("y", y)])))
  /\ (forall only x y,
      dict_find args "path" = Some (JList [only]) ->
      subscript_key only "x" = ok x -> subscript_key only "y" = ok y ->
      Cua.parse_action "drag" args
      = ok (Some (mkAction "drag_mouse" [("x", x); ("y", y)])))
  /\ (dict_find args "path" = Some (JList []) ->
      Cua.parse_action "drag" args = throw (IndexError "list index out of range")).
Proof.
  split; [|split].
  - intros first second more x y Hp Hx Hy.
    unfold Cua.parse_action, dict_get; simpl. rewrite Hp; simpl.
    now rewrite Hx, Hy.
  - intros only x y Hp Hx Hy.
    unfold Cua.parse_action, dict_get; simpl. rewrite Hp; simpl.
    now rewrite Hx, Hy.
  - intros Hp. unfold Cua.parse_action, dict_get; simpl. now rewrite Hp.
Qed.

Lemma drag_target_witness :
  Cua.parse_action "drag"
    [("path", JList [JDict [("x", JInt 24); ("y", JInt 150)];
                     JDict [("x", JInt 100); ("y", JInt 200)];
                     JDict [("x", JInt 300); ("y", JInt 400)]])]
  = ok (Some (mkAction "drag_mouse" [("x", JInt 100); ("y", JInt 200)]))
  /\ Cua.parse_action "drag"
       [("path", JList [JDict [("x", JInt 24); ("y", JInt 150)]])]
     = ok (Some (mkAction "drag_mouse" [("x", JInt 24); ("y", JInt 150)]))
  /\ Cua.parse_action "drag" [("path", JList [])]
     = throw (IndexError "list index out of range").
Proof.
  split; [|split].
  - eapply (proj1 (drag_target _)); reflexivity.
  - eapply (proj1 (proj2 (drag_target _))); reflexivity.
  - apply (proj2 (proj2 (drag_target _))). reflexivity.
Defined.

(** [wait] turns milliseconds into whole seconds, rounding down, so that a
    wait of less than a second becomes a wait of zero seconds; without [ms]
    it waits one second. *)
Theorem wait_seconds (args : dict) :
  (forall ms,
     dict_find args "ms" = Some (JInt ms) ->
     Cua.parse_action "wait" args
     = ok (Some (mkAction "wait" [("seconds", JInt (ms / 1000))]))
     /\ (0 <= ms -> 1000 * (ms / 1000) <= ms < 1000 * (ms / 1000) + 1000)
     /\ (0 <= ms < 1000 -> ms / 1000 = 0))
  /\ (dict_find args "ms" = None ->
      Cua.parse_action "wait" args
      = ok (Some (mkAction "wait" [("seconds", JInt 1)]))).
Proof.
  split.
  - intros ms H. split; [|split].
    + unfold Cua.parse_action, dict_has, dict_get; simpl. now rewrite H.
    + intros _. pose proof (Z.div_mod ms 1000 ltac:(lia)).
      pose proof (Z.mod_pos_bound ms 1000 ltac:(lia)). lia.
    + intros Hms. now apply Z.div_small.
  - intros H. unfold Cua.parse_action, dict_has; simpl. now rewrite H.
Qed.

Lemma wait_seconds_witness :
  Cua.parse_action "wait" [("ms", JInt 500)]
  = ok (Some (mkAction "wait" [("seconds", JInt (500 / 1000))]))
  /\ Cua.parse_action "wait" [] = ok (Some (mkAction "wait" [("seconds", JInt 1)])).
Proof.
  split.
  - apply (proj1 (wait_seconds [("ms", JInt 500)]) 500). reflexivity.
  - apply (proj2 (wait_seconds [])). reflexivity.
Defined.

(** *** Key names *)

Lemma lower_ascii_idempotent (c : ascii) :
  lower_ascii (lower_ascii c) = lower_ascii c.
Proof. destruct c as [[] [] [] [] [] [] [] []]; reflexivity. Qed.

Lemma lower_idempotent (s : string) : lower (lower s) = lower s.
Proof.
  induction s as [|c s IH]; simpl; [reflexivity|].
  now rewrite lower_ascii_idempotent, IH.
Qed.

Lemma lower_no_upper (s : string) : no_upper (lower s) = true.
Proof.
  unfold no_upper. rewrite ParserFacts.chars_lower.
  apply forallb_forall. intros c Hc. apply in_map_iff in Hc.
  destruct Hc as (c0 & <- & _).
  now rewrite ParserFacts.lower_ascii_not_upper.
Qed.

Lemma assoc_in (l : list (string * string)) (k v : string) :
  Claude.assoc l k = Some v -> In v (map snd l).
Proof.
  induction l as [|[k' v'] l IH]; simpl; [discriminate|].
  destruct (String.eqb k' k); [intros [= ->]; now left | intros H; right; auto].
Qed.

(** On ASCII key names the key mapping of [keypress] ignores the case of its
    input, never yields an upper-case letter (its output is ASCII again,
    without a letter from A to Z), and is idempotent: a key that went
    through it once goes through again unchanged. *)
Theorem map_key_canonical (key : string) :
  ascii_only key = true ->
  Cua.map_key (lower key) = Cua.map_key key
  /\ ascii_only (Cua.map_key key) = true
  /\ no_upper (Cua.map_key key) = true
  /\ Cua.map_key (Cua.map_key key) = Cua.map_key key.
Proof.
  intros Hascii.
  assert (Values : forallb (fun v => (no_upper v && ascii_only v
                                      && String.eqb (Cua.map_key v) v)%bool)
                     (map snd Cua.CUA_KEY_TO_AGENTDESK_KEY) = true)
    by reflexivity.
  rewrite forallb_forall in Values.
  assert (Cases : In (Cua.map_key key) (map snd Cua.CUA_KEY_TO_AGENTDESK_KEY)
                  \/ Cua.map_key key = lower key).
  { unfold Cua.map_key.
    destruct (Claude.assoc Cua.CUA_KEY_TO_AGENTDESK_KEY (lower key)) as [v|] eqn:E;
      [left; now apply assoc_in in E | now right]. }
  assert (Case : Cua.map_key (lower key) = Cua.map_key key).
  { unfold Cua.map_key. now rewrite lower_idempotent. }
  split; [exact Case|]. split; [|split].
  - destruct Cases as [Hin|Heq].
    + apply Values in Hin. apply andb_true_iff in Hin as [Hin _].
      now apply andb_true_iff in Hin.
    + rewrite Heq, ParserFacts.ascii_only_lower. exact Hascii.
  - destruct Cases as [Hin|Heq].
    + apply Values in Hin. apply andb_true_iff in Hin as [Hin _].
      now apply andb_true_iff in Hin.
    + rewrite Heq. apply lower_no_upper.
  - destruct Cases as [Hin|Heq].
    + apply Values in Hin. apply andb_true_iff in Hin. destruct Hin as [_ E].
      now apply String.eqb_eq in E.
    + rewrite Heq at 1. rewrite Case. reflexivity.
Qed.

Lemma map_key_canonical_witness :
  Cua.map_key (Cua.map_key "ArrowDown") = Cua.map_key "ArrowDown"
  /\ no_upper (Cua.map_key "ArrowDown") = true.
Proof.
  destruct (map_key_canonical "ArrowDown" eq_refl) as (_ & _ & U & I).
  split; [exact I | exact U].
Defined.

(** *** Missing keys and defaults *)

(** Every CUA action type that reads a key raises [KeyError] with that key
    when the payload lacks it; a [click] with [x] and [y] but no [button]
    is a left click, and a given [button] is passed on as it is. *)
Theorem cua_missing_key (args : dict) :
  (forall action_type key,
     In (action_type, key) Required.cua_first_key ->
     dict_find args key = None ->
     Cua.parse_action action_type args = throw (KeyError key))
  /\ (forall x y,
      dict_find args "x" = Some x -> dict_find args "y" = Some y ->
      dict_find args "button" = None ->
      Cua.parse_action "click" args
      = ok (Some (mkAction "click"
                    [("x", x); ("y", y); ("button", JStr "left")])))
  /\ (forall x y b,
      dict_find args "x" = Some x -> dict_find args "y" = Some y ->
      dict_find args "button" = Some b ->
      Cua.parse_action "click" args
      = ok (Some (mkAction "click" [("x", x); ("y", y); ("button", b)]))).
Proof.
  split; [|split].
  - intros action_type key Hin Hk. simpl in Hin.
    repeat (destruct Hin as [[= <- <-]|Hin];
            [unfold Cua.parse_action, dict_get; simpl; now rewrite Hk|]).
    contradiction.
  - intros x y Hx Hy Hb.
    unfold Cua.parse_action, dict_has, dict_get; simpl.
    now rewrite Hx, Hy, Hb.
  - intros x y b Hx Hy Hb.
    unfold Cua.parse_action, dict_has, dict_get; simpl.
    now rewrite Hx, Hy, Hb.
Qed.

Lemma cua_missing_key_witness :
  Cua.parse_action "click" [("y", JInt 3)] = throw (KeyError "x")
  /\ Cua.parse_action "click" [("x", JInt 2); ("y", JInt 3)]
     = ok (Some (mkAction "click"
                   [("x", JInt 2); ("y", JInt 3); ("button", JStr "left")])).
Proof.
  split.
  - apply (proj1 (cua_missing_key [("y", JInt 3)]) "click" "x");
      [simpl; tauto | reflexivity].
  - apply (proj1 (proj2 (cua_missing_key [("x", JInt 2); ("y", JInt 3)])));
      reflexivity.
Defined.

End CuaParserFacts.

(* ===================================================================== *)
(** ** Further properties of the qwen parser *)
(* ===================================================================== *)

Module QwenParserFacts.
Import Py Chars Raises Predicates ParserFacts.

(** *** Which exceptions the parser raises *)

Lemma nu_ok {A} (a : A) : never_unbound (ok a).
Proof. intros e H. discriminate H. Qed.

Lemma nu_rbind {A B} (m : res A) (f : A -> res B) :
  never_unbound m -> (forall a, never_unbound (f a)) -> never_unbound (rbind m f).
Proof.
  intros Hm Hf e. destruct m as [e0|a]; simpl.
  - intros [= <-]. now apply Hm.
  - apply Hf.
Qed.

Lemma nu_dict_get (d : dict) (k : string) : never_unbound (dict_get d k).
Proof. unfold dict_get. intros e. destruct (dict_find d k); now intros [= <-]. Qed.

Lemma nu_subscript_key (v : json) (k : string) : never_unbound (subscript_key v k).
Proof.
  destruct v; simpl; try (intros e [= <-]; reflexivity). apply nu_dict_get.
Qed.

Lemma nu_subscript_idx (v : json) (i : nat) : never_unbound (subscript_idx v i).
Proof.
  destruct v as [| | |s|l|d]; simpl; try (intros e [= <-]; reflexivity).
  - destruct (String.get i s); intros e [= <-]; reflexivity.
  - destruct (nth_error l i); intros e [= <-]; reflexivity.
Qed.

Lemma nu_floordiv (v : json) (n : Z) : never_unbound (floordiv v n).
Proof. destruct v; simpl; intros e [= <-]; reflexivity. Qed.

Lemma nu_concat_str (a : string) (v : json) : never_unbound (Qwen.concat_str a v).
Proof. destruct v; simpl; intros e [= <-]; reflexivity. Qed.

Lemma nu_xy_of (args p : dict) : never_unbound (Qwen.xy_of args p).
Proof.
  unfold Qwen.xy_of.
  repeat first [ apply nu_rbind; [|intros ?] | apply nu_dict_get
               | apply nu_subscript_idx | apply nu_ok ].
Qed.

Lemma nu_xy_if_present (args p : dict) : never_unbound (Qwen.xy_if_present args p).
Proof.
  unfold Qwen.xy_if_present. destruct (dict_has args "coordinate");
    [apply nu_xy_of | apply nu_ok].
Qed.

Lemma nu_map_action (t n : string) (args : dict) :
  never_unbound (Qwen.map_action (Some t) n args).
Proof.
  unfold Qwen.map_action.
  repeat match goal with
  | |- never_unbound (if ?b then _ else _) => destruct b
  end;
  repeat first [ apply nu_xy_of | apply nu_xy_if_present
               | apply nu_rbind; [|intros ?] | apply nu_dict_get
               | apply nu_floordiv | apply nu_concat_str | apply nu_ok
               | progress cbv beta iota ].
Qed.

Lemma nu_parse_tool_call (t : string) (j : json) :
  never_unbound (Qwen.parse_tool_call (Some t) j).
Proof.
  unfold Qwen.parse_tool_call.
  apply nu_rbind; [apply nu_subscript_key | intros a].
  apply nu_rbind; [apply nu_subscript_key | intros an].
  destruct a; try (intros e [= <-]; reflexivity).
  destruct an; try (intros e [= <-]; reflexivity).
  apply nu_rbind; [apply nu_map_action | intros ?; apply nu_ok].
Qed.

Lemma nu_parse_tool_calls (t : string) (js : list json) :
  never_unbound (Qwen.parse_tool_calls (Some t) js).
Proof.
  induction js as [|j js IH]; simpl; [apply nu_ok|].
  apply nu_rbind; [apply nu_parse_tool_call | intros a].
  apply nu_rbind; [exact IH | intros ?; apply nu_ok].
Qed.

(** [parse_action] fails with [UnboundLocalError] exactly on the contents
    that hold no [<tool_call>] tag: with a tag in the content, whatever else
    goes wrong, that error is never the one raised. *)
Theorem unbound_iff_no_tag (loads : string -> json) (content : string) :
  (exists e, Qwen.parse_action loads content = inl e /\ is_unbound e = true)
  <-> ~ occurs "<tool_call>" content.
Proof.
  split.
  - intros (e & He & Hu) Hocc.
    destruct (find_first "<tool_call>" content) as [[before rest]|] eqn:E.
    + unfold Qwen.parse_action, Qwen.pre_tool_match in He. rewrite E in He.
      simpl in He.
      assert (N : never_unbound
                    (rbind (Qwen.parse_tool_calls (Some (strip before))
                              (map loads (map strip (Qwen.findall content))))
                       (fun output => ok (strip before, output)))).
      { apply nu_rbind; [apply nu_parse_tool_calls | intros ?; apply nu_ok]. }
      rewrite (N e He) in Hu. discriminate Hu.
    + apply (proj2 (not_occurs_iff _ _) E). exact Hocc.
  - intros H. exists (UnboundLocalError "thought"). split; [|reflexivity].
    apply not_occurs_iff in H.
    unfold Qwen.parse_action, Qwen.findall, Qwen.pre_tool_match.
    now rewrite (findall_without_tag content 0%nat H), H.
Qed.

(** *** A reply in the prompt's format *)

Lemma length_append (a b : string) :
  String.length (a ++ b) = (String.length a + String.length b)%nat.
Proof. induction a as [|c a IH]; simpl; [reflexivity | now rewrite IH]. Qed.

Lemma strip_prefix_mismatch (c a : ascii) (p s : string) :
  Ascii.eqb c a = false -> strip_prefix (String c p) (String a s) = None.
Proof. intros H. simpl. now rewrite H. Qed.

Lemma match_at_other_head (a : ascii) (s : string) :
  Ascii.eqb "<" a = false -> Qwen.match_at (String a s) = None.
Proof.
  intros H. unfold Qwen.match_at.
  change ("<tool_call>" ++ Qwen.nl) with (String "<" ("tool_call>" ++ Qwen.nl)).
  now rewrite (strip_prefix_mismatch _ _ _ _ H).
Qed.

Lemma findall_skips_text (pre rest : string) :
  has_char "<" pre = false ->
  Qwen.findall_from 0 (pre ++ rest) = Qwen.findall_from 0 rest.
Proof.
  unfold has_char. induction pre as [|a pre IH]; [reflexivity|].
  cbn [list_ascii_of_string existsb]. intros H.
  apply orb_false_iff in H. destruct H as [Ha Hpre].
  cbn [append Qwen.findall_from].
  rewrite (match_at_other_head a _ Ha). now apply IH.
Qed.

Lemma lazy_group_eq (s : string) :
  Qwen.lazy_group s
  = match Qwen.closing s with
    | Some n => Some (EmptyString, n)
    | None =>
        match s with
        | EmptyString => None
        | String c s' =>
            match Qwen.lazy_group s' with
            | Some (g, n) => Some (String c g, n)
            | None => None
            end
        end
    end.
Proof. destruct s; reflexivity. Qed.

Lemma closing_other_head (a : ascii) (s : string) :
  Ascii.eqb lf a = false -> Qwen.closing (String a s) = None.
Proof.
  intros H. unfold Qwen.closing, Qwen.nl.
  fold lf. now rewrite (strip_prefix_mismatch _ _ _ _ H).
Qed.

Lemma lazy_group_line (body tail : string) (n : nat) :
  has_char lf body = false -> Qwen.closing tail = Some n ->
  Qwen.lazy_group (body ++ tail) = Some (body, n).
Proof.
  unfold has_char. intros Hb Ht. induction body as [|a body IH].
  - cbn [append]. now rewrite lazy_group_eq, Ht.
  - cbn [list_ascii_of_string existsb] in Hb.
    apply orb_false_iff in Hb. destruct Hb as [Ha Hbody].
    cbn [append]. rewrite lazy_group_eq, (closing_other_head a _ Ha).
    now rewrite (IH Hbody).
Qed.

Lemma findall_short (s : string) : forall k : nat,
  (String.length s <= k)%nat -> Qwen.findall_from k s = [].
Proof.
  induction s as [|a s IH]; intros k Hk; [reflexivity|].
  simpl in Hk. destruct k as [|k]; [lia|].
  cbn [Qwen.findall_from]. apply IH. lia.
Qed.

Lemma find_first_after (c : ascii) (p pre rest : string) :
  has_char c pre = false ->
  find_first (String c p) (pre ++ String c p ++ rest) = Some (pre, rest).
Proof.
  unfold has_char. induction pre as [|a pre IH]; intros H.
  - change ("" ++ String c p ++ rest) with (String c p ++ rest).
    now rewrite find_first_eq, strip_prefix_self.
  - cbn [list_ascii_of_string existsb] in H.
    apply orb_false_iff in H. destruct H as [Ha Hpre].
    change ((String a pre) ++ String c p ++ rest)
      with (String a (pre ++ String c p ++ rest)).
    rewrite find_first_eq, (strip_prefix_mismatch _ _ _ _ Ha).
    now rewrite (IH Hpre).
Qed.

Lemma find_first_after_text (pre rest : string) :
  has_char "<" pre = false ->
  find_first "<tool_call>" (pre ++ "<tool_call>" ++ rest) = Some (pre, rest).
Proof. apply find_first_after. Qed.

(** An ASCII reply in the format the prompt asks for (text without [<],
    the opening tag, a line feed, one line of arguments, a line feed, the
    closing tag) parses to exactly that line as its one tool call and to the
    text, without the white space around it, as its thought. *)
Theorem single_call_round_trip (loads : string -> json) (pre body : string) :
  ascii_only pre = true -> ascii_only body = true ->
  has_char "<" pre = false -> has_char lf body = false ->
  let content := pre ++ "<tool_call>" ++ Qwen.nl ++ body ++ Qwen.nl
                     ++ "</tool_call>" in
  Qwen.findall content = [body]
  /\ Qwen.pre_tool_match content = Some pre
  /\ Qwen.parse_action loads content
     = rbind (Qwen.parse_tool_call (Some (strip pre)) (loads (strip body)))
         (fun a => ok (strip pre, [a])).
Proof.
  intros _ _ Hpre Hbody content.
  assert (F : Qwen.findall content = [body]).
  { unfold Qwen.findall, content. rewrite (findall_skips_text _ _ Hpre).
    set (tail := Qwen.nl ++ "</tool_call>").
    change ("<tool_call>" ++ Qwen.nl ++ body ++ tail)
      with (String "<" (("tool_call>" ++ Qwen.nl) ++ body ++ tail)).
    cbn [Qwen.findall_from].
    change (String "<" (("tool_call>" ++ Qwen.nl) ++ body ++ tail))
      with (("<tool_call>" ++ Qwen.nl) ++ body ++ tail).
    unfold Qwen.match_at. rewrite strip_prefix_self.
    rewrite (lazy_group_line body tail 13 Hbody eq_refl).
    f_equal. apply findall_short.
    rewrite !length_append. unfold tail. simpl. lia. }
  assert (P : Qwen.pre_tool_match content = Some pre).
  { unfold Qwen.pre_tool_match, content.
    now rewrite (find_first_after_text _ _ Hpre). }
  split; [exact F|]. split; [exact P|].
  unfold Qwen.parse_action. rewrite F, P. simpl.
  destruct (Qwen.parse_tool_call (Some (strip pre)) (loads (strip body)));
    reflexivity.
Qed.

Lemma single_call_round_trip_witness :
  Qwen.findall ("Let's click something" ++ Qwen.nl ++ "<tool_call>" ++ Qwen.nl
                ++ "{json}" ++ Qwen.nl ++ "</tool_call>")
  = ["{json}"].
Proof.
  apply (single_call_round_trip (fun _ => JNull)
           ("Let's click something" ++ Qwen.nl) "{json}"); reflexivity.
Defined.

(** *** A tool call that is not closed *)

Lemma strip_prefix_app_eq (p q s : string) :
  strip_prefix (p ++ q) s
  = match strip_prefix p s with
    | Some r => strip_prefix q r
    | None => None
    end.
Proof.
  revert s. induction p as [|a p IH]; intros s; simpl.
  - now destruct s.
  - destruct s as [|b s]; [reflexivity|].
    destruct (Ascii.eqb a b); [apply IH | reflexivity].
Qed.

Lemma find_first_head (p s : string) :
  find_first p s = None -> strip_prefix p s = None.
Proof.
  rewrite find_first_eq. now destruct (strip_prefix p s).
Qed.

Lemma find_first_suffix (p a s : string) :
  find_first p (a ++ s) = None -> find_first p s = None.
Proof.
  induction a as [|c a IH]; [trivial|].
  cbn [append]. intros H. apply find_first_cons_None in H. now apply IH.
Qed.

Lemma first_closer_None (cs : list string) (r : string) :
  (forall c, In c cs -> strip_prefix c r = None) ->
  Qwen.first_closer cs r = None.
Proof.
  induction cs as [|c cs IH]; intros H; simpl; [reflexivity|].
  rewrite (H c (or_introl eq_refl)). apply IH.
  intros c' Hc'. apply H. now right.
Qed.

Lemma closing_None (s : string) :
  (forall c, In c Qwen.closers -> find_first (Qwen.nl ++ c) s = None) ->
  Qwen.closing s = None.
Proof.
  intros H. unfold Qwen.closing.
  destruct (strip_prefix Qwen.nl s) as [r|] eqn:E; [|reflexivity].
  rewrite first_closer_None; [reflexivity|].
  intros c Hc. specialize (H c Hc). apply find_first_head in H.
  rewrite strip_prefix_app_eq, E in H. exact H.
Qed.

Lemma lazy_group_None (s : string) :
  (forall c, In c Qwen.closers -> find_first (Qwen.nl ++ c) s = None) ->
  Qwen.lazy_group s = None.
Proof.
  induction s as [|a s IH]; intros H; rewrite lazy_group_eq, (closing_None _ H);
    [reflexivity|].
  rewrite IH; [reflexivity|].
  intros c Hc. specialize (H c Hc). now apply find_first_cons_None in H.
Qed.

Lemma match_at_unclosed (s : string) :
  (forall c, In c Qwen.closers -> find_first (Qwen.nl ++ c) s = None) ->
  Qwen.match_at s = None.
Proof.
  intros H. unfold Qwen.match_at.
  destruct (strip_prefix ("<tool_call>" ++ Qwen.nl) s) as [r|] eqn:E;
    [|reflexivity].
  apply strip_prefix_sound in E. subst s.
  rewrite lazy_group_None; [reflexivity|].
  intros c Hc. exact (find_first_suffix _ _ _ (H c Hc)).
Qed.

Lemma findall_unclosed (s : string) : forall k : nat,
  (forall c, In c Qwen.closers -> find_first (Qwen.nl ++ c) s = None) ->
  Qwen.findall_from k s = [].
Proof.
  induction s as [|a s IH]; intros k H; [reflexivity|].
  assert (Hs : forall c, In c Qwen.closers ->
                         find_first (Qwen.nl ++ c) s = None).
  { intros c Hc. specialize (H c Hc). now apply find_first_cons_None in H. }
  cbn [Qwen.findall_from]. destruct k as [|k]; [|now apply IH].
  rewrite (match_at_unclosed _ H). now apply IH.
Qed.

(** A reply that opens a tool call but never closes it (no line feed
    followed by the closing tag or by one of the two other closers) yields
    the thought and no action, and selecting the action then raises
    [IndexError]. *)
Theorem unclosed_call_selects_nothing (loads : string -> json)
    (content : string) :
  occurs "<tool_call>" content ->
  (forall c, In c Qwen.closers -> ~ occurs (Qwen.nl ++ c) content) ->
  (exists thought, Qwen.parse_action loads content = ok (thought, []))
  /\ QwenActor.parse_and_select loads content
     = throw (IndexError "list index out of range").
Proof.
  intros Hocc Hclose.
  assert (F : Qwen.findall content = []).
  { apply findall_unclosed. intros c Hc. apply not_occurs_iff. now apply Hclose. }
  destruct (find_first "<tool_call>" content) as [[before rest]|] eqn:E.
  - assert (P : Qwen.parse_action loads content = ok (strip before, [])).
    { unfold Qwen.parse_action, Qwen.pre_tool_match. now rewrite F, E. }
    split; [eauto|].
    unfold QwenActor.parse_and_select, QwenActor._parse_response.
    now rewrite P.
  - exfalso. exact (proj2 (not_occurs_iff _ _) E Hocc).
Qed.

Lemma unclosed_call_selects_nothing_witness :
  QwenActor.parse_and_select (fun _ => JNull)
    ("I will click." ++ Qwen.nl ++ "<tool_call>" ++ Qwen.nl ++ "{json}")
  = throw (IndexError "list index out of range").
Proof.
  apply unclosed_call_selects_nothing.
  - exists ("I will click." ++ Qwen.nl), (Qwen.nl ++ "{json}"). reflexivity.
  - intros c Hc. apply not_occurs_iff.
    destruct Hc as [<-|[<-|[<-|[]]]]; reflexivity.
Defined.

(** *** Missing fields *)

(** A qwen action whose branch reads a field without testing for it raises
    [KeyError] with that field when the payload lacks it; the click family
    and [left_click_drag] test for [coordinate] first, so that a drag
    without a [coordinate] is a [drag_mouse] with no parameters at all. *)
Theorem qwen_missing_field (thought : option string) (args : dict) :
  (forall action_name key,
     In (action_name, key) Required.qwen_key ->
     dict_find args key = None ->
     Qwen.map_action thought action_name args = throw (KeyError key))
  /\ (dict_find args "coordinate" = None ->
      Qwen.map_action thought "left_click_drag" args = ok ("drag_mouse", [])).
Proof.
  split.
  - intros action_name key Hin Hk. simpl in Hin.
    repeat (destruct Hin as [[= <- <-]|Hin];
            [unfold Qwen.map_action, Qwen.xy_of, dict_get; simpl;
             now rewrite Hk|]).
    contradiction.
  - intros Hk. unfold Qwen.map_action, Qwen.xy_if_present, dict_has; simpl.
    now rewrite Hk.
Qed.

Lemma qwen_missing_field_witness :
  Qwen.map_action None "mouse_move" [] = throw (KeyError "coordinate")
  /\ Qwen.map_action None "left_click_drag" [] = ok ("drag_mouse", []).
Proof.
  split.
  - apply (proj1 (qwen_missing_field None []) "mouse_move" "coordinate");
      [simpl; tauto | reflexivity].
  - apply (proj2 (qwen_missing_field None [])). reflexivity.
Defined.

End QwenParserFacts.

(* ===================================================================== *)
(** ** Invariants of the step loop *)
(* ===================================================================== *)

Module LoopInvariants.
Import Py Session Predicates Invariants.

(** *** Closure of a relation under the operations of a run *)

Section Closure.

Context {X : Type}.
Variable R : State X -> State X -> Prop.
Hypothesis R_refl : forall s, R s s.
Hypothesis R_trans : forall s1 s2 s3, R s1 s2 -> R s2 s3 -> R s1 s3.
Hypothesis R_emit :
  forall s e, R s (mkState (task s) (log s ++ [e]) (extra s)).
Hypothesis R_status :
  forall s st,
    R s (mkState (mkTask (remote (task s)) st (error (task s))) (log s) (extra s)).
Hypothesis R_extra : forall s x, R s (mkState (task s) (log s) x).

















End Closure.


(** *** The two step bodies *)

Section Bodies.

Variable addr : string.

Section Cua.

Variable R : State CuaAgent.history -> State CuaAgent.history -> Prop.
Hypothesis R_refl : forall s, R s s.
Hypothesis R_trans : forall s1 s2 s3, R s1 s2 -> R s2 s3 -> R s1 s3.
Hypothesis R_emit :
  forall s e, R s (mkState (task s) (log s ++ [e]) (extra s)).
Hypothesis R_status :
  forall s st,
    R s (mkState (mkTask (remote (task s)) st (error (task s))) (log s) (extra s)).
Hypothesis R_extra : forall s x, R s (mkState (task s) (log s) x).



End Cua.

Section Claude.

Variable R : State (list Claude.message) -> State (list Claude.message) -> Prop.
Hypothesis R_refl : forall s, R s s.
Hypothesis R_trans : forall s1 s2 s3, R s1 s2 -> R s2 s3 -> R s1 s3.
Hypothesis R_emit :
  forall s e, R s (mkState (task s) (log s ++ [e]) (extra s)).
Hypothesis R_status :
  forall s st,
    R s (mkState (mkTask (remote (task s)) st (error (task s))) (log s) (extra s)).
Hypothesis R_extra : forall s x, R s (mkState (task s) (log s) x).





End Claude.

End Bodies.

(** *** What [solve_task] stores as the error *)









(** *** The step budget *)

Lemma repeat_snoc {A} (x : A) (n : nat) :
  (x :: repeat x n = repeat x n ++ [x])%list.
Proof. induction n as [|n IH]; simpl; [reflexivity | now rewrite <- IH]. Qed.

(** A CUA run in which no step finds an action uses its whole budget: the
    actor is called once per step, [max_steps] times in all, nothing is
    dispatched or recorded, and the task ends [FAILED] with its error field
    untouched and the history of steps as it was. *)
Theorem step_budget_exhausted (addr : string)
    (world : nat -> nat -> CuaAgent.Env) (n : nat) :
  (forall i, finds_nothing (world i 1%nat)) ->
  forall (i : nat) (s : State CuaAgent.history),
    status (task s) = IN_PROGRESS ->
    exists s',
      CuaAgent.step_loop addr world n i s = (inr tt, s')
      /\ status (task s') = FAILED
      /\ error (task s') = error (task s)
      /\ model_calls (log s') = (model_calls (log s) ++ repeat EvModelCall n)%list
      /\ dispatches (log s') = dispatches (log s)
      /\ records (log s') = records (log s)
      /\ extra s' = extra s.
Proof.
  intros Hw. induction n as [|n IH]; intros i s Hs.
  - eexists. split; [reflexivity|]. cbn.
    unfold model_calls, dispatches, records.
    rewrite !filter_app. cbn. rewrite !app_nil_r. repeat split.
  - destruct (Hw i) as (Hr & Hact).
    assert (Hp : polled (CuaAgent.refresh_answer (world i 1%nat)) (task s)
                 = ok IN_PROGRESS) by now apply LoopFacts.polled_in_progress.
    assert (E : CuaAgent.take_action addr (world i) s
                = (inr (None, false), after_model_call s IN_PROGRESS)).
    { apply LoopFacts.retry_first.
      apply (LoopFacts.cua_no_action addr (world i 1%nat) s IN_PROGRESS);
        try discriminate; assumption. }
    destruct (IH (S i) (after_model_call s IN_PROGRESS) eq_refl)
      as (s' & L & St & Er & Mc & Di & Re & Ex).
    exists s'. split.
    { rewrite (LoopFacts.cua_step_skipped addr world n i s _ E). exact L. }
    split; [exact St|]. split; [exact Er|].
    unfold model_calls, dispatches, records, after_model_call, after_poll in *.
    cbn [log extra task] in *.
    rewrite !filter_app, !LoopFacts.filter_poll_events in * by reflexivity.
    cbn in *. rewrite !app_nil_r in *.
    rewrite Mc, Di, Re, Ex, <- app_assoc. cbn [app].
    rewrite repeat_snoc. repeat split.
Qed.

Lemma step_budget_exhausted_witness :
  exists s',
    CuaAgent.step_loop Fixtures.future_addr
      (fun _ _ => Fixtures.cua_env (ok None) None) 3 0 (Fixtures.start [])
    = (inr tt, s')
    /\ status (task s') = FAILED
    /\ List.length (model_calls (log s')) = 3%nat.
Proof.
  destruct (step_budget_exhausted Fixtures.future_addr
              (fun _ _ => Fixtures.cua_env (ok None) None) 3
              (fun _ => conj eq_refl (or_introl eq_refl))
              0%nat (Fixtures.start []) eq_refl)
    as (s' & L & St & _ & Mc & _).
  exists s'. split; [exact L|]. split; [exact St|].
  rewrite Mc. reflexivity.
Defined.

End LoopInvariants.

(* ===================================================================== *)
(** ** Single steps: dispatch failures, screenshots and terminal results *)
(* ===================================================================== *)

Module StepFacts.
Import Py Session Predicates Effects LoopFacts.

Ltac filters :=
  unfold records, dispatches, model_calls, saves, screenshots, after_poll;
  cbn [log task status error];
  rewrite ?filter_app, ?filter_poll_events, ?filter_text_posts by reflexivity;
  cbn [filter is_record is_dispatch is_model_call is_save is_screenshot app];
  rewrite ?app_nil_r.

(** *** CUA *)

(** Runs the body of [take_action] up to the test of the action's name:
    the poll read a status that is not a cancellation and the actor
    returned a step with an action. *)
Ltac run_cua Hpoll not_canceling not_canceled Hact Haction :=
  unfold CuaAgent.take_action_body, try_except, bind;
  rewrite (refresh_polled _ _ _ Hpoll);
  cbn [get_task after_poll task status];
  rewrite (running_test _ not_canceling not_canceled);
  simpl; rewrite Hact; simpl; rewrite Haction.

(** When the CUA actor selects an action other than [result] that the device
    does not have, the attempt raises [SystemError("action not found")]:
    nothing is dispatched to the device, nothing is recorded, and the task
    keeps the status the poll returned. *)
Lemma cua_missing_capability (addr : string) (w : CuaAgent.Env)
    (s : State CuaAgent.history) (st : TaskStatus)
    (not_canceling : st <> CANCELING) (not_canceled : st <> CANCELED)
    (Hpoll : polled (CuaAgent.refresh_answer w) (task s) = ok st)
    (step : CuaAgent.Step) (a : V1Action)
    (Hact : CuaAgent.act w = ok (Some step))
    (Haction : CuaAgent.action step = Some a) :
  name a <> "result" -> CuaAgent.find_action w (name a) = false ->
  exists s1,
    CuaAgent.take_action_body addr w s = (inl (SystemError "action not found"), s1)
    /\ status (task s1) = st
    /\ dispatches (log s1) = dispatches (log s)
    /\ records (log s1) = records (log s).
Proof.
  intros Hn Hf. eexists. split.
  - run_cua Hpoll not_canceling not_canceled Hact Haction. apply String.eqb_neq in Hn. rewrite Hn, Hf. simpl. reflexivity.
  - filters. repeat split.
Qed.

(** When [device.use] raises [e], the CUA attempt raises
    [ValueError("Trouble using action: " + str(e))]: the action was
    dispatched exactly once, no step is recorded, and the task keeps the
    status the poll returned. *)
Lemma cua_use_raises (addr : string) (w : CuaAgent.Env)
    (s : State CuaAgent.history) (st : TaskStatus)
    (not_canceling : st <> CANCELING) (not_canceled : st <> CANCELED)
    (Hpoll : polled (CuaAgent.refresh_answer w) (task s) = ok st)
    (step : CuaAgent.Step) (a : V1Action)
    (Hact : CuaAgent.act w = ok (Some step))
    (Haction : CuaAgent.action step = Some a)
    (e : exn) :
  name a <> "result" -> CuaAgent.find_action w (name a) = true ->
  CuaAgent.use w a = throw e ->
  exists s1,
    CuaAgent.take_action_body addr w s
    = (inl (ValueError ("Trouble using action: " ++ str_exn addr e)), s1)
    /\ status (task s1) = st
    /\ dispatches (log s1)
       = (dispatches (log s) ++ [EvDispatch (name a) (parameters a)])%list
    /\ records (log s1) = records (log s).
Proof.
  intros Hn Hf Hu. eexists. split.
  - run_cua Hpoll not_canceling not_canceled Hact Haction. apply String.eqb_neq in Hn. rewrite Hn, Hf. simpl.
    rewrite Hu. simpl. reflexivity.
  - filters. repeat split.
Qed.

(** A step whose action is [result] and carries a [value] ends the task
    without touching the device: the attempt returns the step with
    [done = True], the status is set to [FINISHED] and the task is saved
    once, with that status, nothing is dispatched, and the [result] action
    is the one record made. *)
Lemma cua_result (addr : string) (w : CuaAgent.Env)
    (s : State CuaAgent.history) (st : TaskStatus)
    (not_canceling : st <> CANCELING) (not_canceled : st <> CANCELED)
    (Hpoll : polled (CuaAgent.refresh_answer w) (task s) = ok st)
    (step : CuaAgent.Step) (a : V1Action)
    (Hact : CuaAgent.act w = ok (Some step))
    (Haction : CuaAgent.action step = Some a)
    (v : json) :
  name a = "result" -> dict_find (parameters a) "value" = Some v ->
  CuaAgent.record_action w a = None ->
  exists s1,
    CuaAgent.take_action_body addr w s = (inr (Some step, true), s1)
    /\ status (task s1) = FINISHED
    /\ saves (log s1) = (saves (log s) ++ [EvSave FINISHED])%list
    /\ dispatches (log s1) = dispatches (log s)
    /\ records (log s1) = (records (log s) ++ [EvRecord a])%list.
Proof.
  intros Hn Hv Hr. eexists. split.
  - run_cua Hpoll not_canceling not_canceled Hact Haction.
    rewrite Hn. simpl. unfold dict_get. rewrite Hv. simpl.
    unfold CuaAgent.do_record. rewrite Hr. simpl. reflexivity.
  - filters. repeat split.
Qed.

(** A [result] action without a [value] parameter does not finish the task:
    the attempt raises [KeyError("value")] while the message is formatted,
    before the status is set, so the task keeps the status the poll returned
    and nothing is recorded. *)
Lemma cua_result_without_value (addr : string) (w : CuaAgent.Env)
    (s : State CuaAgent.history) (st : TaskStatus)
    (not_canceling : st <> CANCELING) (not_canceled : st <> CANCELED)
    (Hpoll : polled (CuaAgent.refresh_answer w) (task s) = ok st)
    (step : CuaAgent.Step) (a : V1Action)
    (Hact : CuaAgent.act w = ok (Some step))
    (Haction : CuaAgent.action step = Some a) :
  name a = "result" -> dict_find (parameters a) "value" = None ->
  exists s1,
    CuaAgent.take_action_body addr w s = (inl (KeyError "value"), s1)
    /\ status (task s1) = st
    /\ records (log s1) = records (log s).
Proof.
  intros Hn Hv. eexists. split.
  - run_cua Hpoll not_canceling not_canceled Hact Haction. rewrite Hn. simpl. unfold dict_get. rewrite Hv. simpl. reflexivity.
  - filters. repeat split.
Qed.

Lemma cua_missing_capability_witness :
  exists s1,
    CuaAgent.take_action_body Fixtures.future_addr
      (CuaAgent.mkEnv (ok IN_PROGRESS) (ok (Some Fixtures.click_step))
         (fun _ => false) (fun _ => ok "") (fun _ => None))
      (Fixtures.start [])
    = (inl (SystemError "action not found"), s1)
    /\ dispatches (log s1) = [].
Proof.
  destruct (cua_missing_capability Fixtures.future_addr
              (CuaAgent.mkEnv (ok IN_PROGRESS) (ok (Some Fixtures.click_step))
                 (fun _ => false) (fun _ => ok "") (fun _ => None))
              (Fixtures.start []) IN_PROGRESS
              ltac:(discriminate) ltac:(discriminate) eq_refl
              Fixtures.click_step Fixtures.click eq_refl eq_refl
              ltac:(discriminate) eq_refl)
    as (s1 & H & _ & D & _).
  exists s1. split; [exact H | exact D].
Defined.

Lemma cua_use_raises_witness :
  exists s1,
    CuaAgent.take_action_body Fixtures.future_addr
      (CuaAgent.mkEnv (ok IN_PROGRESS) (ok (Some Fixtures.click_step))
         (fun _ => true) (fun _ => throw (ValueError "no display"))
         (fun _ => None))
      (Fixtures.start [])
    = (inl (ValueError "Trouble using action: no display"), s1)
    /\ records (log s1) = [].
Proof.
  destruct (cua_use_raises Fixtures.future_addr
              (CuaAgent.mkEnv (ok IN_PROGRESS) (ok (Some Fixtures.click_step))
                 (fun _ => true) (fun _ => throw (ValueError "no display"))
                 (fun _ => None))
              (Fixtures.start []) IN_PROGRESS
              ltac:(discriminate) ltac:(discriminate) eq_refl
              Fixtures.click_step Fixtures.click eq_refl eq_refl
              (ValueError "no display")
              ltac:(discriminate) eq_refl eq_refl)
    as (s1 & H & _ & _ & R).
  exists s1. split; [exact H | exact R].
Defined.

Lemma cua_result_witness :
  exists s1,
    CuaAgent.take_action_body Fixtures.future_addr
      (Fixtures.cua_env
         (ok (Some (CuaAgent.mkStep
                      (Some (mkAction "result" [("value", JStr "done")]))
                      "" "message")))
         None)
      (Fixtures.start [])
    = (inr (Some (CuaAgent.mkStep
                    (Some (mkAction "result" [("value", JStr "done")]))
                    "" "message"), true), s1)
    /\ status (task s1) = FINISHED
    /\ saves (log s1) = [EvSave FINISHED].
Proof.
  destruct (cua_result Fixtures.future_addr
              (Fixtures.cua_env
                 (ok (Some (CuaAgent.mkStep
                              (Some (mkAction "result" [("value", JStr "done")]))
                              "" "message")))
                 None)
              (Fixtures.start []) IN_PROGRESS
              ltac:(discriminate) ltac:(discriminate) eq_refl
              _ _ eq_refl eq_refl (JStr "done") eq_refl eq_refl eq_refl)
    as (s1 & H & F & S & _).
  exists s1. split; [exact H|]. split; [exact F | exact S].
Defined.

Lemma cua_result_without_value_witness :
  exists s1,
    CuaAgent.take_action_body Fixtures.future_addr
      (Fixtures.cua_env
         (ok (Some (CuaAgent.mkStep (Some (mkAction "result" [])) "" "message")))
         None)
      (Fixtures.start [])
    = (inl (KeyError "value"), s1)
    /\ status (task s1) = IN_PROGRESS.
Proof.
  destruct (cua_result_without_value Fixtures.future_addr
              (Fixtures.cua_env
                 (ok (Some (CuaAgent.mkStep (Some (mkAction "result" []))
                              "" "message")))
                 None)
              (Fixtures.start []) IN_PROGRESS
              ltac:(discriminate) ltac:(discriminate) eq_refl
              _ _ eq_refl eq_refl eq_refl eq_refl)
    as (s1 & H & F & _).
  exists s1. split; [exact H | exact F].
Defined.

(** *** Claude *)

(** Runs the body of [take_action] up to the test of the stop reason: the
    poll read a status that is not a cancellation and the model answered. *)
Ltac to_response s Hpoll not_canceling not_canceled Hcreate :=
  unfold ClaudeAgent.take_action_body, try_except, bind;
  rewrite (refresh_polled _ _ _ Hpoll);
  cbn [get_task after_poll task status];
  rewrite (running_test _ not_canceling not_canceled);
  cbn [get_extra extra lift Claude._maybe_filter_to_n_most_recent_images
       Z.eqb Pos.eqb ok put_extra emit task log after_poll];
  fold (trimmed (extra s)); rewrite Hcreate; unfold ok;
  cbn [ClaudeAgent.append_message bind get_extra put_extra extra task log];
  unfold ClaudeAgent.append_message, bind, get_extra, put_extra;
  cbn [extra task log].

(** The same, up to the first tool use when only blocks that are not tool
    uses come before it: they are posted. *)
Ltac to_first_tool_use s Hpoll not_canceling not_canceled Hcreate Hne Hp Hpre
    Hl :=
  to_response s Hpoll not_canceling not_canceled Hcreate;
  rewrite (proj2 (String.eqb_neq _ _) Hne), Hp;
  match goal with
  | |- context [ClaudeAgent.handle_blocks ?addr ?w ?t ?r (?pre ++ ?bs) ?s0] =>
      let t' := fresh "thought" in
      let E := fresh "E" in
      destruct (handle_blocks_prefix addr w pre bs Hpre t r s0) as (t' & E);
      rewrite E
  end;
  cbn [ClaudeAgent.handle_blocks task log extra];
  unfold ClaudeAgent.handle_tool_use, bind, lift;
  rewrite Hl; unfold ok, post_message, post_value, emit; cbn [fst snd task log extra].

(** The same, up to the test for the capability of the first block, a tool
    use. *)
Ltac to_tool_use s Hpoll not_canceling not_canceled Hcreate Hne Hp Hl :=
  to_response s Hpoll not_canceling not_canceled Hcreate;
  rewrite (proj2 (String.eqb_neq _ _) Hne), Hp;
  cbn [ClaudeAgent.handle_blocks];
  unfold ClaudeAgent.handle_tool_use, bind, lift;
  rewrite Hl; unfold ok, post_message, post_value, emit; cbn [fst snd task log extra].

(** When Claude asks for a tool the device does not have, the attempt raises
    [SystemError("action not found")] before the parameters are mapped:
    nothing is dispatched to the device, nothing is recorded, and the task
    keeps the status the poll returned. *)
Lemma claude_missing_capability (addr : string) (w : ClaudeAgent.Env)
    (s : State (list Claude.message)) (st : TaskStatus)
    (not_canceling : st <> CANCELING) (not_canceled : st <> CANCELED)
    (Hpoll : polled (ClaudeAgent.refresh_answer w) (task s) = ok st)
    (response : ClaudeAgent.Response)
    (Hcreate : ClaudeAgent.create w (trimmed (extra s)) = ok response)
    (not_end_turn : ClaudeAgent.stop_reason response <> "end_turn")
    (id dn an : string) (input : dict) (rest : list Claude.block)
    (Hparams :
       ClaudeAgent.response_params response = Claude.BToolUse id input :: rest)
    (Hlookup : ClaudeAgent.lookup_action input = ok (dn, an)) :
  ClaudeAgent.find_action w an = false ->
  exists s1,
    ClaudeAgent.take_action_body addr w s
    = (inl (SystemError "action not found"), s1)
    /\ status (task s1) = st
    /\ dispatches (log s1) = dispatches (log s)
    /\ records (log s1) = records (log s).
Proof.
  intros Hf. eexists. split.
  - to_tool_use s Hpoll not_canceling not_canceled Hcreate not_end_turn Hparams Hlookup. rewrite Hf.
    unfold raise. cbn [task log extra]. reflexivity.
  - filters. repeat split.
Qed.

(** The first tool use of a response, with nothing but texts before it:
    when [_get_mapped_action_params] raises on the parameters Claude sent,
    the attempt raises a [ValueError] whose text starts with
    ["Trouble using action: "], as it does for a failure of the device,
    although the device was not called: nothing is dispatched, no
    screenshot is taken, nothing is recorded, and the task keeps the status
    the poll returned. *)
Lemma claude_mapping_fails (addr : string) (w : ClaudeAgent.Env)
    (s : State (list Claude.message)) (st : TaskStatus)
    (not_canceling : st <> CANCELING) (not_canceled : st <> CANCELED)
    (Hpoll : polled (ClaudeAgent.refresh_answer w) (task s) = ok st)
    (response : ClaudeAgent.Response)
    (Hcreate : ClaudeAgent.create w (trimmed (extra s)) = ok response)
    (not_end_turn : ClaudeAgent.stop_reason response <> "end_turn")
    (pre : list Claude.block) (id dn an : string) (input : dict)
    (rest : list Claude.block)
    (Hparams :
       ClaudeAgent.response_params response
       = (pre ++ Claude.BToolUse id input :: rest)%list)
    (Hpre : forallb (fun b => negb (is_tool_use b)) pre = true)
    (Hlookup : ClaudeAgent.lookup_action input = ok (dn, an))
    (e : exn) :
  ClaudeAgent.find_action w an = true -> an <> "take_screenshots" ->
  Claude._get_mapped_action_params an (ClaudeAgent.copied_params dn input)
    = throw e ->
  exists msg s1,
    ClaudeAgent.take_action_body addr w s
    = (inl (ValueError ("Trouble using action: " ++ msg)), s1)
    /\ status (task s1) = st
    /\ dispatches (log s1) = dispatches (log s)
    /\ screenshots (log s1) = screenshots (log s)
    /\ records (log s1) = records (log s).
Proof.
  intros Hf Hn Hm. exists (str_exn addr e). eexists. split.
  - to_first_tool_use s Hpoll not_canceling not_canceled Hcreate not_end_turn
      Hparams Hpre Hlookup.
    rewrite Hf. unfold try_except, bind. rewrite (proj2 (String.eqb_neq _ _) Hn).
    cbn [negb]. unfold lift. rewrite Hm. unfold throw, raise.
    cbn [task log extra]. reflexivity.
  - filters. repeat split.
Qed.

(** A [screenshot] request, as the first tool use of a response with nothing
    but texts before it and no tool use after it, is never sent to
    [device.use]: the attempt takes one screenshot itself, records a
    [take_screenshots] action whose parameters are the unmapped copy of the
    input without [action], and returns [done = False]. *)
Lemma claude_screenshot (addr : string) (w : ClaudeAgent.Env)
    (s : State (list Claude.message)) (st : TaskStatus)
    (not_canceling : st <> CANCELING) (not_canceled : st <> CANCELED)
    (Hpoll : polled (ClaudeAgent.refresh_answer w) (task s) = ok st)
    (response : ClaudeAgent.Response)
    (Hcreate : ClaudeAgent.create w (trimmed (extra s)) = ok response)
    (not_end_turn : ClaudeAgent.stop_reason response <> "end_turn")
    (pre : list Claude.block) (id dn an : string) (input : dict)
    (rest : list Claude.block)
    (Hparams :
       ClaudeAgent.response_params response
       = (pre ++ Claude.BToolUse id input :: rest)%list)
    (Hpre : forallb (fun b => negb (is_tool_use b)) pre = true)
    (Hlookup : ClaudeAgent.lookup_action input = ok (dn, an))
    (img : string) :
  an = "take_screenshots" ->
  ClaudeAgent.find_action w an = true ->
  ClaudeAgent.take_screenshots w = ok img ->
  ClaudeAgent.record_action w
    (mkAction an (ClaudeAgent.copied_params dn input)) = None ->
  forallb (fun b => negb (is_tool_use b)) rest = true ->
  exists s1,
    ClaudeAgent.take_action_body addr w s = (inr false, s1)
    /\ status (task s1) = st
    /\ dispatches (log s1) = dispatches (log s)
    /\ screenshots (log s1) = (screenshots (log s) ++ [EvScreenshot])%list
    /\ records (log s1)
       = (records (log s)
          ++ [EvRecord (mkAction an (ClaudeAgent.copied_params dn input))])%list.
Proof.
  intros Hn Hf Hshot Hrec Hrest. eexists. split.
  - to_first_tool_use s Hpoll not_canceling not_canceled Hcreate not_end_turn
      Hparams Hpre Hlookup.
    rewrite Hf. unfold try_except, bind. rewrite (proj2 (String.eqb_eq _ _) Hn).
    cbn [negb]. unfold ret, ClaudeAgent.screenshot, bind, emit, lift.
    cbn [task log extra]. rewrite Hshot. unfold ok, post_message, emit.
    cbn [task log extra]. unfold ClaudeAgent.do_record. rewrite Hrec.
    unfold emit. cbn [task log extra].
    rewrite (handle_blocks_texts addr w rest Hrest). cbn [task log extra app].
    reflexivity.
  - filters. repeat split.
Qed.

(** When Claude stops with [end_turn] and its first block is text, the
    attempt returns [done = True]: the status is set to [FINISHED] and the
    task is saved once, with that status; one screenshot is taken; nothing
    is dispatched, whatever further blocks the response holds; and one
    [result] action is recorded whose [value] is the text of the first
    block. *)
Lemma claude_end_turn (addr : string) (w : ClaudeAgent.Env)
    (s : State (list Claude.message)) (st : TaskStatus)
    (not_canceling : st <> CANCELING) (not_canceled : st <> CANCELED)
    (Hpoll : polled (ClaudeAgent.refresh_answer w) (task s) = ok st)
    (response : ClaudeAgent.Response)
    (Hcreate : ClaudeAgent.create w (trimmed (extra s)) = ok response)
    (text img : string) (rest : list Claude.block) :
  ClaudeAgent.stop_reason response = "end_turn" ->
  ClaudeAgent.response_params response = Claude.BText text :: rest ->
  ClaudeAgent.take_screenshots w = ok img ->
  ClaudeAgent.record_action w (mkAction "result" [("value", JStr text)]) = None ->
  exists s1,
    ClaudeAgent.take_action_body addr w s = (inr true, s1)
    /\ status (task s1) = FINISHED
    /\ saves (log s1) = (saves (log s) ++ [EvSave FINISHED])%list
    /\ screenshots (log s1) = (screenshots (log s) ++ [EvScreenshot])%list
    /\ dispatches (log s1) = dispatches (log s)
    /\ records (log s1)
       = (records (log s)
          ++ [EvRecord (mkAction "result" [("value", JStr text)])])%list.
Proof.
  intros He Hp Hshot Hrec. eexists. split.
  - to_response s Hpoll not_canceling not_canceled Hcreate.
    rewrite (proj2 (String.eqb_eq _ _) He), Hp.
    unfold lift. cbn [ClaudeAgent.first_text]. unfold ok, post_message, emit,
      set_status, save, bind, get_task, emit, ClaudeAgent.screenshot, lift.
    cbn [task log extra status remote error]. rewrite Hshot. unfold ok.
    unfold ClaudeAgent.do_record. rewrite Hrec. unfold emit, ret.
    cbn [task log extra]. reflexivity.
  - filters. repeat split.
Qed.

(** When Claude stops with [end_turn] and [response_params[0]["text"]]
    raises (the response is empty, or its first block is not text), the
    attempt raises that exception before the status is set: the task keeps
    the status the poll returned and nothing is recorded, but the assistant
    turn has already been appended to the trimmed history. *)
Lemma claude_end_turn_without_text (addr : string) (w : ClaudeAgent.Env)
    (s : State (list Claude.message)) (st : TaskStatus)
    (not_canceling : st <> CANCELING) (not_canceled : st <> CANCELED)
    (Hpoll : polled (ClaudeAgent.refresh_answer w) (task s) = ok st)
    (response : ClaudeAgent.Response)
    (Hcreate : ClaudeAgent.create w (trimmed (extra s)) = ok response)
    (e : exn) :
  ClaudeAgent.stop_reason response = "end_turn" ->
  ClaudeAgent.first_text (ClaudeAgent.response_params response) = throw e ->
  exists s1,
    ClaudeAgent.take_action_body addr w s = (inl e, s1)
    /\ status (task s1) = st
    /\ records (log s1) = records (log s)
    /\ extra s1
       = (trimmed (extra s)
          ++ [Claude.mkMessage "assistant"
                (Claude.MList (ClaudeAgent.response_params response))])%list.
Proof.
  intros He Hf. eexists. split.
  - to_response s Hpoll not_canceling not_canceled Hcreate. rewrite (proj2 (String.eqb_eq _ _) He).
    unfold lift. rewrite Hf. unfold throw, post_message, emit, raise.
    cbn [task log extra]. reflexivity.
  - filters. repeat split.
Qed.

Lemma claude_missing_capability_witness :
  exists s1,
    ClaudeAgent.take_action_body Fixtures.future_addr
      (ClaudeAgent.mkEnv (ok IN_PROGRESS)
         (fun _ => ok Fixtures.double_click_response) (fun _ => false)
         (fun _ _ => ok "") (ok "iVBORw0KGgo=") (fun _ => None))
      (Fixtures.start Fixtures.first_history)
    = (inl (SystemError "action not found"), s1)
    /\ dispatches (log s1) = [].
Proof.
  destruct (claude_missing_capability Fixtures.future_addr
              (ClaudeAgent.mkEnv (ok IN_PROGRESS)
                 (fun _ => ok Fixtures.double_click_response) (fun _ => false)
                 (fun _ _ => ok "") (ok "iVBORw0KGgo=") (fun _ => None))
              (Fixtures.start Fixtures.first_history) IN_PROGRESS
              ltac:(discriminate) ltac:(discriminate) eq_refl
              Fixtures.double_click_response eq_refl ltac:(discriminate)
              "toolu_02" "double_click" "double_click"
              [("action", JStr "double_click")]
              [Claude.BText "Opening the folder."] eq_refl eq_refl eq_refl)
    as (s1 & H & _ & D & _).
  exists s1. split; [exact H | exact D].
Defined.

Lemma claude_mapping_fails_witness :
  exists msg s1,
    ClaudeAgent.take_action_body Fixtures.future_addr
      (Fixtures.claude_env
         (ClaudeAgent.mkResponse "tool_use"
            [Claude.BText "Moving the pointer.";
             Claude.BToolUse "toolu_03"
               [("action", JStr "mouse_move"); ("coordinate", JList [JInt 10])]]))
      (Fixtures.start Fixtures.first_history)
    = (inl (ValueError ("Trouble using action: " ++ msg)), s1)
    /\ dispatches (log s1) = [].
Proof.
  destruct (claude_mapping_fails Fixtures.future_addr
              (Fixtures.claude_env
                 (ClaudeAgent.mkResponse "tool_use"
                    [Claude.BText "Moving the pointer.";
                     Claude.BToolUse "toolu_03"
                       [("action", JStr "mouse_move");
                        ("coordinate", JList [JInt 10])]]))
              (Fixtures.start Fixtures.first_history) IN_PROGRESS
              ltac:(discriminate) ltac:(discriminate) eq_refl
              _ eq_refl ltac:(discriminate)
              [Claude.BText "Moving the pointer."]
              "toolu_03" "mouse_move" "move_mouse"
              [("action", JStr "mouse_move"); ("coordinate", JList [JInt 10])]
              [] eq_refl eq_refl eq_refl
              (IndexError "list index out of range")
              eq_refl ltac:(discriminate) eq_refl)
    as (msg & s1 & H & _ & D & _).
  exists msg, s1. split; [exact H | exact D].
Defined.

Lemma claude_screenshot_witness :
  exists s1,
    ClaudeAgent.take_action_body Fixtures.future_addr
      (Fixtures.claude_env
         (ClaudeAgent.mkResponse "tool_use"
            [Claude.BText "Let me look at the screen.";
             Claude.BToolUse "toolu_04" [("action", JStr "screenshot")]]))
      (Fixtures.start Fixtures.first_history)
    = (inr false, s1)
    /\ dispatches (log s1) = []
    /\ screenshots (log s1) = [EvScreenshot]
    /\ records (log s1) = [EvRecord (mkAction "take_screenshots" [])].
Proof.
  destruct (claude_screenshot Fixtures.future_addr
              (Fixtures.claude_env
                 (ClaudeAgent.mkResponse "tool_use"
                    [Claude.BText "Let me look at the screen.";
                     Claude.BToolUse "toolu_04" [("action", JStr "screenshot")]]))
              (Fixtures.start Fixtures.first_history) IN_PROGRESS
              ltac:(discriminate) ltac:(discriminate) eq_refl
              _ eq_refl ltac:(discriminate)
              [Claude.BText "Let me look at the screen."]
              "toolu_04" "screenshot" "take_screenshots"
              [("action", JStr "screenshot")] [] eq_refl eq_refl eq_refl
              "iVBORw0KGgo=" eq_refl eq_refl eq_refl eq_refl eq_refl)
    as (s1 & H & _ & D & S & R).
  exists s1. split; [exact H|]. split; [exact D|]. split; [exact S | exact R].
Defined.

Lemma claude_end_turn_witness :
  exists s1,
    ClaudeAgent.take_action_body Fixtures.future_addr
      (Fixtures.claude_env
         (ClaudeAgent.mkResponse "end_turn" [Claude.BText "The file is saved."]))
      (Fixtures.start Fixtures.first_history)
    = (inr true, s1)
    /\ status (task s1) = FINISHED
    /\ saves (log s1) = [EvSave FINISHED]
    /\ records (log s1)
       = [EvRecord (mkAction "result" [("value", JStr "The file is saved.")])].
Proof.
  destruct (claude_end_turn Fixtures.future_addr
              (Fixtures.claude_env
                 (ClaudeAgent.mkResponse "end_turn"
                    [Claude.BText "The file is saved."]))
              (Fixtures.start Fixtures.first_history) IN_PROGRESS
              ltac:(discriminate) ltac:(discriminate) eq_refl
              _ eq_refl "The file is saved." "iVBORw0KGgo=" []
              eq_refl eq_refl eq_refl eq_refl)
    as (s1 & H & F & S & _ & _ & R).
  exists s1. split; [exact H|]. split; [exact F|]. split; [exact S | exact R].
Defined.

Lemma claude_end_turn_without_text_witness :
  exists s1,
    ClaudeAgent.take_action_body Fixtures.future_addr
      (Fixtures.claude_env (ClaudeAgent.mkResponse "end_turn" []))
      (Fixtures.start Fixtures.first_history)
    = (inl (IndexError "list index out of range"), s1)
    /\ status (task s1) = IN_PROGRESS.
Proof.
  destruct (claude_end_turn_without_text Fixtures.future_addr
              (Fixtures.claude_env (ClaudeAgent.mkResponse "end_turn" []))
              (Fixtures.start Fixtures.first_history) IN_PROGRESS
              ltac:(discriminate) ltac:(discriminate) eq_refl
              _ eq_refl (IndexError "list index out of range")
              eq_refl eq_refl)
    as (s1 & H & F & _).
  exists s1. split; [exact H | exact F].
Defined.

End StepFacts.

(* ===================================================================== *)
(** ** The CUA actor *)
(* ===================================================================== *)

Module ActorFacts.
Import Py Session CuaActor ActorShapes.

(** *** The clean-up of old screenshots *)

Ltac same_counter :=
  match goal with
  | |- (_, ?a, _) = (_, ?b, _) => replace b with a by lia; reflexivity
  end.

Lemma is_call_output_object (d : dict) :
  is_call_output (JDict d) = ok (call_output (JDict d)).
Proof.
  unfold is_call_output, contains, dict_has, call_output, subscript_key, dict_get.
  destruct (dict_find d "type"); reflexivity.
Qed.

Lemma outputs_cons (item : json) (l : list json) :
  outputs (item :: l) = ((if call_output item then 1 else 0) + outputs l)%nat.
Proof. unfold outputs. simpl. destruct (call_output item); reflexivity. Qed.

Lemma clean_up_few (pixel : string) (l : list json) (n : Z) :
  forallb object l = true -> Z.of_nat (outputs l) <= n ->
  clean_up pixel l n = (l, n - Z.of_nat (outputs l), None).
Proof.
  induction l as [|item later IH]; intros Ho Hn.
  - simpl. unfold outputs. simpl. same_counter.
  - simpl in Ho. apply andb_true_iff in Ho as [Hi Ho].
    rewrite outputs_cons in Hn |- *.
    cbn [clean_up]. rewrite IH by (assumption || lia).
    destruct item as [| | | |? |d]; try discriminate.
    rewrite is_call_output_object. unfold ok.
    destruct (call_output (JDict d)).
    + destruct (Z.ltb_spec (n - Z.of_nat (outputs later) - 1) 0); [lia|].
      same_counter.
    + same_counter.
Qed.

Lemma blank_sound (pixel : string) (item : json) :
  object item = true -> call_output item = true -> image_object item = true ->
  blank pixel item = ok (blanked pixel item).
Proof.
  destruct item as [| | | |? |d]; try discriminate. intros _ Hc Hi.
  unfold blank, blanked, subscript_key, dict_get. rewrite Hc.
  unfold image_object in Hi.
  destruct (dict_find d "output") as [[| | | | |o]|]; try discriminate.
  reflexivity.
Qed.

Lemma blanked_other (pixel : string) (item : json) :
  call_output item = false -> blanked pixel item = item.
Proof.
  intros H. unfold blanked. destruct item as [| | | |? |d]; try reflexivity.
  rewrite H. destruct (dict_find d "output") as [[| | | | |o]|]; reflexivity.
Qed.

Lemma clean_up_old (pixel : string) (recent : list json) (n n' : Z) :
  clean_up pixel recent n = (recent, n', None) -> n' <= 0 ->
  forall old,
    forallb object old = true -> forallb sound_output old = true ->
    clean_up pixel (old ++ recent) n
    = ((map (blanked pixel) old ++ recent)%list, n' - Z.of_nat (outputs old), None).
Proof.
  intros Hr Hn. induction old as [|item old IH]; intros Ho Hs.
  - simpl. rewrite Hr. unfold outputs. simpl. same_counter.
  - simpl in Ho, Hs. apply andb_true_iff in Ho as [Hi Ho].
    apply andb_true_iff in Hs as [Hsi Hs].
    rewrite outputs_cons. cbn [app map clean_up]. rewrite IH by assumption.
    destruct item as [| | | |? |d]; try discriminate.
    rewrite is_call_output_object. unfold ok.
    destruct (call_output (JDict d)) eqn:Hc.
    + destruct (Z.ltb_spec (n' - Z.of_nat (outputs old) - 1) 0); [|lia].
      unfold sound_output in Hsi. rewrite Hc in Hsi. simpl in Hsi.
      rewrite (blank_sound pixel (JDict d) eq_refl Hc Hsi). unfold ok.
      same_counter.
    + rewrite (blanked_other pixel _ Hc). same_counter.
Qed.

(** The clean-up keeps the images of the last five call outputs and of
    nothing older.  On items that are objects and whose call outputs hold an
    object as [output], it does not raise; when the items hold at most five
    call outputs it changes nothing; otherwise, with [recent] the part of the
    items that holds the last five call outputs, every call output before
    [recent] gets the one-pixel image, and every other item, [recent]
    included, stays as it is, in place. *)
Theorem only_recent_screenshots_survive (pixel : string)
    (old recent : list json) (s : State Actor) :
  items (extra s) = (old ++ recent)%list ->
  forallb object (old ++ recent) = true ->
  forallb sound_output old = true ->
  (outputs recent = 5%nat \/ (old = [] /\ (outputs recent <= 5)%nat)) ->
  clean_up_old_screenshots pixel s
  = (inr tt,
     mkState (task s) (log s)
       (with_items (extra s) (map (blanked pixel) old ++ recent)%list)).
Proof.
  intros Hi Ho Hs Hc.
  rewrite forallb_app in Ho. apply andb_true_iff in Ho as [Hoo Hor].
  assert (E : clean_up pixel (old ++ recent) keep_images
              = ((map (blanked pixel) old ++ recent)%list,
                 keep_images - Z.of_nat (outputs recent) - Z.of_nat (outputs old),
                 None)).
  { destruct Hc as [H5 | [-> Hle]].
    - apply clean_up_old; try assumption.
      + apply clean_up_few; [assumption | unfold keep_images; lia].
      + unfold keep_images; lia.
    - cbn [map app]. rewrite clean_up_few by (assumption || unfold keep_images; lia).
      change (outputs []) with 0%nat. same_counter. }
  unfold clean_up_old_screenshots, bind, get_extra. rewrite Hi, E.
  reflexivity.
Qed.

Lemma only_recent_screenshots_survive_witness :
  clean_up_old_screenshots ActorFixtures.pixel
    (ActorFixtures.holding
       (ActorFixtures.user_item
        :: map ActorFixtures.shot_output ["0"; "1"; "2"; "3"; "4"; "5"]))
  = (inr tt,
     ActorFixtures.holding
       (ActorFixtures.user_item
        :: screenshot_output (JStr "0") ActorFixtures.pixel
        :: map ActorFixtures.shot_output ["1"; "2"; "3"; "4"; "5"])).
Proof.
  exact (only_recent_screenshots_survive ActorFixtures.pixel
           [ActorFixtures.user_item; ActorFixtures.shot_output "0"]
           (map ActorFixtures.shot_output ["1"; "2"; "3"; "4"; "5"])
           (ActorFixtures.holding
              (ActorFixtures.user_item
               :: map ActorFixtures.shot_output ["0"; "1"; "2"; "3"; "4"; "5"]))
           eq_refl eq_refl eq_refl (or_introl eq_refl)).
Defined.

(** *** Running the actor *)

Ltac unfold_run :=
  unfold bind, ret, raise, lift, emit, get_extra, put_extra, when,
    set_items, append_items, set_last_call_id, set_last_action_type,
    set_last_reasoning, screenshot, ok, throw;
  cbv beta iota;
  cbn [fst snd extra log task items last_call_id last_action_type
       last_reasoning].

(** Runs the computation of [H : m s = (r, s')] to its end, with one case
    for every answer it depends on. *)
Ltac exec H :=
  repeat first
    [ progress
        (unfold bind, ret, raise, lift, emit, get_extra, put_extra, when,
           set_items, append_items, set_last_call_id, set_last_action_type,
           set_last_reasoning, screenshot, ok, throw in H;
         cbv beta iota in H;
         cbn [fst snd extra log task items last_call_id last_action_type
              last_reasoning] in H)
    | match type of H with
      | context [match ?x with _ => _ end] =>
          lazymatch x with
          | context [match _ with _ => _ end] => fail
          | _ => destruct x eqn:?
          end
      end ].

(** *** A pending call has a known kind *)

Ltac armed_done H Ha :=
  injection H as <- <-; unfold armed in *;
  cbn [extra last_call_id last_action_type];
  first [ exact Ha | intros _; left; reflexivity | intros _; right; reflexivity
        | intros ?; discriminate ].

Lemma stays_armed_bind {A B} (m : M Actor A) (f : A -> M Actor B) :
  stays_armed m -> (forall a, stays_armed (f a)) -> stays_armed (bind m f).
Proof.
  intros Hm Hf s r s' H Ha. unfold bind in H.
  destruct (m s) as [[e|a] s1] eqn:E.
  - injection H as <- <-. exact (Hm _ _ _ E Ha).
  - exact (Hf a _ _ _ H (Hm _ _ _ E Ha)).
Qed.

Lemma stays_armed_when (b : bool) (m : M Actor unit) :
  stays_armed m -> stays_armed (when b m).
Proof.
  intros Hm. destruct b; [exact Hm|]. intros s r s' H Ha.
  injection H as <- <-. exact Ha.
Qed.

Lemma stays_armed_simple {A} (m : M Actor A) :
  (forall s r s', m s = (r, s') ->
     last_call_id (extra s') = last_call_id (extra s)
     /\ last_action_type (extra s') = last_action_type (extra s)) ->
  stays_armed m.
Proof.
  intros Hm s r s' H Ha. destruct (Hm _ _ _ H) as [H1 H2].
  unfold armed. rewrite H1, H2. exact Ha.
Qed.

Ltac simple_step :=
  apply stays_armed_simple;
  let H := fresh "H" in
  intros ? ? ? H; exec H; injection H as <- <-; split; reflexivity.

Lemma handle_item_armed (w : Env) (item response : json) :
  stays_armed (handle_item w item response).
Proof.
  intros s r s' H Ha. unfold handle_item in H. exec H; armed_done H Ha.
Qed.

Lemma handle_items_armed (w : Env) (response : json) (output : list json) :
  stays_armed (handle_items w output response).
Proof.
  induction output as [|item output IH]; intros s r s' H Ha.
  - injection H as <- <-. exact Ha.
  - cbn [handle_items] in H. unfold bind in H.
    destruct (handle_item w item response s) as [[e|[st|]] s1] eqn:E.
    + injection H as <- <-. exact (handle_item_armed _ _ _ _ _ _ E Ha).
    + injection H as <- <-. exact (handle_item_armed _ _ _ _ _ _ E Ha).
    + exact (IH _ _ _ H (handle_item_armed _ _ _ _ _ _ E Ha)).
Qed.

Lemma record_result_armed (w : Env) :
  stays_armed (record_result_of_previous_action w).
Proof.
  intros s r s' H Ha. unfold record_result_of_previous_action in H.
  exec H; armed_done H Ha.
Qed.

Lemma clean_up_armed (pixel : string) :
  stays_armed (clean_up_old_screenshots pixel).
Proof.
  intros s r s' H Ha. unfold clean_up_old_screenshots in H.
  exec H; armed_done H Ha.
Qed.

Lemma prepare_armed (pixel : string) (w : Env) (description : json) :
  stays_armed (prepare pixel w description).
Proof.
  unfold prepare.
  apply stays_armed_bind; [simple_step | intros a].
  apply stays_armed_bind.
  { apply stays_armed_when.
    apply stays_armed_bind; [simple_step | intros _; simple_step]. }
  intros _. apply stays_armed_bind; [simple_step | intros a'].
  apply stays_armed_bind.
  { apply stays_armed_when. apply record_result_armed. }
  intros _. apply clean_up_armed.
Qed.

Lemma request_armed (w : Env) : stays_armed (request w).
Proof.
  unfold request.
  apply stays_armed_bind; [simple_step | intros a].
  apply stays_armed_bind; [simple_step | intros _].
  apply stays_armed_bind; [simple_step | intros response].
  apply stays_armed_bind; [simple_step | intros has].
  destruct has; cbn [negb].
  - apply stays_armed_bind; [simple_step | intros output].
    apply stays_armed_bind; [simple_step | intros _].
    apply handle_items_armed.
  - simple_step.
Qed.

Lemma act_armed (pixel : string) (w : Env) (description : json) :
  stays_armed (act pixel w description).
Proof.
  unfold act.
  apply stays_armed_bind; [apply prepare_armed | intros _; apply request_armed].
Qed.

Lemma record_result_answers (w : Env) (s : State Actor) (shot : string) :
  armed (extra s) -> truthy (last_call_id (extra s)) = true ->
  take_screenshots w = ok shot ->
  exists item,
    record_result_of_previous_action w s
    = (inr tt,
       mkState (task s) (log s ++ [EvScreenshot])
         (mkActor (items (extra s) ++ [item]) JNull None
            (last_reasoning (extra s))))
    /\ subscript_key item "call_id" = ok (last_call_id (extra s))
    /\ (item = screenshot_output (last_call_id (extra s)) shot
        \/ subscript_key item "type" = ok (JStr "function_call_output")).
Proof.
  intros Ha Ht Hs. unfold record_result_of_previous_action.
  destruct (Ha Ht) as [E|E].
  all: unfold_run; rewrite Hs; unfold_run; rewrite E;
    cbn [action_type_is String.eqb Ascii.eqb Bool.eqb]; unfold_run;
    eexists; (split; [reflexivity|]); (split; [reflexivity|]).
  all: first [left; reflexivity | right; reflexivity].
Qed.

(** Whenever the actor holds a call id, it knows the kind of the call.
    Every run of [act], whether it returns or raises and whatever the
    device, the model and [json.loads] answer, keeps this; and in such a
    state, once the screenshot is taken,
    [record_result_of_previous_action] does not raise: it appends one
    output that carries the pending call id, a screenshot output or a
    function-call output, and clears the pending call. *)
Theorem pending_call_can_be_answered (pixel : string) :
  (forall w description s r s',
     armed (extra s) -> act pixel w description s = (r, s') ->
     armed (extra s'))
  /\ (forall w s shot,
        armed (extra s) -> truthy (last_call_id (extra s)) = true ->
        take_screenshots w = ok shot ->
        exists item,
          record_result_of_previous_action w s
          = (inr tt,
             mkState (task s) (log s ++ [EvScreenshot])
               (mkActor (items (extra s) ++ [item]) JNull None
                  (last_reasoning (extra s))))
          /\ subscript_key item "call_id" = ok (last_call_id (extra s))
          /\ (item = screenshot_output (last_call_id (extra s)) shot
              \/ subscript_key item "type" = ok (JStr "function_call_output"))).
Proof.
  split.
  - intros w description s r s' Ha H. exact (act_armed pixel w description s r s' H Ha).
  - exact record_result_answers.
Qed.

Lemma pending_call_can_be_answered_witness :
  armed (extra (snd (act ActorFixtures.pixel ActorFixtures.desktop
                       (JStr "open the browser") (ActorFixtures.holding [])))).
Proof.
  destruct (pending_call_can_be_answered ActorFixtures.pixel) as (H & _).
  eapply (H ActorFixtures.desktop (JStr "open the browser")
            (ActorFixtures.holding [])).
  - intros E. discriminate E.
  - apply surjective_pairing.
Defined.

(** *** Reasoning, calls and messages *)

Lemma parse_action_on_dict (t : string) (d : dict) :
  parse_action_on t (JDict d) = Cua.parse_action t d.
Proof.
  unfold parse_action_on, Cua.parse_action, contains, subscript_key, rbind, ok.
  repeat match goal with
         | |- (if ?b then _ else _) = (if ?b then _ else _) => destruct b
         end; try reflexivity.
Qed.

Lemma reasoning_step (w : Env) (shot : string) (item response : json)
    (s : State Actor) :
  take_screenshots w = ok shot -> reasoning item = true ->
  handle_item w item response s
  = (inr None,
     mkState (task s) (log s ++ [EvScreenshot])
       (mkActor (items (extra s)) (last_call_id (extra s))
          (last_action_type (extra s)) (summary_of item))).
Proof.
  intros Hs Hr. destruct item as [| | | |? |d]; try discriminate.
  unfold reasoning in Hr. unfold summary_of.
  destruct (dict_find d "type") as [t|] eqn:Et; [|discriminate].
  destruct (dict_find d "summary") as [v|] eqn:Ev; [|discriminate].
  destruct t as [| | |t| |]; try discriminate. cbn [is_str] in Hr.
  apply String.eqb_eq in Hr. subst t.
  unfold handle_item. unfold_run. rewrite Hs. unfold_run.
  unfold subscript_key, dict_get. rewrite Et. unfold_run.
  cbn [is_str String.eqb Ascii.eqb Bool.eqb]. unfold_run.
  rewrite Ev. unfold_run. reflexivity.
Qed.

Lemma last_nonempty {A} (l : list A) (x d d' : A) :
  List.last (x :: l) d = List.last (x :: l) d'.
Proof.
  revert x. induction l as [|y l IH]; intros x; [reflexivity|].
  change (List.last (y :: l) d = List.last (y :: l) d'). apply IH.
Qed.

Lemma reasoning_run (w : Env) (shot : string) (response : json)
    (output : list json) (rs : list json) :
  take_screenshots w = ok shot -> forallb reasoning rs = true ->
  forall s,
    handle_items w (rs ++ output) response s
    = handle_items w output response
        (mkState (task s) (log s ++ repeat EvScreenshot (List.length rs))
           (mkActor (items (extra s)) (last_call_id (extra s))
              (last_action_type (extra s))
              (List.last (map summary_of rs) (last_reasoning (extra s))))).
Proof.
  intros Hs. induction rs as [|item rs IH]; intros Hr s.
  - simpl. rewrite app_nil_r. destruct s as [t l [i c a r]]. reflexivity.
  - simpl in Hr. apply andb_true_iff in Hr as [Hi Hr].
    cbn [app handle_items]. unfold bind at 1.
    rewrite (reasoning_step w shot item response s Hs Hi).
    rewrite (IH Hr). cbn [task log extra items last_call_id last_action_type
                          last_reasoning List.length repeat].
    rewrite <- app_assoc. cbn [app].
    f_equal. f_equal. f_equal.
    destruct rs as [|r2 rs]; [reflexivity|].
    cbn [map]. apply (last_nonempty (map summary_of rs) (summary_of r2)).
Qed.

Lemma thought_of_text (first : dict) (more : list json) (text : json) :
  dict_find first "text" = Some text ->
  thought_of (JList (JDict first :: more)) = ok text.
Proof.
  intros H. unfold thought_of, contains, dict_has, subscript_key, dict_get.
  cbn. rewrite H. reflexivity.
Qed.

Section ComputerCall.

Variables (w : Env) (shot : string) (call action : dict) (action_type : string)
  (call_id response : json) (s : State Actor).
Hypothesis Hshot : take_screenshots w = ok shot.
Hypothesis Htype : dict_find call "type" = Some (JStr "computer_call").
Hypothesis Haction : dict_find call "action" = Some (JDict action).
Hypothesis Hkind : dict_find action "type" = Some (JStr action_type).
Hypothesis Hid : dict_find call "call_id" = Some call_id.

Ltac to_parse :=
  unfold handle_item; unfold_run; rewrite Hshot; unfold_run;
  unfold subscript_key at 1, dict_get; rewrite Htype; unfold_run;
  cbn [is_str String.eqb Ascii.eqb Bool.eqb]; unfold_run;
  unfold subscript_key at 1, dict_get; rewrite Haction; unfold_run;
  unfold subscript_key at 1, dict_get; rewrite Hkind; unfold_run;
  cbn [without_type]; unfold_run;
  unfold subscript_key at 1, dict_get; rewrite Hid; unfold_run;
  cbn [parse_action]; rewrite parse_action_on_dict.

Lemma computer_call_step (parsed : option V1Action)
    (thought usage in_tokens out_tokens : json) :
  Cua.parse_action action_type (dict_del action "type") = ok parsed ->
  thought_of (last_reasoning (extra s)) = ok thought ->
  subscript_key response "usage" = ok usage ->
  subscript_key usage "input_tokens" = ok in_tokens ->
  subscript_key usage "output_tokens" = ok out_tokens ->
  handle_item w (JDict call) response s
  = (inr (Some (mkStep shot parsed thought (JDict call) in_tokens out_tokens)),
     mkState (task s) (log s ++ [EvScreenshot])
       (mkActor (items (extra s)) call_id (Some "computer_call") JNull)).
Proof.
  intros Hp Ht Hu Hi Ho. to_parse. rewrite Hp. unfold_run.
  rewrite Ht. unfold_run. rewrite Hu. unfold_run. rewrite Hi. unfold_run.
  rewrite Ho. unfold_run. reflexivity.
Qed.

Lemma computer_call_parse_fails (e : exn) :
  Cua.parse_action action_type (dict_del action "type") = throw e ->
  handle_item w (JDict call) response s
  = (inl e,
     mkState (task s) (log s ++ [EvScreenshot])
       (mkActor (items (extra s)) call_id (Some "computer_call")
          (last_reasoning (extra s)))).
Proof.
  intros Hp. to_parse. rewrite Hp. unfold_run. reflexivity.
Qed.

End ComputerCall.

Lemma repeat_end {A} (x : A) (n : nat) :
  (repeat x n ++ [x] = repeat x (S n))%list.
Proof. induction n as [|n IH]; simpl; [reflexivity | now rewrite IH]. Qed.

(** Reasoning items never give a step: each one costs a screenshot and
    leaves its summary behind.  The first computer call after them ends
    the loop over the reply: its step carries what the parser made of the
    call (no action at all when the parser does not know the type), and as
    thought the text of the first entry of the last summary, which is then
    forgotten; the call id is kept for the next [act], and the items after
    the call are not looked at. *)
Theorem reasoning_becomes_thought (w : Env) (shot : string)
    (rs rest more : list json) (call action first : dict)
    (action_type : string) (parsed : option V1Action)
    (call_id text response usage in_tokens out_tokens : json)
    (s : State Actor) :
  take_screenshots w = ok shot ->
  forallb reasoning rs = true ->
  List.last (map summary_of rs) (last_reasoning (extra s))
  = JList (JDict first :: more) ->
  dict_find first "text" = Some text ->
  dict_find call "type" = Some (JStr "computer_call") ->
  dict_find call "action" = Some (JDict action) ->
  dict_find action "type" = Some (JStr action_type) ->
  dict_find call "call_id" = Some call_id ->
  Cua.parse_action action_type (dict_del action "type") = ok parsed ->
  subscript_key response "usage" = ok usage ->
  subscript_key usage "input_tokens" = ok in_tokens ->
  subscript_key usage "output_tokens" = ok out_tokens ->
  handle_items w (rs ++ JDict call :: rest) response s
  = (inr (Some (mkStep shot parsed text (JDict call) in_tokens out_tokens)),
     mkState (task s)
       (log s ++ repeat EvScreenshot (S (List.length rs)))
       (mkActor (items (extra s)) call_id (Some "computer_call") JNull)).
Proof.
  intros Hs Hr Hl Ht Hty Ha Hk Hid Hp Hu Hi Ho.
  rewrite (reasoning_run w shot response _ rs Hs Hr).
  cbn [handle_items]. unfold bind.
  rewrite (computer_call_step w shot call action action_type call_id response
             _ Hs Hty Ha Hk Hid parsed text usage in_tokens out_tokens Hp).
  - cbn [task log extra items]. rewrite <- app_assoc, repeat_end. reflexivity.
  - cbn [extra last_reasoning]. rewrite Hl. exact (thought_of_text _ _ _ Ht).
  - exact Hu.
  - exact Hi.
  - exact Ho.
Qed.

Lemma reasoning_becomes_thought_witness :
  handle_items ActorFixtures.desktop
    [ActorFixtures.reasoning_item; JDict ActorFixtures.click_call]
    (ActorFixtures.reply []) (ActorFixtures.holding [])
  = (inr (Some (mkStep "iVBORw0KGgo=" (Some Fixtures.click)
                  (JStr "The browser icon is in the dock.")
                  (JDict ActorFixtures.click_call) (JInt 1200) (JInt 40))),
     mkState (task (ActorFixtures.holding []))
       [EvScreenshot; EvScreenshot]
       (mkActor [] (JStr "call_1") (Some "computer_call") JNull)).
Proof.
  exact (reasoning_becomes_thought ActorFixtures.desktop "iVBORw0KGgo="
           [ActorFixtures.reasoning_item] [] []
           ActorFixtures.click_call
           [("type", JStr "click"); ("x", JInt 24); ("y", JInt 150);
            ("button", JStr "left")]
           [("type", JStr "summary_text");
            ("text", JStr "The browser icon is in the dock.")]
           "click" (Some Fixtures.click) (JStr "call_1")
           (JStr "The browser icon is in the dock.")
           (ActorFixtures.reply [])
           (JDict [("input_tokens", JInt 1200); ("output_tokens", JInt 40)])
           (JInt 1200) (JInt 40) (ActorFixtures.holding [])
           eq_refl eq_refl eq_refl eq_refl eq_refl eq_refl eq_refl eq_refl
           eq_refl eq_refl eq_refl eq_refl).
Defined.

(** A computer call whose arguments the parser rejects is pending all the
    same: [handle_item] raises the parser's exception after it has stored
    the kind and the id of the call, and keeps the last reasoning.  So the
    next [act], on a retry, answers a call that was never executed:
    [record_result_of_previous_action] appends a screenshot output with
    that call id. *)
Theorem failed_parse_leaves_call_pending (w : Env) (shot : string)
    (call action : dict) (action_type : string) (call_id response : json)
    (e : exn) (s : State Actor) :
  take_screenshots w = ok shot ->
  dict_find call "type" = Some (JStr "computer_call") ->
  dict_find call "action" = Some (JDict action) ->
  dict_find action "type" = Some (JStr action_type) ->
  dict_find call "call_id" = Some call_id ->
  Cua.parse_action action_type (dict_del action "type") = throw e ->
  truthy call_id = true ->
  exists s1,
    handle_item w (JDict call) response s = (inl e, s1)
    /\ last_reasoning (extra s1) = last_reasoning (extra s)
    /\ forall w' shot',
         take_screenshots w' = ok shot' ->
         record_result_of_previous_action w' s1
         = (inr tt,
            mkState (task s) (log s ++ [EvScreenshot; EvScreenshot])
              (mkActor (items (extra s) ++ [screenshot_output call_id shot'])
                 JNull None (last_reasoning (extra s)))).
Proof.
  intros Hs Hty Ha Hk Hid Hp Ht. eexists. split; [|split].
  - exact (computer_call_parse_fails w shot call action action_type call_id
             response s Hs Hty Ha Hk Hid e Hp).
  - reflexivity.
  - intros w' shot' Hs'. unfold record_result_of_previous_action.
    unfold_run. rewrite Hs'. unfold_run.
    cbn [action_type_is String.eqb Ascii.eqb Bool.eqb]. unfold_run.
    rewrite <- app_assoc. reflexivity.
Qed.

Lemma failed_parse_leaves_call_pending_witness :
  exists s1,
    handle_item ActorFixtures.desktop (JDict ActorFixtures.broken_call)
      (ActorFixtures.reply []) (ActorFixtures.holding [ActorFixtures.user_item])
    = (inl (KeyError "x"), s1)
    /\ last_call_id (extra s1) = JStr "call_2".
Proof.
  destruct (failed_parse_leaves_call_pending ActorFixtures.desktop
              "iVBORw0KGgo=" ActorFixtures.broken_call
              [("type", JStr "click"); ("y", JInt 150)] "click"
              (JStr "call_2") (ActorFixtures.reply []) (KeyError "x")
              (ActorFixtures.holding [ActorFixtures.user_item])
              eq_refl eq_refl eq_refl eq_refl eq_refl eq_refl eq_refl)
    as (s1 & H & _).
  exists s1. split; [exact H|].
  apply (f_equal snd) in H. cbn [snd] in H. rewrite <- H. reflexivity.
Defined.

(** A [message] item is the final answer: when its first content part has
    a text, the step carries the action [result] with that text as
    [value], and no call becomes pending, so the next [act] records no
    result.  A message without content parts raises [IndexError] once the
    screenshot is taken, and leaves the actor as it was. *)
Theorem message_is_the_result (w : Env) (shot : string) (message : dict)
    (response : json) (s : State Actor) :
  take_screenshots w = ok shot ->
  dict_find message "type" = Some (JStr "message") ->
  (forall part parts text thought usage in_tokens out_tokens,
     dict_find message "content" = Some (JList (JDict part :: parts)) ->
     dict_find part "text" = Some text ->
     thought_of (last_reasoning (extra s)) = ok thought ->
     subscript_key response "usage" = ok usage ->
     subscript_key usage "input_tokens" = ok in_tokens ->
     subscript_key usage "output_tokens" = ok out_tokens ->
     handle_item w (JDict message) response s
     = (inr (Some (mkStep shot (Some (mkAction "result" [("value", text)]))
                     thought (JDict message) in_tokens out_tokens)),
        mkState (task s) (log s ++ [EvScreenshot])
          (mkActor (items (extra s)) (last_call_id (extra s))
             (last_action_type (extra s)) JNull)))
  /\ (dict_find message "content" = Some (JList []) ->
      handle_item w (JDict message) response s
      = (inl (IndexError "list index out of range"),
         mkState (task s) (log s ++ [EvScreenshot]) (extra s))).
Proof.
  intros Hs Hty. split.
  - intros part parts text thought usage in_tokens out_tokens Hc Hp Ht Hu Hi Ho.
    unfold handle_item. unfold_run. rewrite Hs. unfold_run.
    unfold subscript_key at 1, dict_get. rewrite Hty. unfold_run.
    cbn [is_str String.eqb Ascii.eqb Bool.eqb]. unfold_run.
    unfold subscript_key at 1, dict_get. rewrite Hc.
    unfold ok, rbind. cbv beta iota. cbn [subscript_idx nth_error].
    unfold ok. cbv beta iota. cbn [subscript_key]. unfold dict_get.
    rewrite Hp. unfold_run.
    rewrite Ht. unfold_run. rewrite Hu. unfold_run. rewrite Hi. unfold_run.
    rewrite Ho. unfold_run. reflexivity.
  - intros Hc.
    unfold handle_item. unfold_run. rewrite Hs. unfold_run.
    unfold subscript_key at 1, dict_get. rewrite Hty. unfold_run.
    cbn [is_str String.eqb Ascii.eqb Bool.eqb]. unfold_run.
    unfold subscript_key at 1, dict_get. rewrite Hc.
    unfold ok, rbind. cbv beta iota. cbn [subscript_idx nth_error].
    unfold throw. cbv beta iota.
    destruct s as [t l a]. reflexivity.
Qed.

Lemma message_is_the_result_witness :
  handle_item ActorFixtures.desktop (JDict ActorFixtures.message_item)
    (ActorFixtures.reply []) (ActorFixtures.holding [ActorFixtures.user_item])
  = (inr (Some (mkStep "iVBORw0KGgo="
                  (Some (mkAction "result"
                           [("value", JStr "The file is saved.")]))
                  (JStr "") (JDict ActorFixtures.message_item)
                  (JInt 1200) (JInt 40))),
     mkState (task (ActorFixtures.holding [])) [EvScreenshot]
       (mkActor [ActorFixtures.user_item] JNull None JNull)).
Proof.
  destruct (message_is_the_result ActorFixtures.desktop "iVBORw0KGgo="
              ActorFixtures.message_item (ActorFixtures.reply [])
              (ActorFixtures.holding [ActorFixtures.user_item])
              eq_refl eq_refl) as (H & _).
  exact (H [("type", JStr "output_text"); ("text", JStr "The file is saved.")]
           [] (JStr "The file is saved.") (JStr "")
           (JDict [("input_tokens", JInt 1200); ("output_tokens", JInt 40)])
           (JInt 1200) (JInt 40)
           eq_refl eq_refl eq_refl eq_refl eq_refl eq_refl).
Defined.

End ActorFacts.
